(** * ETL Spotify playlists to MongoDB: a model of [etl_spotify.py]

    The development embeds the core of the pipeline:
    - the two cleaning functions [limpiar_y_transformar_playlists] and
      [limpiar_y_transformar_tracks] over a column-oriented model of a
      pandas [DataFrame];
    - the loader [cargar_en_mongodb] over an abstract document store;
    - the per-file driver [procesar_archivo_csv] with its fallback path;
    - the pipeline [ejecutar_etl] over the outcome of its setup steps,
      with the choice of collection and transform by file name.

    Numbers are exact rationals ([Q]) and a missing number ([NaN]) is
    [None]: the rounding of float64 arithmetic and the infinities are not
    modelled.  The pandas and pymongo calls are modelled by their
    documented behaviour for the pandas 1.x / 2.x line the script is
    written for (in-place [fillna] on a column reaches the frame,
    [astype(str)] turns a missing value into the text [nan]).

    What the script leaves to its runtime is a parameter: the Unicode
    tables, [to_datetime] and the text of a float ([PyEnv]), the JSON
    rendering of a float and of a date on the way to the store
    ([JsonEnv]), [str.lower] on a file name ([StrLower]), and the store
    itself ([DocumentStore] for the writes, which take the [ordered] flag,
    [StoreSummary] for the reads of the final summary).  Every call to the
    store, write or read, is recorded in the trace of the run.

    Each transform is given twice: as a function from the input batch to
    the cleaned batch, which the claims about the content of the output
    use, and, in module [Obj], statement by statement on a store of frame
    objects, which the claim about the caller's frame uses.  The lemmas
    [obj_playlists_run] and [obj_tracks_run] relate the two. *)

From Stdlib Require Import QArith Qround Lqa Sorted.
From stdpp Require Import base list strings gmap.

(* ================================================================== *)
(** * Part I: definitions *)
(* ================================================================== *)

(** ** Python text

    A Python [str] held in a cell is a list of Unicode code points.
    Column names and labels, which the script only compares and searches
    for ASCII words, are Rocq strings. *)

Abbreviation pystr := (list N).

Definition py (s : string) : pystr :=
  Ascii.N_of_ascii <$> String.list_ascii_of_string s.

(** [str.lower] on the ASCII range (no character outside it lowers to an
    ASCII letter that occurs in [date] or [time]). *)
Definition lower_ascii (c : Ascii.ascii) : Ascii.ascii :=
  let n := Ascii.nat_of_ascii c in
  if (65 <=? n)%nat && (n <=? 90)%nat then Ascii.ascii_of_nat (n + 32) else c.

Fixpoint lower (s : string) : string :=
  match s with
  | EmptyString => EmptyString
  | String c s' => String (lower_ascii c) (lower s')
  end.

(** [needle in hay] for Python strings. *)
Fixpoint contains (needle hay : string) : bool :=
  String.prefix needle hay ||
  match hay with
  | EmptyString => false
  | String _ hay' => contains needle hay'
  end.

(** ** Exceptions and results *)

(** One entry of [bwe.details['writeErrors']]: the position of the
    rejected document in the batch and the server's error code. *)
Record write_error := WriteError { we_index : nat; we_code : N }.

Inductive exn :=
| TypeError
| KeyError
| ZeroDivisionError
| ParserError          (* pandas.errors.ParserError, UnicodeDecodeError, ... *)
| FileNotFoundError
| ConnectionFailure    (* pymongo.errors.ConnectionFailure and subclasses *)
| OperationFailure     (* pymongo.errors.OperationFailure other than bulk write *)
| BulkWriteError (writeErrors : list write_error).

Inductive result (A : Type) :=
| Ok (a : A)
| Raise (e : exn).
Arguments Ok {A} a.
Arguments Raise {A} e.

(** ** Data frames *)

(** An element of an object-dtype column. *)
Inductive pyobj :=
| ONaN                 (* float nan: the missing marker of read_csv *)
| OStr (s : pystr)
| ONum (q : Q)
| OBool (b : bool).

Inductive column :=
| NumCol (xs : list (option Q))       (* int64 / float64, None is NaN *)
| ObjCol (xs : list pyobj)            (* object *)
| BoolCol (xs : list bool)            (* bool *)
| TimeCol (xs : list (option Z))      (* datetime64[ns], None is NaT *)
| CatCol (xs : list (option string)). (* category, None is NaN *)

(** Columns in frame order, each with its name. *)
Abbreviation DataFrame := (list (string * column)).

Definition col_len (c : column) : nat :=
  match c with
  | NumCol xs => length xs
  | ObjCol xs => length xs
  | BoolCol xs => length xs
  | TimeCol xs => length xs
  | CatCol xs => length xs
  end.

Definition columns (df : DataFrame) : list string := df.*1.

Definition nrows (df : DataFrame) : nat :=
  match df with
  | [] => 0
  | (_, c) :: _ => col_len c
  end.

(** The shape invariant of a pandas frame: distinct column names (read_csv
    renames repeated headers) and one length for all columns. *)
Definition wf (df : DataFrame) : Prop :=
  NoDup (columns df) ∧ Forall (λ nc, col_len nc.2 = nrows df) df.

(** The dtypes [read_csv] produces when called as the script calls it. *)
Definition csv_column (c : column) : bool :=
  match c with
  | NumCol _ | ObjCol _ | BoolCol _ => true
  | TimeCol _ | CatCol _ => false
  end.

Definition csv_frame (df : DataFrame) : Prop :=
  wf df ∧ Forall (λ nc, csv_column nc.2 = true) df.

(** [df[name]], [None] when ['name' in df.columns] is false. *)
Fixpoint get_col (name : string) (df : DataFrame) : option column :=
  match df with
  | [] => None
  | (n, c) :: df' => if String.eqb n name then Some c else get_col name df'
  end.

(** [df[name] = c]: replaces the column, or appends a new last column. *)
Fixpoint set_col (name : string) (c : column) (df : DataFrame) : DataFrame :=
  match df with
  | [] => [(name, c)]
  | (n, c0) :: df' =>
      if String.eqb n name then (n, c) :: df' else (n, c0) :: set_col name c df'
  end.

(** *** Rows *)

Inductive cell :=
| CNull
| CNum (q : Q)
| CStr (s : pystr)
| CBool (b : bool)
| CTime (t : Z)
| CCat (l : string).

Definition cell_of_obj (o : pyobj) : cell :=
  match o with
  | ONaN => CNull
  | OStr s => CStr s
  | ONum q => CNum q
  | OBool b => CBool b
  end.

Definition cells (c : column) : list cell :=
  match c with
  | NumCol xs => (λ x, from_option CNum CNull x) <$> xs
  | ObjCol xs => cell_of_obj <$> xs
  | BoolCol xs => CBool <$> xs
  | TimeCol xs => (λ x, from_option CTime CNull x) <$> xs
  | CatCol xs => (λ x, from_option CCat CNull x) <$> xs
  end.

Abbreviation row := (list cell).

Definition row_at (df : DataFrame) (i : nat) : row :=
  (λ nc, nth i (cells nc.2) CNull) <$> df.

Definition rows (df : DataFrame) : list row :=
  row_at df <$> seq 0 (nrows df).

(** The rows of a table given by its columns of cells. *)
Definition transpose (n : nat) (css : list (list cell)) : list row :=
  (λ i, (λ cs, nth i cs CNull) <$> css) <$> seq 0 n.

(** Equality of two values of one column as [duplicated] sees it: missing
    values are equal to each other, numbers are compared by value, and a
    Python bool equals the number 0 or 1. *)
Definition num_of_bool (b : bool) : Q := if b then 1%Q else 0%Q.

Definition cell_eqb (a b : cell) : bool :=
  match a, b with
  | CNull, CNull => true
  | CNum x, CNum y => Qeq_bool x y
  | CNum x, CBool y | CBool y, CNum x => Qeq_bool x (num_of_bool y)
  | CBool x, CBool y => Bool.eqb x y
  | CStr s, CStr t => bool_decide (s = t)
  | CTime s, CTime t => bool_decide (s = t)
  | CCat s, CCat t => bool_decide (s = t)
  | _, _ => false
  end.

Fixpoint row_eqb (r s : row) : bool :=
  match r, s with
  | [], [] => true
  | a :: r', b :: s' => cell_eqb a b && row_eqb r' s'
  | _, _ => false
  end.

(** [df.duplicated()], keep='first': a row is marked when an equal row
    was seen before it. *)
Fixpoint duplicated_from (seen : list row) (rs : list row) : list bool :=
  match rs with
  | [] => []
  | r :: rs' => existsb (row_eqb r) seen :: duplicated_from (r :: seen) rs'
  end.

Definition duplicated (df : DataFrame) : list bool :=
  duplicated_from [] (rows df).

(** Boolean-mask selection [xs[mask]]. *)
Fixpoint mask_select {A} (mask : list bool) (xs : list A) : list A :=
  match mask, xs with
  | b :: mask', x :: xs' =>
      if b then x :: mask_select mask' xs' else mask_select mask' xs'
  | _, _ => []
  end.

(** The number of rows a mask selects. *)
Definition count_true (mask : list bool) : nat :=
  length (filter (λ b, b = true) mask).

Definition col_select (mask : list bool) (c : column) : column :=
  match c with
  | NumCol xs => NumCol (mask_select mask xs)
  | ObjCol xs => ObjCol (mask_select mask xs)
  | BoolCol xs => BoolCol (mask_select mask xs)
  | TimeCol xs => TimeCol (mask_select mask xs)
  | CatCol xs => CatCol (mask_select mask xs)
  end.

(** The claim about duplicate removal, in its own words: row [i] is a
    first occurrence when no earlier row equals it, and the result is the
    subsequence of the first occurrences. *)
Definition is_first_occurrence (rs : list row) (i : nat) : bool :=
  forallb (λ j, negb (row_eqb (nth i rs []) (nth j rs []))) (seq 0 i).

Definition first_occurrences (rs : list row) : list row :=
  mask_select (is_first_occurrence rs <$> seq 0 (length rs)) rs.

(** [df.drop_duplicates()]: the rows not marked by [duplicated]. *)
Definition drop_duplicates (df : DataFrame) : DataFrame :=
  let keep := negb <$> duplicated df in
  prod_map id (col_select keep) <$> df.

(** [df[name].fillna(v, inplace=True)] with a text value [v].  A float
    column that holds a NaN becomes an object column; a column without
    missing values is left as it is.  Datetime and categorical columns do
    not occur where the script calls it (see [csv_frame]) and are left
    alone. *)
Definition fillna_str (v : pystr) (c : column) : column :=
  match c with
  | ObjCol xs => ObjCol ((λ o, match o with ONaN => OStr v | _ => o end) <$> xs)
  | NumCol xs =>
      if forallb (λ x, bool_decide (is_Some x)) xs then NumCol xs
      else ObjCol ((λ x, from_option ONum (OStr v) x) <$> xs)
  | _ => c
  end.

(** One column rewritten in place, [df[col] = f(df[col])]. *)
Definition update_col (f : column → column) (df : DataFrame) (col : string)
  : DataFrame :=
  match get_col col df with
  | Some c => set_col col (f c) df
  | None => df
  end.

Definition select_dtypes (p : column → bool) (df : DataFrame) : list string :=
  (filter (λ nc, p nc.2 = true) df).*1.

Definition is_number (c : column) : bool :=
  match c with NumCol _ => true | _ => false end.

Definition is_object (c : column) : bool :=
  match c with ObjCol _ => true | _ => false end.

(** ** Column statistics *)

Definition dropna (xs : list (option Q)) : list Q := omap id xs.

Fixpoint insert_sorted (x : Q) (l : list Q) : list Q :=
  match l with
  | [] => [x]
  | y :: l' => if Qle_bool x y then x :: l else y :: insert_sorted x l'
  end.

Definition sort_values (l : list Q) : list Q := foldr insert_sorted [] l.

(** Linear interpolation between the two order statistics of the sorted
    values [v] around the position [q * (n - 1)]. *)
Definition interpolate (v : list Q) (q : Q) : Q :=
  let n := length v in
  let h := (q * inject_Z (Z.of_nat (n - 1)))%Q in
  let lo := Z.to_nat (Qfloor h) in
  let hi := Nat.min (lo + 1) (n - 1) in
  let g := (h - inject_Z (Qfloor h))%Q in
  (nth lo v 0 + (nth hi v 0 - nth lo v 0) * g)%Q.

(** [Series.quantile(q)]: missing values are skipped; NaN when no value
    is left. *)
Definition quantile (xs : list (option Q)) (q : Q) : option Q :=
  let v := sort_values (dropna xs) in
  match v with
  | [] => None
  | _ :: _ => Some (interpolate v q)
  end.

(** [Series.median()], missing values skipped. *)
Definition median (xs : list (option Q)) : option Q :=
  let v := sort_values (dropna xs) in
  match v with
  | [] => None
  | _ :: _ =>
      let n := length v in
      if Nat.even n
      then Some ((nth (n / 2 - 1) v 0 + nth (n / 2) v 0) / 2)%Q
      else Some (nth (n / 2) v 0%Q)
  end.

(** Float arithmetic and comparison with NaN: an operation on NaN is NaN,
    a comparison with NaN is false. *)
Definition fsub (a b : option Q) : option Q :=
  match a, b with Some x, Some y => Some (x - y)%Q | _, _ => None end.
Definition fadd (a b : option Q) : option Q :=
  match a, b with Some x, Some y => Some (x + y)%Q | _, _ => None end.
Definition fmul (a b : option Q) : option Q :=
  match a, b with Some x, Some y => Some (x * y)%Q | _, _ => None end.
Definition flt (a b : option Q) : bool :=
  match a, b with Some x, Some y => negb (Qle_bool y x) | _, _ => false end.

(** [xs.loc[mask] = nan]. *)
Definition loc_set_nan (mask : list bool) (xs : list (option Q))
  : list (option Q) :=
  zip_with (λ (b : bool) x, if b then None else x) mask xs.

(** [xs.fillna(m)]; filling with NaN changes nothing. *)
Definition fillna (m : option Q) (xs : list (option Q)) : list (option Q) :=
  match m with
  | None => xs
  | Some v => (λ x, match x with None => Some v | Some _ => x end) <$> xs
  end.

(** The bounds of the outlier step and its mask, over exact rationals: a
    value that lies on a bound here can fall on either side of the bound
    that float64 arithmetic gives. *)
Definition lower_bound (xs : list (option Q)) : option Q :=
  let q1 := quantile xs 0.05 in
  let q3 := quantile xs 0.95 in
  let iqr := fsub q3 q1 in
  fsub q1 (fmul (Some 1.5%Q) iqr).

Definition upper_bound (xs : list (option Q)) : option Q :=
  let q1 := quantile xs 0.05 in
  let q3 := quantile xs 0.95 in
  let iqr := fsub q3 q1 in
  fadd q3 (fmul (Some 1.5%Q) iqr).

Definition outlier_mask (xs : list (option Q)) : list bool :=
  (λ x, flt x (lower_bound xs) || flt (upper_bound xs) x) <$> xs.

(** The body of the loop over the numeric columns. *)
Definition suppress_outliers (c : column) : column :=
  match c with
  | NumCol xs =>
      let xs1 := loc_set_nan (outlier_mask xs) xs in
      NumCol (fillna (median xs1) xs1)
  | _ => c
  end.

(** ** [pd.cut] *)

(** [bins.searchsorted(x, side='left')]: the number of edges below [x]. *)
Definition searchsorted_left (bins : list Q) (x : Q) : nat :=
  length (filter (λ b, Qle_bool x b = false) bins).

(** [pd.cut(x, bins, labels)] with the defaults [right=True] and
    [include_lowest=False]: the intervals are open on the left. *)
Definition cut_value (bins : list Q) (labels : list string) (x : option Q)
  : option string :=
  match x with
  | None => None
  | Some v =>
      let ids := searchsorted_left bins v in
      if (ids =? 0)%nat || (ids =? length bins)%nat then None
      else labels !! (ids - 1)%nat
  end.

Definition popularity_bins : list Q := [0; 20; 40; 60; 80; 100]%Q.
Definition popularity_labels : list string :=
  ["Very Low"; "Low"; "Medium"; "High"; "Very High"].

(** The values [pd.cut] bins: a number as it is, a bool as 0 or 1, a
    missing value as NaN; text cannot be compared with the edges. *)
Definition obj_number (o : pyobj) : result (option Q) :=
  match o with
  | ONaN => Ok None
  | ONum q => Ok (Some q)
  | OBool b => Ok (Some (num_of_bool b))
  | OStr _ => Raise TypeError
  end.

Fixpoint obj_numbers (os : list pyobj) : result (list (option Q)) :=
  match os with
  | [] => Ok []
  | o :: os' =>
      match obj_number o, obj_numbers os' with
      | Ok x, Ok xs => Ok (x :: xs)
      | Raise e, _ => Raise e
      | _, Raise e => Raise e
      end
  end.

Definition cut (c : column) (bins : list Q) (labels : list string)
  : result column :=
  match c with
  | NumCol xs => Ok (CatCol (cut_value bins labels <$> xs))
  | BoolCol bs =>
      Ok (CatCol ((λ b, cut_value bins labels (Some (num_of_bool b))) <$> bs))
  | ObjCol os =>
      match obj_numbers os with
      | Ok xs => Ok (CatCol (cut_value bins labels <$> xs))
      | Raise e => Raise e
      end
  | TimeCol _ | CatCol _ => Raise TypeError
  end.

(** A numeric column without missing values. *)
Definition nums (l : list Q) : list (option Q) := Some <$> l.

(** ** Text cleaning *)

(** The parts of the Python runtime the playlist transform relies on and
    the script does not define: the Unicode alphanumeric table behind the
    regex class [\w] outside ASCII, [pd.to_datetime(_, errors='coerce')]
    (which may raise), and the text of a float under [str]. *)
Class PyEnv := {
  unicode_isalnum : N → bool;
  to_datetime : column → result (list (option Z));
  float_repr : Q → pystr;
}.

Definition in_range (lo hi c : N) : bool := (lo <=? c)%N && (c <=? hi)%N.

Definition ascii_isalnum (c : N) : bool :=
  in_range 48 57 c || in_range 65 90 c || in_range 97 122 c.

(** The regex class [\s] of a str pattern. *)
Definition is_space (c : N) : bool :=
  in_range 9 13 c || in_range 28 32 c || (c =? 133)%N || (c =? 160)%N ||
  (c =? 5760)%N || in_range 8192 8202 c || (c =? 8232)%N || (c =? 8233)%N ||
  (c =? 8239)%N || (c =? 8287)%N || (c =? 12288)%N.

Section text.
Context `{PyEnv}.

(** The regex class [\w] of a str pattern. *)
Definition is_word (c : N) : bool :=
  if (c <? 128)%N then ascii_isalnum c || (c =? 95)%N else unicode_isalnum c.

(** [re.sub(r'[^\w\s]', '', s)]. *)
Definition strip_special (s : pystr) : pystr :=
  filter (λ c, is_word c || is_space c = true) s.

(** [str(o)] for the element of an object column. *)
Definition str_of_obj (o : pyobj) : pystr :=
  match o with
  | ONaN => py "nan"
  | OStr s => s
  | ONum q => float_repr q
  | OBool b => if b then py "True" else py "False"
  end.

(** [df[col].astype(str).str.replace(r'[^\w\s]', '', regex=True)]. *)
Definition clean_text (c : column) : column :=
  match c with
  | ObjCol xs => ObjCol ((λ o, OStr (strip_special (str_of_obj o))) <$> xs)
  | _ => c
  end.

(** [df[col] = pd.to_datetime(df[col], errors='coerce')] under
    [try: ... except: pass]. *)
Definition parse_dates (c : column) : column :=
  match to_datetime c with
  | Ok ts => TimeCol ts
  | Raise _ => c
  end.

Definition is_date_column (col : string) : bool :=
  contains "date" (lower col) || contains "time" (lower col).

(** ** The playlist transform (lines 117-147) *)
Definition limpiar_y_transformar_playlists (df_playlists : DataFrame)
  : DataFrame :=
  let df := df_playlists in
  let df := drop_duplicates df in
  let df := update_col (fillna_str (py "Unknown Playlist")) df "name" in
  let date_columns := filter (λ col, is_date_column col = true) (columns df) in
  let df := fold_left (update_col parse_dates) date_columns df in
  let text_columns := select_dtypes is_object df in
  let df := fold_left (update_col clean_text) text_columns df in
  df.

(** What the playlist transform does to the column named [n]. *)
Definition playlist_column (keep : list bool) (n : string) (c : column)
  : column :=
  let c1 := col_select keep c in
  let c2 := if decide (n = "name") then fillna_str (py "Unknown Playlist") c1
            else c1 in
  let c3 := if is_date_column n then parse_dates c2 else c2 in
  clean_text c3.
End text.

(** A runtime for the closed examples: their text is ASCII, their date
    columns hold no parsable date (every entry is coerced to NaT), and
    they hold no float in an object column. *)
Definition example_env : PyEnv := {|
  unicode_isalnum := λ _, false;
  to_datetime := λ c, Ok ((λ _, None) <$> cells c);
  float_repr := λ _, [];
|}.

(** ** The track transform (lines 149-193) *)
Definition add_popularity_category (df : DataFrame) : result DataFrame :=
  match get_col "popularity" df with
  | Some c =>
      match cut c popularity_bins popularity_labels with
      | Ok cat => Ok (set_col "popularity_category" cat df)
      | Raise e => Raise e
      end
  | None => Ok df
  end.

Definition limpiar_y_transformar_tracks (df_tracks : DataFrame)
  : result DataFrame :=
  let df := df_tracks in
  let df := drop_duplicates df in
  let df := update_col (fillna_str (py "Unknown Track")) df "track_name" in
  let df := update_col (fillna_str (py "Unknown Artist")) df "artist_name" in
  let numeric_columns := select_dtypes is_number df in
  let df := fold_left (update_col suppress_outliers) numeric_columns df in
  add_popularity_category df.

(** What the track transform does to the column named [n] before the
    category column is added. *)
Definition track_column (keep : list bool) (n : string) (c : column) : column :=
  let c1 := col_select keep c in
  let c2 := if decide (n = "track_name")
            then fillna_str (py "Unknown Track") c1 else c1 in
  let c3 := if decide (n = "artist_name")
            then fillna_str (py "Unknown Artist") c2 else c2 in
  suppress_outliers c3.

(** ** Effects: state and exceptions

    A computation runs on a state and either returns or raises; what it
    did to the state before raising stays done. *)

Definition Eff (St A : Type) : Type := St → result A * St.

#[export] Instance eff_ret {St} : MRet (Eff St) := λ A a s, (Ok a, s).

#[export] Instance eff_bind {St} : MBind (Eff St) := λ A B f m s,
  match m s with
  | (Ok a, s') => f a s'
  | (Raise e, s') => (Raise e, s')
  end.

Definition raise {St A} (e : exn) : Eff St A := λ s, (Raise e, s).

Definition lift {St A} (r : result A) : Eff St A := λ s, (r, s).

(** [try: m except Exception as e: handler(e)]. *)
Definition try_except {St A} (m : Eff St A) (handler : exn → Eff St A)
  : Eff St A := λ s,
  match m s with
  | (Ok a, s') => (Ok a, s')
  | (Raise e, s') => handler e s'
  end.

(** [for x in l: body(x)]. *)
Fixpoint for_each {St B} (l : list B) (body : B → Eff St unit) : Eff St unit :=
  match l with
  | [] => mret tt
  | x :: l' => body x ;; for_each l' body
  end.

(** ** The transforms on frame objects

    The caller passes a reference to a frame; [copy] allocates a new
    frame object and every later statement of the transform mutates the
    object it is applied to. *)
Module Obj.

Abbreviation loc := positive.
Abbreviation heap := (gmap loc DataFrame).

(** [df.copy()]. *)
Definition copy (l : loc) : Eff heap loc := λ h,
  match h !! l with
  | Some df => let l' := fresh (dom h) in (Ok l', <[l' := df]> h)
  | None => (Raise KeyError, h)
  end.

(** The frame a reference points to. *)
Definition deref (l : loc) : Eff heap DataFrame := λ h,
  match h !! l with
  | Some df => (Ok df, h)
  | None => (Raise KeyError, h)
  end.

(** An in-place operation on the frame at [l]. *)
Definition mutate (l : loc) (f : DataFrame → DataFrame) : Eff heap unit :=
  λ h, (Ok tt, alter f l h).

Definition limpiar_y_transformar_playlists `{PyEnv} (df_playlists : loc)
  : Eff heap loc :=
  df ← copy df_playlists;
  mutate df drop_duplicates;;
  mutate df (λ d, update_col (fillna_str (py "Unknown Playlist")) d "name");;
  d ← deref df;
  let date_columns := filter (λ col, is_date_column col = true) (columns d) in
  for_each date_columns (λ col, mutate df (λ d, update_col parse_dates d col));;
  d ← deref df;
  let text_columns := select_dtypes is_object d in
  for_each text_columns (λ col, mutate df (λ d, update_col clean_text d col));;
  mret df.

Definition limpiar_y_transformar_tracks (df_tracks : loc) : Eff heap loc :=
  df ← copy df_tracks;
  mutate df drop_duplicates;;
  mutate df (λ d, update_col (fillna_str (py "Unknown Track")) d "track_name");;
  mutate df (λ d, update_col (fillna_str (py "Unknown Artist")) d "artist_name");;
  d ← deref df;
  let numeric_columns := select_dtypes is_number d in
  for_each numeric_columns
    (λ col, mutate df (λ d, update_col suppress_outliers d col));;
  d ← deref df;
  match get_col "popularity" d with
  | Some c =>
      cat ← lift (cut c popularity_bins popularity_labels);
      mutate df (set_col "popularity_category" cat)
  | None => mret tt
  end;;
  mret df.

End Obj.

(** ** The document store and the loader (lines 195-234) *)

(** A value of a document, as [json.loads] returns it. *)
Inductive json :=
| JNull
| JNum (q : Q)
| JStr (s : pystr)
| JBool (b : bool).

(** What line 201 does to a value and the script does not define: the
    number [json.loads] reads back from the text [to_json] writes for a
    float (with the default [double_precision=10], the float at ten
    decimals), and the text of a timestamp under [date_format='iso']. *)
Class JsonEnv := {
  json_float : Q → Q;
  iso_date : Z → pystr;
}.

(** A document: the fields of one row, in column order. *)
Abbreviation record := (list (string * json)).

Section records.
Context `{JsonEnv}.

(** A cell through [to_json] and [json.loads]: a missing value is [null],
    a number is rendered by [json_float], a date by [iso_date], a category
    is its label. *)
Definition json_of_cell (c : cell) : json :=
  match c with
  | CNull => JNull
  | CNum q => JNum (json_float q)
  | CStr s => JStr s
  | CBool b => JBool b
  | CTime t => JStr (iso_date t)
  | CCat l => JStr (py l)
  end.

(** [json.loads(dataframe.to_json(orient='records', date_format='iso'))]:
    one document per row, in row order. *)
Definition to_records (df : DataFrame) : list record :=
  (λ i, (λ nc, (nc.1, json_of_cell (nth i (cells nc.2) CNull))) <$> df)
    <$> seq 0 (nrows df).
End records.

(** A runtime for the closed examples: their numbers are whole numbers,
    which [to_json] writes as they are, and they hold no date. *)
#[export] Instance example_json : JsonEnv := {|
  json_float := λ q, q;
  iso_date := λ _, [];
|}.

(** The interface of the destination: [insert_many(docs, ordered)] and
    [create_index(field, unique)], both on a named collection.  A call
    returns or raises and leaves a new store. *)
Class DocumentStore (S : Type) := {
  insert_many : string → list record → bool → S → result unit * S;
  create_index : string → string → bool → S → result unit * S;
}.

Inductive level := INFO | WARNING | ERROR.

(** What the script logs (the payload each claim needs) and the calls it
    makes to the store, in the order they happen. *)
Inductive event :=
| ELog (lv : level) (msg : string)
| EWriteErrors (errs : list write_error)  (* the warning of line 219 *)
| EInsertMany (collection : string) (batch : list record)
| ECreateIndex (collection field : string) (unique : bool)
| EReadHead
| EReadChunks
| EReadWholeFile
| EListCollections
| ECountDocuments (collection : string).

Record world (S : Type) := World { db : S; trace : list event }.
Arguments World {S} db trace.
Arguments db {S} w.
Arguments trace {S} w.

(** Python's [records[start:stop]] for [0 <= start <= stop]. *)
Definition slice {A} (l : list A) (start stop : nat) : list A :=
  take (stop - start) (drop start l).

Section loader.
Context {S : Type} `{DocumentStore S} `{JsonEnv}.

(** The state of a run: the store ([db] in the script) and the trace. *)
Definition emit (e : event) : Eff (world S) unit :=
  λ w, (Ok tt, World (db w) (trace w ++ [e])).

Definition logger (lv : level) (msg : string) : Eff (world S) unit :=
  emit (ELog lv msg).

(** [collection.insert_many(batch, ordered=False)]. *)
Definition call_insert_many (collection : string) (batch : list record)
  : Eff (world S) unit := λ w,
  let '(r, db') := insert_many collection batch false (db w) in
  (r, World db' (trace w ++ [EInsertMany collection batch])).

Definition call_create_index (collection field : string) (unique : bool)
  : Eff (world S) unit := λ w,
  let '(r, db') := create_index collection field unique (db w) in
  (r, World db' (trace w ++ [ECreateIndex collection field unique])).

(** The body of the loop of lines 209-219. *)
Definition cargar_lote (collection_name : string) (records : list record)
    (batch_size total_records i : nat) : Eff (world S) unit :=
  let start_idx := i * batch_size in
  let end_idx := Nat.min ((i + 1) * batch_size) total_records in
  let batch := slice records start_idx end_idx in
  match batch with
  | [] => mret tt
  | _ =>
      try_except (call_insert_many collection_name batch)
        (λ e, match e with
              | BulkWriteError errs => emit (EWriteErrors errs)
              | _ => raise e
              end)
  end.

(** The index declarations of lines 222-228. *)
Definition crear_indices (collection_name : string) : Eff (world S) unit :=
  if String.eqb collection_name "playlists" then
    call_create_index collection_name "id" true;;
    call_create_index collection_name "name" false
  else if String.eqb collection_name "tracks" then
    call_create_index collection_name "id" true;;
    call_create_index collection_name "artist_name" false;;
    call_create_index collection_name "track_name" false
  else mret tt.

Definition cargar_en_mongodb (dataframe : DataFrame)
    (collection_name : string) (batch_size : nat) : Eff (world S) bool :=
  try_except
    (let records := to_records dataframe in
     let total_records := length records in
     logger INFO "Cargando registros";;
     num_batches ←
       (if (batch_size =? 0)%nat then raise ZeroDivisionError
        else mret ((total_records + batch_size - 1) / batch_size));
     for_each (seq 0 num_batches)
       (cargar_lote collection_name records batch_size total_records);;
     crear_indices collection_name;;
     logger INFO "Datos cargados correctamente";;
     mret true)
    (λ e, logger ERROR "Error al cargar datos en MongoDB";; raise e).

(** ** The per-file driver (lines 236-306) *)

(** What reading one CSV file gives: the result of each [read_csv]
    call the driver can make.  A chunk reader yields its chunks and
    then ends, normally or by raising. *)
Record csv_source := CsvSource {
  read_head : result DataFrame;
  chunks_skip_bad_lines : result (list DataFrame * option exn);
  chunks_error_bad_lines : result (list DataFrame * option exn);
  read_python_engine : result DataFrame;
}.

(** Lines 254-261: the chunk reader, with the parameter names of recent
    pandas first and, on [TypeError], those of old pandas. *)
Definition open_chunks (src : csv_source)
  : Eff (world S) (list DataFrame * option exn) :=
  try_except
    (emit EReadChunks;;
     chunks ← lift (chunks_skip_bad_lines src);
     logger INFO "Usando on_bad_lines=skip";;
     mret chunks)
    (λ e, match e with
          | TypeError =>
              emit EReadChunks;;
              chunks ← lift (chunks_error_bad_lines src);
              logger INFO "Usando error_bad_lines=False";;
              mret chunks
          | _ => raise e
          end).

(** The loop of lines 266-282 over the chunks already yielded. *)
Fixpoint procesar_chunks (collection_name : string)
    (funcion_transformacion : DataFrame → result DataFrame)
    (chunks : list DataFrame) (total_filas_procesadas : nat)
  : Eff (world S) nat :=
  match chunks with
  | [] => mret total_filas_procesadas
  | chunk :: rest =>
      logger INFO "Procesando chunk";;
      let filas_en_chunk := nrows chunk in
      chunk_transformado ← lift (funcion_transformacion chunk);
      cargar_en_mongodb chunk_transformado collection_name 1000;;
      logger INFO "Chunk procesado";;
      procesar_chunks collection_name funcion_transformacion rest
        (total_filas_procesadas + filas_en_chunk)
  end.

(** The body of the outer [try] (lines 244-285): the chunked path. *)
Definition metodo_principal (src : csv_source) (collection_name : string)
    (funcion_transformacion : DataFrame → result DataFrame)
  : Eff (world S) bool :=
  logger INFO "Analizando la estructura del CSV";;
  emit EReadHead;;
  sample_data ← lift (read_head src);
  logger INFO "Estructura detectada";;
  logger INFO "Numero de columnas detectadas";;
  chunks ← open_chunks src;
  procesar_chunks collection_name funcion_transformacion chunks.1 0;;
  match chunks.2 with
  | Some e => raise e
  | None => logger INFO "Archivo procesado completamente";; mret true
  end.

(** The body of the inner [try] of the handler (lines 292-303): the
    whole-file path. *)
Definition metodo_alternativo (src : csv_source) (collection_name : string)
    (funcion_transformacion : DataFrame → result DataFrame)
  : Eff (world S) bool :=
  emit EReadWholeFile;;
  df ← lift (read_python_engine src);
  logger INFO "Lectura alternativa exitosa";;
  df_transformado ← lift (funcion_transformacion df);
  cargar_en_mongodb df_transformado collection_name 1000;;
  logger INFO "Archivo procesado con metodo alternativo";;
  mret true.

(** Lines 236-306.  Both handlers are [except Exception]: they catch
    whatever the block raised. *)
Definition procesar_archivo_csv (src : csv_source) (collection_name : string)
    (funcion_transformacion : DataFrame → result DataFrame)
  : Eff (world S) bool :=
  logger INFO "Procesando archivo";;
  try_except
    (metodo_principal src collection_name funcion_transformacion)
    (λ e,
      logger ERROR "Error al procesar el archivo";;
      logger INFO "Intentando metodo alternativo de lectura";;
      try_except
        (metodo_alternativo src collection_name funcion_transformacion)
        (λ e2, logger ERROR "Ambos metodos de lectura fallaron";; raise e2)).
End loader.

(** ** The pipeline (lines 308-377) *)

(** [df.dropna(how='all')], the transform of a file that is neither of
    playlists nor of tracks: the rows that hold a value in some column,
    as a new frame. *)
Definition has_value (r : row) : bool :=
  existsb (λ x, match x with CNull => false | _ => true end) r.

Definition dropna_all (df : DataFrame) : DataFrame :=
  let keep := has_value <$> rows df in
  prod_map id (col_select keep) <$> df.

(** [archivo.split('.')[0]]: the name up to its first dot. *)
Fixpoint before_dot (s : string) : string :=
  match s with
  | EmptyString => EmptyString
  | String c s' =>
      if String.eqb (String c EmptyString) "." then EmptyString
      else String c (before_dot s')
  end.

(** The two read-only calls of the final summary. *)
Class StoreSummary (S : Type) := {
  list_collection_names : S → result (list string);
  count_documents : string → S → result nat;
}.

(** A name made of ASCII characters only. *)
Definition ascii_name (s : string) : bool :=
  forallb (λ c, (Ascii.nat_of_ascii c <? 128)%nat) (String.list_ascii_of_string s).

(** [str.lower] on a file name.  Python lowers by the Unicode tables:
    on an ASCII name this is [lower]; outside ASCII a character can lower
    to an ASCII letter (the Kelvin sign lowers to [k]), so the function
    is a parameter. *)
Class StrLower := {
  str_lower : string → string;
  str_lower_ascii : ∀ s, ascii_name s = true → str_lower s = lower s;
}.

(** The lowering of the closed examples, whose file names are ASCII. *)
#[export] Instance example_lower : StrLower := {|
  str_lower := lower;
  str_lower_ascii := λ _ _, eq_refl;
|}.

(** What [ejecutar_etl] gets from outside: whether the Kaggle client, the
    download and the connection return or raise, the names of the files
    the download leaves in [./data], and what reading each of them gives.
    The three steps are not modelled further: an exception of theirs is
    only logged by [ejecutar_etl], whatever it is, and their own log
    lines are not in the trace. *)
Record pasos := Pasos {
  kaggle_api : result unit;
  archivos_descargados : result (list string);
  conexion : result unit;
  archivo_csv : string → csv_source;
}.

Section pipeline.
Context {S : Type} `{DocumentStore S} `{StoreSummary S} `{PyEnv} `{JsonEnv}
  `{StrLower}.

(** The body of the loop over the files (lines 336-361).  The collection
    names the files give are names pymongo accepts (for a name it
    refuses, [db[collection_name]] raises at the head of the loader). *)
Definition procesar_archivo (env : pasos) (archivo : string)
  : Eff (world S) unit :=
  let ruta_completa := archivo_csv env archivo in
  if contains "playlist" (str_lower archivo) then
    procesar_archivo_csv ruta_completa "playlists"
      (λ df, Ok (limpiar_y_transformar_playlists df));;
    mret tt
  else if contains "track" (str_lower archivo) then
    procesar_archivo_csv ruta_completa "tracks" limpiar_y_transformar_tracks;;
    mret tt
  else
    logger INFO "Archivo no reconocido";;
    procesar_archivo_csv ruta_completa (before_dot archivo)
      (λ df, Ok (dropna_all df));;
    mret tt.

Definition call_list_collection_names : Eff (world S) (list string) := λ w,
  (list_collection_names (db w), World (db w) (trace w ++ [EListCollections])).

Definition call_count_documents (collection : string) : Eff (world S) nat :=
  λ w, (count_documents collection (db w),
        World (db w) (trace w ++ [ECountDocuments collection])).

(** Lines 369-372. *)
Definition resumen : Eff (world S) unit :=
  colecciones ← call_list_collection_names;
  for_each colecciones
    (λ col, count ← call_count_documents col;
            logger INFO "Coleccion").

(** Lines 308-377.  The calls to [os.getcwd] and [load_dotenv] are taken
    to return.  The handler is [except Exception]: it catches whatever
    the block raised and returns [False]. *)
Definition ejecutar_etl (env : pasos) : Eff (world S) bool :=
  logger INFO "Iniciando proceso ETL";;
  try_except
    (logger INFO "Directorio actual";;
     logger INFO "KAGGLE_USERNAME";;
     logger INFO "KAGGLE_KEY";;
     logger INFO "MONGODB_CONNECTION_STRING";;
     lift (kaggle_api env);;
     archivos ← lift (archivos_descargados env);
     lift (conexion env);;
     for_each archivos (procesar_archivo env);;
     logger INFO "Proceso ETL completado exitosamente";;
     resumen;;
     mret true)
    (λ e, logger ERROR "Error en el proceso ETL";; mret false).

(** The collection and the transform the name of a file selects. *)
Definition destino (archivo : string)
  : string * (DataFrame → result DataFrame) :=
  if contains "playlist" (str_lower archivo) then
    ("playlists", λ df, Ok (limpiar_y_transformar_playlists df))
  else if contains "track" (str_lower archivo) then
    ("tracks", limpiar_y_transformar_tracks)
  else (before_dot archivo, λ df, Ok (dropna_all df)).
End pipeline.

(** ** Reading a run *)

(** The sub-batches the loop of the loader cuts, in loop order. *)
Definition lotes (records : list record) (batch_size : nat)
  : list (list record) :=
  let total_records := length records in
  let num_batches := (total_records + batch_size - 1) / batch_size in
  filter (λ batch, batch ≠ [])
    ((λ i, slice records (i * batch_size)
             (Nat.min ((i + 1) * batch_size) total_records))
       <$> seq 0 num_batches).

(** The batches passed to [insert_many] and the write errors reported in
    warnings, as a trace shows them. *)
Definition inserted_batches (t : list event) : list (list record) :=
  omap (λ e, match e with EInsertMany _ b => Some b | _ => None end) t.

Definition warnings (t : list event) : list (list write_error) :=
  omap (λ e, match e with EWriteErrors errs => Some errs | _ => None end) t.

(** The lines a trace logs, other than the warnings of line 219. *)
Definition log_lines (t : list event) : list (level * string) :=
  omap (λ e, match e with ELog lv msg => Some (lv, msg) | _ => None end) t.

(** The rejected documents a trace reports, over all its warnings. *)
Definition reported_failures (t : list event) : list write_error :=
  concat (warnings t).

(** Whether the whole-file read of the fallback path was made. *)
Definition fallback_taken (t : list event) : bool :=
  existsb (λ e, match e with EReadWholeFile => true | _ => false end) t.

(** A computation that never makes the whole-file read of the fallback. *)
Definition quiet (S : Type) {A} (m : Eff (world S) A) : Prop :=
  ∀ w, fallback_taken (trace (m w).2) = fallback_taken (trace w).

(** [w'] continues [w] on a store that stays [good]: the store is still
    good, and the trace grew by the writes [bs] and the warnings [ws]. *)
Definition continues_on {S} (good : S → Prop) (w w' : world S)
    (bs : list (list record))
    (ws : list (list write_error)) : Prop :=
  good (db w') ∧
  inserted_batches (trace w') = inserted_batches (trace w) ++ bs ∧
  warnings (trace w') = warnings (trace w) ++ ws.

(** The claim about partial failures, in its own words: every sub-batch
    reaches the store, each on the store the previous one left, whatever
    documents the store rejects; the rejections are collected. *)
Fixpoint write_every_batch {S} `{DocumentStore S} (collection : string)
    (batches : list (list record)) (s : S) : S * list (list write_error) :=
  match batches with
  | [] => (s, [])
  | b :: bs =>
      let '(r, s') := insert_many collection b false s in
      let '(s'', errss) := write_every_batch collection bs s' in
      match r with
      | Raise (BulkWriteError errs) => (s'', errs :: errss)
      | _ => (s'', errss)
      end
  end.

(** The index declarations a trace shows: collection, field, unique. *)
Definition created_indexes (t : list event) : list (string * string * bool) :=
  omap (λ e, match e with ECreateIndex c f u => Some (c, f, u) | _ => None end) t.

(** A computation that adds nothing to what [view] shows of the trace. *)
Definition unseen_by {S A X} (view : list event → X) (m : Eff (world S) A)
  : Prop :=
  ∀ w, view (trace (m w).2) = view (trace w).

(** The index declarations of lines 222-228, as a list. *)
Definition indices_de (collection_name : string)
  : list (string * string * bool) :=
  if String.eqb collection_name "playlists" then
    [(collection_name, "id", true); (collection_name, "name", false)]
  else if String.eqb collection_name "tracks" then
    [(collection_name, "id", true); (collection_name, "artist_name", false);
     (collection_name, "track_name", false)]
  else [].

(** A computation that keeps the trace it starts from and adds only
    events that satisfy [P]. *)
Definition only_adds {S A} (P : event → Prop) (m : Eff (world S) A) : Prop :=
  ∀ w, ∃ t, trace (m w).2 = trace w ++ t ∧ Forall P t.

(** An event that is no write and no index declaration, or one on one of
    the collections [cs]. *)
Definition calls_among (cs : list string) (e : event) : Prop :=
  match e with
  | EInsertMany c _ | ECreateIndex c _ _ => c ∈ cs
  | _ => True
  end.

(** An event of the driver on the collection [c]: a log line, a read of
    the file, or a write or an index declaration on [c]. *)
Definition driver_event (c : string) (e : event) : Prop :=
  match e with
  | EInsertMany c' _ | ECreateIndex c' _ _ => c' = c
  | EListCollections | ECountDocuments _ => False
  | _ => True
  end.



(** ** A simulated document store

    Enough of MongoDB to run the scenarios: documents per collection in
    insertion order, a unique index on [id] per collection, and a script
    of outages (one entry per coming [insert_many] call, [true] when the
    server cannot be reached for that call). *)
Record mongo := Mongo {
  stored : list (string * record);
  unique_id : list string;
  outages : list bool;
}.

(** [doc.get(k)]: the field, null when the document has none. *)
Fixpoint field (k : string) (doc : record) : json :=
  match doc with
  | [] => JNull
  | (k', v) :: doc' => if String.eqb k' k then v else field k doc'
  end.

(** Equality of two values as a unique index sees it. *)
Definition json_eqb (a b : json) : bool :=
  match a, b with
  | JNull, JNull => true
  | JNum x, JNum y => Qeq_bool x y
  | JStr s, JStr t => bool_decide (s = t)
  | JBool x, JBool y => Bool.eqb x y
  | _, _ => false
  end.

Definition id_taken (collection : string) (doc : record)
    (docs : list (string * record)) : bool :=
  existsb (λ cd, String.eqb cd.1 collection &&
                 json_eqb (field "id" cd.2) (field "id" doc)) docs.

(** An unordered insert: every document is tried; one that repeats an
    [id] under the unique index is rejected with code 11000 and the
    others are stored. *)
Fixpoint insert_unordered (unique : bool) (collection : string) (i : nat)
    (batch : list record) (docs : list (string * record))
  : list (string * record) * list write_error :=
  match batch with
  | [] => (docs, [])
  | doc :: batch' =>
      if unique && id_taken collection doc docs then
        let '(docs', errs) := insert_unordered unique collection (S i) batch' docs in
        (docs', WriteError i 11000%N :: errs)
      else
        insert_unordered unique collection (S i) batch' (docs ++ [(collection, doc)])
  end.

(** An ordered insert: the documents are tried in order up to the first
    one that is rejected; those after it are not tried. *)
Fixpoint insert_ordered (unique : bool) (collection : string) (i : nat)
    (batch : list record) (docs : list (string * record))
  : list (string * record) * list write_error :=
  match batch with
  | [] => (docs, [])
  | doc :: batch' =>
      if unique && id_taken collection doc docs then
        (docs, [WriteError i 11000%N])
      else
        insert_ordered unique collection (S i) batch' (docs ++ [(collection, doc)])
  end.

Fixpoint has_repeated_id (collection : string) (docs : list (string * record))
  : bool :=
  match docs with
  | [] => false
  | (c, doc) :: docs' =>
      (String.eqb c collection && id_taken collection doc docs')
      || has_repeated_id collection docs'
  end.

#[export] Instance mongo_store : DocumentStore mongo := {|
  insert_many collection batch ordered m :=
    match outages m with
    | true :: rest =>
        (Raise ConnectionFailure, Mongo (stored m) (unique_id m) rest)
    | _ =>
        let unique := bool_decide (collection ∈ unique_id m) in
        let '(docs, errs) :=
          if ordered then insert_ordered unique collection 0 batch (stored m)
          else insert_unordered unique collection 0 batch (stored m) in
        (match errs with [] => Ok tt | _ => Raise (BulkWriteError errs) end,
         Mongo docs (unique_id m) (tail (outages m)))
    end;
  create_index collection fld unique m :=
    if unique && String.eqb fld "id" && negb (bool_decide (collection ∈ unique_id m))
    then
      if has_repeated_id collection (stored m) then (Raise OperationFailure, m)
      else (Ok tt, Mongo (stored m) (collection :: unique_id m) (outages m))
    else (Ok tt, m);
|}.

(** The summary calls on the simulated store. *)
#[export] Instance mongo_summary : StoreSummary mongo := {|
  list_collection_names m := Ok (remove_dups (stored m).*1);
  count_documents c m :=
    Ok (length (filter (λ cd, cd.1 = c) (stored m)));
|}.

(** The simulated store is reachable and holds the unique index of the
    collection. *)
Definition mongo_reachable (collection : string) (m : mongo) : Prop :=
  outages m = [] ∧ collection ∈ unique_id m.

(** Documents [{"id": a}, ..., {"id": a + n - 1}] as a one-column batch. *)
Definition ids_frame (a n : nat) : DataFrame :=
  [("id", NumCol ((λ i, Some (inject_Z (Z.of_nat i))) <$> seq a n))].

(** The store of the duplicate-key scenario: the collection [tracks] has
    its unique index and already holds the documents of id 1 and 2. *)
Definition scenario_store : mongo :=
  Mongo [("tracks", [("id", JNum 1%Q)]); ("tracks", [("id", JNum 2%Q)])]
        ["tracks"] [].

(** Two files for the driver's scenarios, both with one chunk of two
    playlists.  [clean_source] reads without any error on every path;
    [broken_source] fails in the chunk reader after the first chunk and
    reads whole with the permissive parser. *)
Definition two_playlists : DataFrame :=
  [("id", NumCol (nums [1; 2]%Q));
   ("name", ObjCol [OStr (py "Chill"); OStr (py "Focus")])].

Definition clean_source : csv_source :=
  CsvSource (Ok two_playlists) (Ok ([two_playlists], None))
            (Ok ([two_playlists], None)) (Ok two_playlists).

Definition broken_source : csv_source :=
  CsvSource (Ok two_playlists) (Ok ([two_playlists], Some ParserError))
            (Ok ([two_playlists], Some ParserError)) (Ok two_playlists).

Definition transformar_playlists (df : DataFrame) : result DataFrame :=
  Ok (@limpiar_y_transformar_playlists example_env df).

(* ================================================================== *)
(** * Part II: properties *)
(* ================================================================== *)

(** ** Order statistics *)

Lemma insert_sorted_elem (x y : Q) (l : list Q) :
  y ∈ insert_sorted x l ↔ y = x ∨ y ∈ l.
Proof.
  induction l as [|z l IH]; simpl.
  - rewrite list_elem_of_singleton, elem_of_nil. tauto.
  - destruct (Qle_bool x z); rewrite !elem_of_cons; [tauto|].
    rewrite IH. tauto.
Qed.

Lemma insert_sorted_length (x : Q) (l : list Q) :
  length (insert_sorted x l) = S (length l).
Proof.
  induction l as [|z l IH]; simpl; [done|].
  destruct (Qle_bool x z); simpl; congruence.
Qed.

Lemma insert_sorted_sorted (x : Q) (l : list Q) :
  StronglySorted Qle l → StronglySorted Qle (insert_sorted x l).
Proof.
  induction 1 as [|z l Hs IH Hz]; simpl.
  - repeat constructor.
  - destruct (Qle_bool x z) eqn:E.
    + apply Qle_bool_iff in E. constructor; [by constructor|].
      constructor; [done|].
      eapply Forall_impl; [exact Hz|]. intros w Hw. simpl in Hw. lra.
    + assert (z <= x)%Q as Hzx.
      { destruct (Qlt_le_dec z x) as [Hlt|Hle]; [lra|].
        apply Qle_bool_iff in Hle. congruence. }
      constructor; [done|].
      apply Forall_forall. intros w Hw.
      apply insert_sorted_elem in Hw as [->|Hw]; [done|].
      by eapply Forall_forall in Hz.
Qed.

Lemma sort_values_elem (x : Q) (l : list Q) : x ∈ sort_values l ↔ x ∈ l.
Proof.
  induction l as [|y l IH]; simpl; [done|].
  rewrite insert_sorted_elem, elem_of_cons, IH. tauto.
Qed.

Lemma sort_values_length (l : list Q) : length (sort_values l) = length l.
Proof.
  induction l as [|y l IH]; simpl; [done|].
  by rewrite insert_sorted_length, IH.
Qed.

Lemma sort_values_sorted (l : list Q) : StronglySorted Qle (sort_values l).
Proof.
  induction l as [|y l IH]; simpl; [constructor|].
  by apply insert_sorted_sorted.
Qed.

Lemma sorted_nth (v : list Q) (i j : nat) :
  StronglySorted Qle v → (i ≤ j)%nat → (j < length v)%nat →
  (nth i v 0 <= nth j v 0)%Q.
Proof.
  intros Hs. revert i j.
  induction Hs as [|z l Hs IH Hz]; intros i j Hij Hj; simpl in *; [lia|].
  destruct i as [|i], j as [|j]; try lia.
  - lra.
  - eapply Forall_forall in Hz; [exact Hz|].
    apply list_elem_of_In, nth_In. lia.
  - apply IH; lia.
Qed.

Lemma nth_elem (v : list Q) (i : nat) :
  (i < length v)%nat → nth i v 0%Q ∈ v.
Proof. intros. by apply list_elem_of_In, nth_In. Qed.

(** The interpolated value lies between the two order statistics. *)
Lemma interpolate_between (v : list Q) (q : Q) :
  StronglySorted Qle v → v ≠ [] → (0 <= q)%Q → (q <= 1)%Q →
  let m := (length v - 1)%nat in
  let lo := Z.to_nat (Qfloor (q * inject_Z (Z.of_nat m))) in
  (lo ≤ m)%nat ∧
  (nth lo v 0 <= interpolate v q)%Q ∧
  (interpolate v q <= nth (Nat.min (lo + 1) m) v 0)%Q.
Proof.
  intros Hs Hne Hq0 Hq1 m lo.
  assert (0 < length v)%nat as Hlen by (destruct v; simpl; [done|lia]).
  set (h := (q * inject_Z (Z.of_nat m))%Q) in *.
  assert (0 <= inject_Z (Z.of_nat m))%Q as Hm.
  { change 0%Q with (inject_Z 0). rewrite <- Zle_Qle. lia. }
  assert (0 <= h)%Q as Hh0 by (unfold h; nra).
  assert (h <= inject_Z (Z.of_nat m))%Q as Hh1 by (unfold h; nra).
  assert (0 ≤ Qfloor h)%Z as Hf0.
  { change 0%Z with (Qfloor (inject_Z 0)) at 1. by apply Qfloor_resp_le. }
  assert (Qfloor h ≤ Z.of_nat m)%Z as Hf1.
  { rewrite <- (Qfloor_Z (Z.of_nat m)). by apply Qfloor_resp_le. }
  assert (lo ≤ m)%nat as Hlo by (unfold lo; lia).
  pose proof (Qfloor_le h) as Hg0.
  pose proof (Qlt_floor h) as Hg1.
  rewrite inject_Z_plus in Hg1. change (inject_Z 1) with 1%Q in Hg1.
  assert (nth lo v 0 <= nth (Nat.min (lo + 1) m) v 0)%Q as Hab.
  { apply sorted_nth; [done|lia|unfold m; lia]. }
  split; [done|].
  unfold interpolate. fold m. fold h. fold lo.
  set (a := nth lo v 0%Q) in *. set (b := nth (Nat.min (lo + 1) m) v 0%Q) in *.
  set (g := (h - inject_Z (Qfloor h))%Q).
  assert (0 <= g)%Q by (unfold g; lra).
  assert (g <= 1)%Q by (unfold g; lra).
  split; nra.
Qed.

(** With three or more values (or one), the upper neighbour of the 5th
    percentile is not above the lower neighbour of the 95th. *)
Lemma percentile_positions (m : nat) :
  m ≠ 1%nat →
  let lo1 := Z.to_nat (Qfloor (0.05 * inject_Z (Z.of_nat m))) in
  let lo3 := Z.to_nat (Qfloor (0.95 * inject_Z (Z.of_nat m))) in
  (Nat.min (lo1 + 1) m ≤ lo3)%nat.
Proof.
  intros Hm. cbn. Z.to_euclidean_division_equations. lia.
Qed.

Lemma dropna_elem (xs : list (option Q)) (v : Q) : v ∈ dropna xs ↔ Some v ∈ xs.
Proof.
  unfold dropna. rewrite list_elem_of_omap. split.
  - intros (x & Hx & Heq). simpl in Heq. by subst.
  - intros Hv. by exists (Some v).
Qed.

Lemma quantile_some (xs : list (option Q)) (q : Q) :
  dropna xs ≠ [] → quantile xs q = Some (interpolate (sort_values (dropna xs)) q).
Proof.
  intros Hne. unfold quantile.
  destruct (sort_values (dropna xs)) eqn:E; [|done].
  apply (f_equal length) in E. rewrite sort_values_length in E.
  destruct (dropna xs); simpl in *; [done|lia].
Qed.

Lemma quantile_none (xs : list (option Q)) (q : Q) :
  dropna xs = [] → quantile xs q = None.
Proof. intros E. unfold quantile. by rewrite E. Qed.

(** Some value of the column lies within the bounds of the outlier step. *)
Lemma bounds_keep_one (xs : list (option Q)) :
  dropna xs ≠ [] →
  ∃ v l u, Some v ∈ xs ∧ lower_bound xs = Some l ∧ upper_bound xs = Some u ∧
           (l <= v)%Q ∧ (v <= u)%Q.
Proof.
  intros Hne. unfold lower_bound, upper_bound.
  rewrite !quantile_some by done. simpl.
  set (v := sort_values (dropna xs)).
  assert (StronglySorted Qle v) as Hs by apply sort_values_sorted.
  assert (length v ≠ 0)%nat as Hlen.
  { unfold v. rewrite sort_values_length. by destruct (dropna xs). }
  assert (v ≠ []) as Hv by (by destruct v).
  assert (∀ i, (i < length v)%nat → Some (nth i v 0%Q) ∈ xs) as Hin.
  { intros i Hi. apply dropna_elem, sort_values_elem. by apply nth_elem. }
  destruct (decide (length v - 1 = 1)%nat) as [Htwo|Hm].
  - (* two values *)
    destruct v as [|a [|b [|? ?]]]; simpl in Htwo; try lia.
    assert (a <= b)%Q as Hab by (by apply (sorted_nth [a; b] 0 1); simpl; try lia).
    exists a. eexists _, _. split; [apply (Hin 0%nat); simpl; lia|].
    split; [done|]. split; [done|].
    unfold interpolate. cbn [length Nat.sub].
    change (Qfloor (0.05 * inject_Z (Z.of_nat 1))) with 0%Z.
    change (Qfloor (0.95 * inject_Z (Z.of_nat 1))) with 0%Z.
    change (inject_Z (Z.of_nat 1)) with 1%Q. change (inject_Z 0) with 0%Q.
    change (Z.to_nat 0) with 0%nat. change ((0 + 1) `min` 1)%nat with 1%nat.
    cbn [nth]. split; lra.
  - (* one value, or at least three *)
    destruct (interpolate_between v 0.05 Hs Hv) as (Hlo1 & Ha1 & Hb1); [lra..|].
    destruct (interpolate_between v 0.95 Hs Hv) as (Hlo3 & Ha3 & Hb3); [lra..|].
    pose proof (percentile_positions (length v - 1) Hm) as Hpos.
    cbv zeta in Hlo1, Ha1, Hb1, Hlo3, Ha3, Hb3, Hpos.
    set (m := (length v - 1)%nat) in *.
    set (lo1 := Z.to_nat (Qfloor (0.05 * inject_Z (Z.of_nat m)))) in *.
    set (lo3 := Z.to_nat (Qfloor (0.95 * inject_Z (Z.of_nat m)))) in *.
    assert (nth (Nat.min (lo1 + 1) m) v 0 <= nth lo3 v 0)%Q as Hmid.
    { apply sorted_nth; [done|done|unfold m in *; lia]. }
    exists (nth (Nat.min (lo1 + 1) m) v 0%Q). eexists _, _.
    split; [apply Hin; unfold m in *; lia|].
    split; [done|]. split; [done|].
    split; lra.
Qed.

(** ** The outlier step on one column *)

Lemma loc_set_nan_fmap (f : option Q → bool) (xs : list (option Q)) :
  loc_set_nan (f <$> xs) xs = (λ x, if f x then None else x) <$> xs.
Proof.
  unfold loc_set_nan. induction xs as [|x xs IH]; csimpl; [done|].
  by rewrite IH.
Qed.

Lemma dropna_nil (xs : list (option Q)) :
  dropna xs = [] ↔ Forall (λ x, x = None) xs.
Proof.
  split.
  - intros E. apply Forall_forall. intros [v|] Hx; [|done].
    apply dropna_elem in Hx. rewrite E in Hx. by apply elem_of_nil in Hx.
  - intros Hall. apply elem_of_nil_inv. intros v Hv.
    apply dropna_elem in Hv. eapply Forall_forall in Hall; [|exact Hv]. done.
Qed.

Lemma median_some (xs : list (option Q)) :
  dropna xs ≠ [] → is_Some (median xs).
Proof.
  intros Hne. unfold median.
  destruct (sort_values (dropna xs)) eqn:E.
  - apply (f_equal length) in E. rewrite sort_values_length in E.
    destruct (dropna xs); simpl in *; [done|lia].
  - destruct (Nat.even _); eauto.
Qed.

Lemma fillna_some (m : Q) (xs : list (option Q)) :
  Forall is_Some (fillna (Some m) xs).
Proof.
  simpl. apply Forall_fmap, Forall_forall. intros [v|] _; simpl; eauto.
Qed.

(** A column with a value: after the step no entry is missing. *)
Lemma suppress_outliers_filled (xs : list (option Q)) (v : Q) :
  Some v ∈ xs →
  ∃ ys, suppress_outliers (NumCol xs) = NumCol ys ∧ Forall is_Some ys.
Proof.
  intros Hv. simpl. eexists; split; [done|].
  assert (dropna xs ≠ []) as Hne.
  { intros E. apply dropna_elem in Hv. rewrite E in Hv.
    by apply elem_of_nil in Hv. }
  destruct (bounds_keep_one xs Hne) as (w & l & u & Hw & Hl & Hu & Hlw & Hwu).
  unfold outlier_mask. rewrite loc_set_nan_fmap.
  set (xs1 := _ <$> xs).
  assert (Some w ∈ xs1) as Hkept.
  { unfold xs1. apply list_elem_of_fmap. exists (Some w). split; [|done].
    rewrite Hl, Hu. simpl.
    apply Qle_bool_iff in Hlw, Hwu. by rewrite Hlw, Hwu. }
  destruct (median_some xs1) as [m Hm].
  { intros E. apply dropna_elem in Hkept. rewrite E in Hkept.
    by apply elem_of_nil in Hkept. }
  rewrite Hm. apply fillna_some.
Qed.

(** A column with no value at all goes through the step unchanged. *)
Lemma suppress_outliers_all_null (xs : list (option Q)) :
  Forall (λ x, x = None) xs → suppress_outliers (NumCol xs) = NumCol xs.
Proof.
  intros Hall. simpl. f_equal.
  assert (dropna xs = []) as E by (by apply dropna_nil).
  unfold outlier_mask, lower_bound, upper_bound.
  rewrite !quantile_none by done. simpl.
  rewrite loc_set_nan_fmap.
  assert ((λ x : option Q, if flt x None || false then None else x) <$> xs = xs)
    as ->.
  { clear E. induction Hall as [|x xs -> _ IH]; csimpl; [done|]. by rewrite IH. }
  unfold median. by rewrite E.
Qed.

(** ** Columns of a frame *)

Lemma get_col_elem (n : string) (c : column) (df : DataFrame) :
  get_col n df = Some c → (n, c) ∈ df.
Proof.
  induction df as [|[m c0] df IH]; simpl; [done|].
  destruct (String.eqb_spec m n) as [->|Hne].
  - intros [= ->]. apply elem_of_cons. by left.
  - intros Hg. apply elem_of_cons. right. by apply IH.
Qed.

Lemma get_col_none (n : string) (df : DataFrame) :
  get_col n df = None ↔ n ∉ columns df.
Proof.
  unfold columns. induction df as [|[m c0] df IH]; csimpl.
  - split; [intros _; apply not_elem_of_nil|done].
  - rewrite not_elem_of_cons. destruct (String.eqb_spec m n) as [->|Hne].
    + split; [done|]. intros [? _]. done.
    + rewrite IH. split; [|tauto]. intros ?. split; [congruence|done].
Qed.

Lemma elem_get_col (n : string) (c : column) (df : DataFrame) :
  NoDup (columns df) → (n, c) ∈ df → get_col n df = Some c.
Proof.
  unfold columns. induction df as [|[m c0] df IH]; csimpl.
  - intros _ Hin. by apply elem_of_nil in Hin.
  - intros [Hm Hnd]%NoDup_cons [Heq|Hin]%elem_of_cons.
    + injection Heq as -> ->. by rewrite String.eqb_refl.
    + destruct (String.eqb_spec m n) as [->|Hne]; [|by apply IH].
      destruct Hm. apply list_elem_of_fmap. by exists (n, c).
Qed.

Lemma get_set_col (n n' : string) (c : column) (df : DataFrame) :
  get_col n (set_col n' c df) =
  if decide (n' = n) then Some c else get_col n df.
Proof.
  induction df as [|[m c0] df IH]; simpl.
  - destruct (String.eqb_spec n' n); by case_decide.
  - destruct (String.eqb_spec m n') as [->|Hmn']; simpl.
    + destruct (String.eqb_spec n' n); by case_decide.
    + rewrite IH. destruct (String.eqb_spec m n) as [->|Hmn]; [|done].
      by case_decide.
Qed.

Lemma columns_set_col (n : string) (c : column) (df : DataFrame) :
  n ∈ columns df → columns (set_col n c df) = columns df.
Proof.
  unfold columns. induction df as [|[m c0] df IH]; csimpl.
  - intros Hin. by apply elem_of_nil in Hin.
  - intros Hin. destruct (String.eqb_spec m n) as [->|Hne]; csimpl; [done|].
    f_equal. apply IH. apply elem_of_cons in Hin as [?|?]; [congruence|done].
Qed.

Lemma get_update_col (f : column → column) (df : DataFrame) (col n : string) :
  get_col n (update_col f df col) =
  if decide (col = n) then f <$> get_col n df else get_col n df.
Proof.
  unfold update_col. destruct (get_col col df) as [c|] eqn:E.
  - rewrite get_set_col. case_decide; [|done]. subst. by rewrite E.
  - case_decide; [|done]. subst. by rewrite E.
Qed.

Lemma columns_update_col (f : column → column) (df : DataFrame) (col : string) :
  columns (update_col f df col) = columns df.
Proof.
  unfold update_col. destruct (get_col col df) as [c|] eqn:E; [|done].
  apply columns_set_col. apply get_col_elem in E.
  unfold columns. apply list_elem_of_fmap. by exists (col, c).
Qed.

(** A loop that rewrites the named columns one after the other: each
    named column is rewritten once, the others are not touched. *)
Lemma get_fold_update (f : column → column) (ns : list string)
    (df : DataFrame) (n : string) :
  NoDup ns →
  get_col n (fold_left (update_col f) ns df) =
  if decide (n ∈ ns) then f <$> get_col n df else get_col n df.
Proof.
  intros Hnd. revert df.
  induction Hnd as [|m ns Hm Hnd IH]; intros df; cbn [fold_left].
  - case_decide as Hin; [by apply elem_of_nil in Hin|done].
  - rewrite IH, get_update_col.
    destruct (decide (m = n)) as [->|Hne].
    + rewrite decide_False by done. rewrite decide_True; [done|].
      apply elem_of_cons. by left.
    + destruct (decide (n ∈ ns)) as [Hin|Hin].
      * rewrite decide_True; [done|]. apply elem_of_cons. by right.
      * rewrite decide_False; [done|].
        rewrite not_elem_of_cons. split; [congruence|done].
Qed.

Lemma columns_fold_update (f : column → column) (ns : list string)
    (df : DataFrame) :
  columns (fold_left (update_col f) ns df) = columns df.
Proof.
  revert df. induction ns as [|m ns IH]; intros df; simpl; [done|].
  by rewrite IH, columns_update_col.
Qed.

Lemma select_dtypes_elem (p : column → bool) (df : DataFrame) (n : string) :
  NoDup (columns df) →
  n ∈ select_dtypes p df ↔ ∃ c, get_col n df = Some c ∧ p c = true.
Proof.
  intros Hnd. unfold select_dtypes. rewrite list_elem_of_fmap. split.
  - intros ([m c] & Heq & Hin). apply list_elem_of_filter in Hin as [Hp Hin].
    simpl in *. subst n. exists c. split; [by apply elem_get_col|done].
  - intros (c & Hg & Hp). exists (n, c). split; [done|].
    apply list_elem_of_filter. split; [done|]. by apply get_col_elem.
Qed.

Lemma select_dtypes_NoDup (p : column → bool) (df : DataFrame) :
  NoDup (columns df) → NoDup (select_dtypes p df).
Proof.
  intros Hnd. unfold select_dtypes. eapply sublist_NoDup; [exact Hnd|].
  unfold columns. apply fmap_sublist, sublist_filter.
Qed.

(** A loop over the columns of a dtype rewrites every column [f] changes. *)
Lemma get_fold_update_dtype (p : column → bool) (f : column → column)
    (df : DataFrame) (n : string) :
  NoDup (columns df) → (∀ c, p c = false → f c = c) →
  get_col n (fold_left (update_col f) (select_dtypes p df) df) =
  f <$> get_col n df.
Proof.
  intros Hnd Hf. rewrite get_fold_update by (by apply select_dtypes_NoDup).
  destruct (get_col n df) as [c|] eqn:E; [|by case_decide].
  case_decide as Hin; [done|]. simpl. f_equal. symmetry. apply Hf.
  destruct (p c) eqn:Hp; [|done]. destruct Hin.
  apply select_dtypes_elem; eauto.
Qed.

(** A loop over the columns whose name passes a test. *)
Lemma get_fold_update_named (P : string → bool) (f : column → column)
    (df : DataFrame) (n : string) :
  NoDup (columns df) →
  get_col n (fold_left (update_col f) (filter (λ col, P col = true) (columns df)) df) =
  (if P n then f else id) <$> get_col n df.
Proof.
  intros Hnd. rewrite get_fold_update by (by apply NoDup_filter).
  destruct (get_col n df) as [c|] eqn:E.
  - case_decide as Hin.
    + apply list_elem_of_filter in Hin as [-> _]. done.
    + destruct (P n) eqn:HP; [|done]. destruct Hin.
      apply list_elem_of_filter. split; [done|].
      apply get_col_elem in E. unfold columns.
      apply list_elem_of_fmap. by exists (n, c).
  - case_decide; by destruct (P n).
Qed.

(** ** Rows and duplicate removal *)

Lemma cells_length (c : column) : length (cells c) = col_len c.
Proof. destruct c; simpl; by rewrite length_fmap. Qed.

Lemma mask_select_fmap {A B} (f : A → B) (mask : list bool) (xs : list A) :
  mask_select mask (f <$> xs) = f <$> mask_select mask xs.
Proof.
  revert xs. induction mask as [|b mask IH]; intros [|x xs]; csimpl; try done.
  destruct b; csimpl; by rewrite IH.
Qed.

Lemma cells_col_select (mask : list bool) (c : column) :
  cells (col_select mask c) = mask_select mask (cells c).
Proof. destruct c; simpl; by rewrite mask_select_fmap. Qed.

Lemma mask_select_elem {A} (mask : list bool) (xs : list A) (x : A) :
  x ∈ mask_select mask xs → x ∈ xs.
Proof.
  revert xs. induction mask as [|b mask IH]; intros [|y xs]; simpl;
    try (intros Hx; by apply elem_of_nil in Hx).
  destruct b; rewrite ?elem_of_cons; intros Hx.
  - destruct Hx as [->|Hx]; [by left|right; by apply IH].
  - right. by apply IH.
Qed.

Lemma rows_transpose (df : DataFrame) :
  rows df = transpose (nrows df) ((λ nc, cells nc.2) <$> df).
Proof.
  unfold rows, transpose, row_at. apply list_fmap_ext. intros _ i _.
  by rewrite <- list_fmap_compose.
Qed.

Lemma transpose_S (n : nat) (css : list (list cell)) :
  transpose (S n) css =
  ((λ cs, nth 0 cs CNull) <$> css) :: transpose n (tail <$> css).
Proof.
  unfold transpose. cbn [seq]. csimpl. f_equal.
  rewrite <- fmap_S_seq, <- list_fmap_compose.
  apply list_fmap_ext. intros _ i _. simpl.
  rewrite <- list_fmap_compose. apply list_fmap_ext. intros _ cs _. simpl.
  destruct cs; simpl; [by destruct i|done].
Qed.

Lemma mask_select_length {A} (mask : list bool) (xs : list A) :
  length xs = length mask → length (mask_select mask xs) = count_true mask.
Proof.
  unfold count_true. revert xs.
  induction mask as [|b mask IH]; intros [|x xs]; simpl; try done.
  intros [= Hlen]. destruct b.
  - rewrite filter_cons_True by done. simpl. by rewrite IH.
  - rewrite filter_cons_False by done. by rewrite IH.
Qed.

Lemma transpose_mask_select (mask : list bool) (css : list (list cell)) :
  Forall (λ cs, length cs = length mask) css →
  transpose (count_true mask) (mask_select mask <$> css) =
  mask_select mask (transpose (length mask) css).
Proof.
  revert css. induction mask as [|b mask IH]; intros css Hlen.
  - done.
  - cbn [length]. rewrite transpose_S.
    assert (Forall (λ cs, length cs = length mask) (tail <$> css)) as Htl.
    { apply Forall_fmap. eapply Forall_impl; [exact Hlen|].
      intros [|x cs]; simpl; [done|]. by intros [= ->]. }
    assert (mask_select (b :: mask) <$> css =
            (λ cs, if b then nth 0 cs CNull :: mask_select mask (tail cs)
                   else mask_select mask (tail cs)) <$> css) as ->.
    { apply Forall_fmap_ext. eapply Forall_impl; [exact Hlen|].
      intros [|x cs]; simpl; [done|]. done. }
    destruct b; simpl.
    + unfold count_true. rewrite filter_cons_True by done. cbn [length].
      fold (count_true mask). rewrite transpose_S. f_equal.
      * rewrite <- list_fmap_compose. by apply list_fmap_ext.
      * rewrite <- IH by done. f_equal.
        rewrite <- !list_fmap_compose. by apply list_fmap_ext.
    + unfold count_true. rewrite filter_cons_False by done.
      fold (count_true mask). rewrite <- IH by done. f_equal.
      by rewrite <- !list_fmap_compose.
Qed.

Lemma duplicated_from_length (seen rs : list row) :
  length (duplicated_from seen rs) = length rs.
Proof.
  revert seen. induction rs as [|r rs IH]; intros seen; simpl; [done|].
  by rewrite IH.
Qed.

Lemma rows_length (df : DataFrame) : length (rows df) = nrows df.
Proof. unfold rows. by rewrite length_fmap, length_seq. Qed.

(** Selecting rows column by column selects the rows of the frame. *)
Lemma rows_select (mask : list bool) (df : DataFrame) :
  wf df → length mask = nrows df →
  rows (prod_map id (col_select mask) <$> df) = mask_select mask (rows df).
Proof.
  intros [_ Hlen] Hmask. rewrite !rows_transpose.
  rewrite <- Hmask, <- transpose_mask_select.
  - f_equal.
    + destruct df as [|[n c] df]; simpl; [by destruct mask|].
      rewrite <- cells_length, cells_col_select.
      apply mask_select_length. rewrite cells_length.
      apply Forall_cons_1 in Hlen as [Hc _]. simpl in *. lia.
    + rewrite <- !list_fmap_compose. apply list_fmap_ext.
      intros _ [n c] _. simpl. apply cells_col_select.
  - apply Forall_fmap. eapply Forall_impl; [exact Hlen|].
    intros [n c] Hc. simpl in *. rewrite cells_length. lia.
Qed.

Lemma cell_eqb_refl (a : cell) : cell_eqb a a = true.
Proof.
  destruct a; simpl; try done; try (by apply bool_decide_eq_true_2).
  - apply Qeq_bool_refl.
  - by destruct b.
Qed.

Lemma cell_eqb_trans (a b c : cell) :
  cell_eqb a b = true → cell_eqb b c = true → cell_eqb a c = true.
Proof.
  destruct a as [|x|s|x|t|l], b as [|y|s'|y|t'|l'], c as [|z|s''|z|t''|l''];
    simpl; try done;
    rewrite ?Qeq_bool_iff, ?bool_decide_eq_true;
    try congruence;
    repeat match goal with b : bool |- _ => destruct b end;
    simpl; try done; intros; lra.
Qed.

Lemma row_eqb_refl (r : row) : row_eqb r r = true.
Proof. induction r as [|a r IH]; simpl; [done|]. by rewrite cell_eqb_refl. Qed.

Lemma row_eqb_trans (r s t : row) :
  row_eqb r s = true → row_eqb s t = true → row_eqb r t = true.
Proof.
  revert s t. induction r as [|a r IH]; intros [|b s] [|c t]; simpl; try done.
  rewrite !andb_true_iff. intros [Hab Hrs] [Hbc Hst]. split.
  - by eapply cell_eqb_trans.
  - by eapply IH.
Qed.

Lemma row_eqb_lookup (r s : row) (k : nat) (x y : cell) :
  row_eqb r s = true → r !! k = Some x → s !! k = Some y → cell_eqb x y = true.
Proof.
  revert s k. induction r as [|a r IH]; intros [|b s] k; simpl; try done.
  rewrite andb_true_iff. intros [Hab Hrs].
  destruct k as [|k]; simpl; [by intros [= <-] [= <-]|]. by apply IH.
Qed.

Lemma existsb_elem {A} (f : A → bool) (l : list A) :
  existsb f l = true ↔ ∃ x, x ∈ l ∧ f x = true.
Proof.
  rewrite existsb_exists. split; intros (x & Hx & Hf); exists x;
    (split; [by apply list_elem_of_In|done]).
Qed.

(** The mask of [duplicated] marks exactly the rows that are not first
    occurrences. *)
Lemma duplicated_from_spec (pre seen rs : list row) :
  (∀ r, r ∈ seen ↔ r ∈ pre) →
  negb <$> duplicated_from seen rs =
  is_first_occurrence (pre ++ rs) <$> seq (length pre) (length rs).
Proof.
  revert pre seen. induction rs as [|r rs IH]; intros pre seen Hseen; [done|].
  cbn [duplicated_from length seq]. csimpl. f_equal.
  - unfold is_first_occurrence.
    assert (nth (length pre) (pre ++ r :: rs) [] = r) as ->.
    { rewrite app_nth2 by lia. by rewrite Nat.sub_diag. }
    destruct (existsb (row_eqb r) seen) eqn:E; simpl; symmetry.
    + apply existsb_elem in E as (x & Hx & Hrx).
      apply Hseen, list_elem_of_In, (In_nth _ _ []) in Hx as (j & Hj & Hnth).
      apply not_true_is_false. intros Hall.
      rewrite forallb_forall in Hall. specialize (Hall j).
      rewrite app_nth1 in Hall by lia. rewrite Hnth, Hrx in Hall.
      simpl in Hall. assert (false = true); [|done].
      apply Hall, in_seq. lia.
    + apply forallb_forall. intros j [_ Hj]%in_seq. simpl in Hj.
      rewrite app_nth1 by done.
      destruct (row_eqb r (nth j pre [])) eqn:Hrj; [|done].
      assert (existsb (row_eqb r) seen = true) as E'; [|congruence].
      apply existsb_elem. exists (nth j pre []). split; [|done].
      by apply Hseen, list_elem_of_In, nth_In.
  - specialize (IH (pre ++ [r]) (r :: seen)).
    rewrite <- app_assoc, length_app in IH. simpl in IH.
    rewrite Nat.add_1_r in IH. apply IH.
    intros x. rewrite elem_of_cons, elem_of_app, list_elem_of_singleton, Hseen.
    tauto.
Qed.

(** Every row has an equal row among those seen before or those kept. *)
Lemma duplicated_from_repr (seen rs : list row) (r : row) :
  r ∈ rs →
  ∃ r', row_eqb r r' = true ∧
        (r' ∈ seen ∨ r' ∈ mask_select (negb <$> duplicated_from seen rs) rs).
Proof.
  revert seen. induction rs as [|r0 rs IH]; intros seen Hr.
  { by apply elem_of_nil in Hr. }
  cbn [duplicated_from]. csimpl.
  assert (∃ r', row_eqb r0 r' = true ∧
            (r' ∈ seen ∨
             r' ∈ (if negb (existsb (row_eqb r0) seen)
                   then r0 :: mask_select (negb <$> duplicated_from (r0 :: seen) rs) rs
                   else mask_select (negb <$> duplicated_from (r0 :: seen) rs) rs)))
    as Hhead.
  { destruct (existsb (row_eqb r0) seen) eqn:E; simpl.
    - apply existsb_elem in E as (x & Hx & Hrx). exists x. auto.
    - exists r0. split; [apply row_eqb_refl|]. right. apply elem_of_cons. auto. }
  apply elem_of_cons in Hr as [->|Hr]; [done|].
  destruct (IH (r0 :: seen) Hr) as (r' & Hrr' & [Hin|Hin]).
  - apply elem_of_cons in Hin as [->|Hin].
    + destruct Hhead as (r'' & H0 & Hor). exists r''.
      split; [by eapply row_eqb_trans|done].
    + exists r'. auto.
  - exists r'. split; [done|]. right.
    destruct (negb _); [apply elem_of_cons|]; auto.
Qed.

Lemma duplicated_length (df : DataFrame) : length (duplicated df) = nrows df.
Proof. unfold duplicated. by rewrite duplicated_from_length, rows_length. Qed.

Lemma rows_drop_duplicates (df : DataFrame) :
  wf df →
  rows (drop_duplicates df) = mask_select (negb <$> duplicated df) (rows df).
Proof.
  intros Hwf. unfold drop_duplicates. apply rows_select; [done|].
  by rewrite length_fmap, duplicated_length.
Qed.

Lemma get_col_fmap (f : column → column) (n : string) (df : DataFrame) :
  get_col n (prod_map id f <$> df) = f <$> get_col n df.
Proof.
  induction df as [|[m c] df IH]; csimpl; [done|].
  by destruct (String.eqb m n).
Qed.

Lemma columns_fmap (f : column → column) (df : DataFrame) :
  columns (prod_map id f <$> df) = columns df.
Proof.
  unfold columns. rewrite <- list_fmap_compose. by apply list_fmap_ext; intros ? [] ?.
Qed.

Lemma row_at_lookup (df : DataFrame) (i k : nat) (n : string) (c : column) :
  df !! k = Some (n, c) → row_at df i !! k = Some (nth i (cells c) CNull).
Proof. intros Hk. unfold row_at. by rewrite list_lookup_fmap, Hk. Qed.

Lemma rows_elem (df : DataFrame) (r : row) :
  r ∈ rows df ↔ ∃ i, (i < nrows df)%nat ∧ r = row_at df i.
Proof.
  unfold rows. rewrite list_elem_of_fmap. split.
  - intros (i & -> & Hi). exists i. split; [|done].
    apply list_elem_of_In, in_seq in Hi. lia.
  - intros (i & Hi & ->). exists i. split; [done|].
    apply list_elem_of_In, in_seq. lia.
Qed.

(** Duplicate removal keeps, in every numeric column that holds a value,
    at least one value. *)
Lemma drop_duplicates_keeps_value (df : DataFrame) (n : string)
    (xs : list (option Q)) (v : Q) :
  wf df → get_col n df = Some (NumCol xs) → Some v ∈ xs →
  ∃ v', Some v' ∈ mask_select (negb <$> duplicated df) xs.
Proof.
  intros Hwf Hg Hv.
  pose proof Hwf as [_ Hlen].
  apply get_col_elem in Hg.
  pose proof Hg as Hc. eapply Forall_forall in Hc; [|exact Hlen]. simpl in Hc.
  apply list_elem_of_lookup in Hg as [k Hk].
  apply list_elem_of_lookup in Hv as [i Hi].
  assert (i < nrows df)%nat as Hirows.
  { rewrite <- Hc. by eapply lookup_lt_Some. }
  assert (row_at df i !! k = Some (CNum v)) as Hcell.
  { erewrite row_at_lookup by done. f_equal. simpl.
    rewrite nth_lookup, list_lookup_fmap, Hi. done. }
  destruct (duplicated_from_repr [] (rows df) (row_at df i)) as (r' & Heq & Hr').
  { apply rows_elem. eauto. }
  destruct Hr' as [Hr'|Hr']; [by apply elem_of_nil in Hr'|].
  fold (duplicated df) in Hr'. rewrite <- rows_drop_duplicates in Hr' by done.
  apply rows_elem in Hr' as (j & Hj & ->).
  set (ys := mask_select (negb <$> duplicated df) xs).
  assert (drop_duplicates df !! k = Some (n, NumCol ys)) as Hk'.
  { unfold drop_duplicates. by rewrite list_lookup_fmap, Hk. }
  pose proof (row_at_lookup _ j _ _ _ Hk') as Hcell'.
  pose proof (row_eqb_lookup _ _ _ _ _ Heq Hcell Hcell') as Hcells.
  simpl in Hcells. rewrite nth_lookup, list_lookup_fmap in Hcells.
  destruct (ys !! j) as [[v'|]|] eqn:Hys; simpl in Hcells; try done.
  exists v'. by eapply list_elem_of_lookup_2.
Qed.

(** ** The track transform *)

(** Filling a column with text leaves a column that is still numeric
    afterwards as it was. *)
Lemma get_update_fillna_number (s : pystr) (df : DataFrame) (col n : string)
    (ws : list (option Q)) :
  get_col n (update_col (fillna_str s) df col) = Some (NumCol ws) →
  get_col n df = Some (NumCol ws).
Proof.
  rewrite get_update_col. case_decide; [|done].
  destruct (get_col n df) as [[zs| | | |]|]; simpl; try done.
  destruct (forallb _ zs); [done|]. intros [=].
Qed.

Lemma cut_is_category (c cat : column) (bins : list Q) (labels : list string) :
  cut c bins labels = Ok cat → is_number cat = false.
Proof.
  destruct c; simpl; try (by intros [= <-]); try done.
  destruct (obj_numbers xs); [by intros [= <-]|done].
Qed.

Lemma get_col_popularity_category (df out : DataFrame) (n : string)
    (ys : list (option Q)) :
  add_popularity_category df = Ok out →
  get_col n out = Some (NumCol ys) → get_col n df = Some (NumCol ys).
Proof.
  unfold add_popularity_category.
  destruct (get_col "popularity" df) as [c|]; [|by intros [= <-]].
  destruct (cut c popularity_bins popularity_labels) as [cat|] eqn:Hcut; [|done].
  intros [= <-]. rewrite get_set_col. case_decide; [|done].
  intros [= ->]. by apply cut_is_category in Hcut.
Qed.

(** A numeric column of the output is the outlier step applied to the
    deduplicated input column of that name. *)
Lemma tracks_numeric_column_value (df out : DataFrame) (n : string)
    (xs ys : list (option Q)) :
  wf df →
  limpiar_y_transformar_tracks df = Ok out →
  get_col n df = Some (NumCol xs) →
  get_col n out = Some (NumCol ys) →
  suppress_outliers (NumCol (mask_select (negb <$> duplicated df) xs))
  = NumCol ys.
Proof.
  intros Hwf Hrun Hin Hout.
  unfold limpiar_y_transformar_tracks in Hrun.
  apply (get_col_popularity_category _ _ n ys) in Hrun; [|done]. clear Hout.
  set (df1 := drop_duplicates df) in *.
  set (df2 := update_col _ df1 "track_name") in *.
  set (df3 := update_col _ df2 "artist_name") in *.
  assert (NoDup (columns df3)) as Hnd.
  { unfold df3, df2, df1, drop_duplicates.
    rewrite !columns_update_col, columns_fmap. apply Hwf. }
  set (zs := mask_select (negb <$> duplicated df) xs) in *.
  assert (get_col n df1 = Some (NumCol zs)) as H1.
  { unfold df1, drop_duplicates. by rewrite get_col_fmap, Hin. }
  rewrite get_fold_update in Hrun by (by apply select_dtypes_NoDup).
  destruct (get_col n df3) as [c3|] eqn:H3.
  2:{ by case_decide. }
  destruct (decide (n ∈ select_dtypes is_number df3)) as [Hnum|Hnum].
  - apply select_dtypes_elem in Hnum as (c & Hc & Hnumber); [|done].
    rewrite H3 in Hc. injection Hc as ->.
    destruct c as [ws| | | |]; try done.
    assert (ws = zs) as ->.
    { unfold df3, df2 in H3. do 2 apply get_update_fillna_number in H3.
      congruence. }
    cbn [fmap option_fmap option_map] in Hrun. congruence.
  - injection Hrun as ->. destruct Hnum.
    apply select_dtypes_elem; [done|]. eauto.
Qed.

(** C1, as the code has it.  After the track transform, every numeric
    column of the output whose input column holds at least one value
    contains no missing value; a numeric column whose input column is
    missing in every row is missing in every row of the output. *)
Theorem tracks_numeric_columns_filled (df out : DataFrame) (n : string)
    (xs ys : list (option Q)) :
  wf df →
  limpiar_y_transformar_tracks df = Ok out →
  get_col n df = Some (NumCol xs) →
  get_col n out = Some (NumCol ys) →
  ((∃ v, Some v ∈ xs) → Forall is_Some ys) ∧
  (Forall (λ x, x = None) xs → Forall (λ y, y = None) ys).
Proof.
  intros Hwf Hrun Hin Hout.
  pose proof (tracks_numeric_column_value df out n xs ys Hwf Hrun Hin Hout)
    as Hys.
  split.
  - intros [v Hv].
    destruct (drop_duplicates_keeps_value df n xs v Hwf Hin Hv) as [v' Hv'].
    destruct (suppress_outliers_filled _ v' Hv') as (ys' & Heq & Hall).
    congruence.
  - intros Hnone.
    assert (Forall (λ x, x = None) (mask_select (negb <$> duplicated df) xs))
      as Hzs.
    { apply Forall_forall. intros x Hx. apply mask_select_elem in Hx.
      by eapply Forall_forall in Hnone. }
    rewrite (suppress_outliers_all_null _ Hzs) in Hys. by injection Hys as <-.
Qed.

Lemma tracks_numeric_columns_filled_witness :
  let df := [("track_name", ObjCol [OStr (py "a"); ONaN]);
             ("tempo", NumCol [Some 120%Q; None])] in
  let out := [("track_name", ObjCol [OStr (py "a"); OStr (py "Unknown Track")]);
              ("tempo", NumCol [Some 120%Q; Some 120%Q])] in
  wf df ∧ limpiar_y_transformar_tracks df = Ok out ∧
  Forall is_Some [Some 120%Q; Some 120%Q].
Proof.
  cbv zeta.
  assert (wf [("track_name", ObjCol [OStr (py "a"); ONaN]);
              ("tempo", NumCol [Some 120%Q; None])]) as Hwf.
  { split; [unfold columns; compute_done|by repeat constructor]. }
  split; [exact Hwf|]. split; [vm_compute; reflexivity|].
  refine (proj1 (tracks_numeric_columns_filled _
                   [("track_name",
                     ObjCol [OStr (py "a"); OStr (py "Unknown Track")]);
                    ("tempo", NumCol [Some 120%Q; Some 120%Q])]
                   "tempo" [Some 120%Q; None] [Some 120%Q; Some 120%Q]
                   Hwf _ eq_refl eq_refl) _).
  - vm_compute. reflexivity.
  - exists 120%Q. apply elem_of_cons. by left.
Defined.

(** C1, counterexample: a numeric column that is missing in every row
    comes out of the track transform missing in every row (the quantiles
    and the median of no value are NaN, and filling with NaN fills
    nothing). *)
Lemma tracks_null_column_stays_null :
  limpiar_y_transformar_tracks
    [("track_name", ObjCol [OStr (py "a"); OStr (py "b")]);
     ("tempo", NumCol [None; None])]
  = Ok [("track_name", ObjCol [OStr (py "a"); OStr (py "b")]);
        ("tempo", NumCol [None; None])].
Proof. vm_compute. reflexivity. Qed.

(** X1.  The transform returns whenever the batch has no [popularity] column
    or a numeric one. *)
Lemma tracks_returns (df : DataFrame) :
  wf df →
  (∀ c, get_col "popularity" df = Some c → is_number c = true) →
  ∃ out, limpiar_y_transformar_tracks df = Ok out.
Proof.
  intros Hwf Hpop. unfold limpiar_y_transformar_tracks.
  set (df1 := drop_duplicates df).
  set (df2 := update_col _ df1 "track_name").
  set (df3 := update_col _ df2 "artist_name").
  set (df4 := fold_left _ _ df3).
  unfold add_popularity_category.
  destruct (get_col "popularity" df4) as [c|] eqn:E; [|eauto].
  assert (is_number c = true) as Hc.
  { unfold df4 in E. rewrite get_fold_update in E.
    2:{ apply select_dtypes_NoDup. unfold df3, df2, df1, drop_duplicates.
        rewrite !columns_update_col, columns_fmap. apply Hwf. }
    assert (get_col "popularity" df3 =
            col_select (negb <$> duplicated df) <$> get_col "popularity" df)
      as H3.
    { unfold df3, df2. rewrite !get_update_col.
      destruct (decide ("artist_name" = "popularity")) as [[=]|_].
      destruct (decide ("track_name" = "popularity")) as [[=]|_].
      unfold df1, drop_duplicates. by rewrite get_col_fmap. }
    rewrite H3 in E. clear H3.
    destruct (get_col "popularity" df) as [c0|] eqn:E0.
    2:{ by case_decide. }
    specialize (Hpop c0 eq_refl). destruct c0; try done.
    case_decide; simpl in E; by injection E as <-. }
  destruct c; try done. simpl. eauto.
Qed.

(** X2.  A numeric column of the input, other than the two name columns the
    transform fills with text and the category column it adds, is a
    numeric column of the output. *)
Lemma tracks_numeric_column_kept (df out : DataFrame) (n : string)
    (xs : list (option Q)) :
  wf df →
  limpiar_y_transformar_tracks df = Ok out →
  get_col n df = Some (NumCol xs) →
  n ≠ "track_name" → n ≠ "artist_name" → n ≠ "popularity_category" →
  get_col n out =
    Some (suppress_outliers (NumCol (mask_select (negb <$> duplicated df) xs))).
Proof.
  intros Hwf Hrun Hin Ht Ha Hp.
  unfold limpiar_y_transformar_tracks in Hrun.
  set (df1 := drop_duplicates df) in *.
  set (df2 := update_col _ df1 "track_name") in *.
  set (df3 := update_col _ df2 "artist_name") in *.
  set (df4 := fold_left _ _ df3) in *.
  assert (get_col n out = get_col n df4) as ->.
  { unfold add_popularity_category in Hrun.
    destruct (get_col "popularity" df4) as [c|]; [|by injection Hrun as <-].
    destruct (cut c popularity_bins popularity_labels) as [cat|]; [|done].
    injection Hrun as <-. rewrite get_set_col. by rewrite decide_False. }
  unfold df4. rewrite get_fold_update_dtype.
  - unfold df3, df2. rewrite !get_update_col.
    rewrite !decide_False by done.
    unfold df1, drop_duplicates. by rewrite get_col_fmap, Hin.
  - unfold df3, df2, df1, drop_duplicates.
    rewrite !columns_update_col, columns_fmap. apply Hwf.
  - by intros [].
Qed.

(** ** The outlier scenario and the popularity bins *)

(** C3, as the code has it.  For the column [1, 2, 3, 4, 1000] the 5th
    and 95th percentiles are 1.2 and 800.8, the bounds are -1198.2 and
    2000.2, no value lies outside them, and the track transform returns
    the column unchanged. *)
Theorem outlier_scenario_bounds :
  let xs := nums [1; 2; 3; 4; 1000]%Q in
  (∃ q1 q3 l u,
      quantile xs 0.05 = Some q1 ∧ quantile xs 0.95 = Some q3 ∧
      lower_bound xs = Some l ∧ upper_bound xs = Some u ∧
      (q1 == 1.2 ∧ q3 == 800.8 ∧ l == -1198.2 ∧ u == 2000.2)%Q) ∧
  outlier_mask xs = [false; false; false; false; false] ∧
  limpiar_y_transformar_tracks [("x", NumCol xs)] = Ok [("x", NumCol xs)].
Proof.
  cbv zeta. split; [|split; vm_compute; reflexivity].
  eexists _, _, _, _.
  split; [vm_compute; reflexivity|]. split; [vm_compute; reflexivity|].
  split; [vm_compute; reflexivity|]. split; [vm_compute; reflexivity|].
  repeat split; reflexivity.
Qed.

(** C3, counterexample: on [1, 2, 3, 4, 1000] the outlier step does not
    flag 1000 and does not replace it by 2.5. *)
Lemma outlier_scenario_not_flagged :
  outlier_mask (nums [1; 2; 3; 4; 1000]%Q) !! 4%nat = Some false ∧
  suppress_outliers (NumCol (nums [1; 2; 3; 4; 1000]%Q))
  ≠ NumCol (nums [1; 2; 3; 4; 2.5]%Q).
Proof. split; [vm_compute; reflexivity|]. vm_compute. intros [=]. Qed.

Ltac qle_bool_hyps :=
  repeat match goal with
         | H : Qle_bool _ _ = false |- _ =>
             apply not_true_iff_false in H; rewrite Qle_bool_iff in H
         | H : Qle_bool _ _ ≠ false |- _ =>
             apply not_false_iff_true in H; rewrite Qle_bool_iff in H
         end.

(** The bins of [pd.cut] are open on the left and closed on the right. *)
Lemma cut_value_out_of_range (x : Q) :
  (x <= 0 ∨ 100 < x)%Q →
  cut_value popularity_bins popularity_labels (Some x) = None.
Proof.
  intros Hx. unfold cut_value, searchsorted_left, popularity_bins.
  rewrite !filter_cons, filter_nil. repeat case_decide; qle_bool_hyps;
    simpl; try done; lra.
Qed.

Lemma cut_value_lowest_bin (x : Q) :
  (0 < x ∧ x <= 20)%Q →
  cut_value popularity_bins popularity_labels (Some x) = Some "Very Low".
Proof.
  intros Hx. unfold cut_value, searchsorted_left, popularity_bins.
  rewrite !filter_cons, filter_nil. repeat case_decide; qle_bool_hyps;
    simpl; try done; lra.
Qed.

(** C2, on the code: a track of popularity 0 gets no category (the lowest
    bin is (0, 20]); 10 is Very Low, 50 is Medium. *)
Theorem popularity_zero_has_no_category :
  limpiar_y_transformar_tracks [("popularity", NumCol (nums [0; 10; 50]%Q))]
  = Ok [("popularity", NumCol (nums [0; 10; 50]%Q));
        ("popularity_category",
         CatCol [None; Some "Very Low"; Some "Medium"])].
Proof. vm_compute. reflexivity. Qed.

(** ** Duplicate removal *)

(** C9.  The duplicate-removal step both transforms start with keeps
    exactly the first occurrence of every row, in the order of the input:
    the rows of the result are the subsequence of first occurrences. *)
Theorem drop_duplicates_first_occurrences (df : DataFrame) :
  wf df → rows (drop_duplicates df) = first_occurrences (rows df).
Proof.
  intros Hwf. rewrite rows_drop_duplicates by done.
  unfold first_occurrences, duplicated.
  by rewrite (duplicated_from_spec [] []).
Qed.

(** The first occurrences are a subsequence of the rows, and no two of
    them are equal. *)
Lemma mask_select_sublist {A} (mask : list bool) (xs : list A) :
  mask_select mask xs `sublist_of` xs.
Proof.
  revert xs. induction mask as [|b mask IH]; intros [|x xs]; simpl;
    try apply sublist_nil_l.
  destruct b; [by apply sublist_skip|by apply sublist_cons].
Qed.

Lemma duplicated_from_distinct (seen rs : list row) :
  let kept := mask_select (negb <$> duplicated_from seen rs) rs in
  (∀ r s, r ∈ kept → s ∈ seen → row_eqb r s = false) ∧
  (∀ i j r s, (i < j)%nat → kept !! i = Some s → kept !! j = Some r →
              row_eqb r s = false).
Proof.
  revert seen. induction rs as [|r0 rs IH]; intros seen; cbv zeta.
  { split; [intros r s Hr; by apply elem_of_nil in Hr|by intros i j r s _ [=]]. }
  cbn [duplicated_from]. csimpl.
  destruct (IH (r0 :: seen)) as [Hseen Hpair]. cbv zeta in Hseen, Hpair.
  destruct (existsb (row_eqb r0) seen) eqn:E; simpl.
  - split; [|done]. intros r s Hr Hs. apply Hseen; [done|].
    apply elem_of_cons. by right.
  - split.
    + intros r s [->|Hr]%elem_of_cons Hs.
      * destruct (row_eqb r0 s) eqn:Hrs; [|done].
        assert (existsb (row_eqb r0) seen = true); [|congruence].
        apply existsb_elem. eauto.
      * apply Hseen; [done|]. apply elem_of_cons. by right.
    + intros [|i] [|j] r s Hij; simpl; try lia.
      * intros [= <-] Hr. apply Hseen.
        -- by eapply list_elem_of_lookup_2.
        -- apply elem_of_cons. by left.
      * apply Hpair. lia.
Qed.

Lemma first_occurrences_sublist (rs : list row) :
  first_occurrences rs `sublist_of` rs.
Proof. apply mask_select_sublist. Qed.

(** X3.  After duplicate removal no two rows of the batch are equal. *)
Lemma drop_duplicates_distinct (df : DataFrame) (i j : nat) (r s : row) :
  wf df → (i < j)%nat →
  rows (drop_duplicates df) !! i = Some s →
  rows (drop_duplicates df) !! j = Some r →
  row_eqb r s = false.
Proof.
  intros Hwf Hij. rewrite rows_drop_duplicates by done. unfold duplicated.
  by apply (duplicated_from_distinct [] (rows df)).
Qed.

Lemma drop_duplicates_first_occurrences_witness :
  let df := [("id", NumCol (nums [1; 1; 2]%Q));
             ("name", ObjCol [ONaN; ONaN; OStr (py "Chill")])] in
  wf df ∧
  rows (drop_duplicates df) = [[CNum 1; CNull]; [CNum 2; CStr (py "Chill")]] ∧
  rows (drop_duplicates df) = first_occurrences (rows df).
Proof.
  cbv zeta.
  assert (wf [("id", NumCol (nums [1; 1; 2]%Q));
              ("name", ObjCol [ONaN; ONaN; OStr (py "Chill")])]) as Hwf.
  { split; [unfold columns; compute_done|by repeat constructor]. }
  split; [exact Hwf|]. split; [vm_compute; reflexivity|].
  apply (drop_duplicates_first_occurrences _ Hwf).
Defined.

(** ** The playlist transform *)

Section playlists.
Context `{PyEnv}.

(** The transform, column by column. *)
Lemma playlists_get_col (df : DataFrame) (n : string) :
  wf df →
  get_col n (limpiar_y_transformar_playlists df) =
  playlist_column (negb <$> duplicated df) n <$> get_col n df.
Proof.
  intros [Hnd _]. unfold limpiar_y_transformar_playlists.
  set (df1 := drop_duplicates df).
  set (df2 := update_col _ df1 "name").
  set (df3 := fold_left (update_col parse_dates) _ df2).
  assert (columns df2 = columns df) as Hc2.
  { unfold df2, df1, drop_duplicates. by rewrite columns_update_col, columns_fmap. }
  assert (columns df3 = columns df) as Hc3.
  { unfold df3. by rewrite columns_fold_update. }
  rewrite get_fold_update_dtype; [|by rewrite Hc3|by intros []].
  unfold df3. rewrite get_fold_update_named by (by rewrite Hc2).
  unfold df2. rewrite get_update_col.
  unfold df1, drop_duplicates. rewrite get_col_fmap.
  destruct (get_col n df) as [c|]; simpl.
  2:{ case_decide; by destruct (is_date_column n). }
  unfold playlist_column. f_equal.
  destruct (decide ("name" = n)) as [<-|Hne].
  - rewrite decide_True by done. by destruct (is_date_column "name").
  - rewrite decide_False by done. by destruct (is_date_column n).
Qed.

Lemma clean_text_no_null (c : column) :
  csv_column c = true →
  Forall (λ x, x ≠ CNull) (cells (clean_text (fillna_str (py "Unknown Playlist") c))).
Proof.
  destruct c as [xs|xs|xs| |]; try done; intros _.
  - cbn [fillna_str].
    destruct (forallb _ xs) eqn:Hall.
    + simpl. apply Forall_fmap, Forall_forall. intros [v|] Hv; [done|].
      rewrite forallb_forall in Hall. apply list_elem_of_In, Hall in Hv.
      apply bool_decide_eq_true in Hv. by destruct Hv.
    + simpl. rewrite <- !list_fmap_compose. apply Forall_fmap, Forall_forall.
      by intros [v|] _.
  - simpl. rewrite <- !list_fmap_compose. apply Forall_fmap, Forall_forall.
    by intros o _.
  - simpl. apply Forall_fmap, Forall_forall. by intros b _.
Qed.

(** C6, as the code has it.  In the output of the playlist transform the
    [name] field is never null, and it is the null-filled input name after
    the cast to text and the stripping of the characters outside [\w\s]:
    a name made only of such characters comes out as the empty string
    (see [playlists_name_can_be_empty]). *)
Theorem playlists_name_not_null (df : DataFrame) (c : column) :
  csv_frame df →
  get_col "name" (limpiar_y_transformar_playlists df) = Some c →
  Forall (λ x, x ≠ CNull) (cells c) ∧
  ∃ c0, get_col "name" df = Some c0 ∧
        c = clean_text (fillna_str (py "Unknown Playlist")
                          (col_select (negb <$> duplicated df) c0)).
Proof.
  intros [Hwf Hcsv] Hout. rewrite playlists_get_col in Hout by done.
  destruct (get_col "name" df) as [c0|] eqn:E; [|done].
  injection Hout as <-. unfold playlist_column.
  rewrite decide_True by done.
  change (is_date_column "name") with false. cbv iota.
  split; [|eauto].
  apply clean_text_no_null.
  apply get_col_elem in E. eapply Forall_forall in Hcsv; [|exact E].
  simpl in Hcsv. by destruct c0.
Qed.

Lemma strip_special_nan : strip_special (py "nan") = py "nan".
Proof. reflexivity. Qed.

Lemma strip_special_empty (s : pystr) :
  strip_special s = [] ↔ Forall (λ ch, is_word ch || is_space ch = false) s.
Proof.
  unfold strip_special. induction s as [|ch s IH].
  - split; [constructor|done].
  - rewrite filter_cons. case_decide as Hk.
    + split; [done|]. intros [Hch _]%Forall_cons_1. congruence.
    + rewrite IH. apply not_true_is_false in Hk. split.
      * by constructor.
      * by intros [_ ?]%Forall_cons_1.
Qed.

End playlists.

Lemma playlists_name_not_null_witness :
  let df := [("id", NumCol (nums [1; 1; 2]%Q));
             ("name", ObjCol [ONaN; ONaN; OStr (py "Chill")])] in
  let c := ObjCol [OStr (py "Unknown Playlist"); OStr (py "Chill")] in
  csv_frame df ∧
  get_col "name" (@limpiar_y_transformar_playlists example_env df) = Some c ∧
  Forall (λ x, x ≠ CNull) (cells c).
Proof.
  cbv zeta.
  assert (csv_frame [("id", NumCol (nums [1; 1; 2]%Q));
                     ("name", ObjCol [ONaN; ONaN; OStr (py "Chill")])]) as Hcsv.
  { split; [split|]; [unfold columns; compute_done|by repeat constructor..]. }
  split; [exact Hcsv|]. split; [vm_compute; reflexivity|].
  eapply (@playlists_name_not_null example_env _ _ Hcsv). vm_compute. reflexivity.
Defined.

(** C6, counterexample: a playlist whose name is [!!!] comes out with the
    empty string as its name, whatever the Unicode tables say. *)
Lemma playlists_name_can_be_empty :
  csv_frame [("name", ObjCol [OStr (py "!!!")])] ∧
  ∀ E : PyEnv,
    @limpiar_y_transformar_playlists E [("name", ObjCol [OStr (py "!!!")])]
    = [("name", ObjCol [OStr []])].
Proof.
  split; [|reflexivity].
  split; [split|]; [unfold columns; compute_done|by repeat constructor..].
Qed.



(** ** The transforms on frame objects *)

Lemma for_each_mutate (l : positive) (cols : list string)
    (step : DataFrame → string → DataFrame) (h : gmap positive DataFrame) :
  for_each cols (λ col, Obj.mutate l (λ d, step d col)) h =
  (Ok tt, alter (λ d, fold_left step cols d) l h).
Proof.
  revert h. induction cols as [|col cols IH]; intros h; simpl.
  - unfold mret, eff_ret. f_equal. symmetry. by apply alter_id.
  - unfold mbind, eff_bind, Obj.mutate at 1. rewrite IH. f_equal.
    by rewrite alter_alter_eq.
Qed.

(** Running the playlist transform on a reference allocates one new
    frame, which holds the cleaned batch, and returns its reference. *)
Lemma obj_playlists_run `{PyEnv} (h : gmap positive DataFrame) (l : positive)
    (df : DataFrame) :
  h !! l = Some df →
  Obj.limpiar_y_transformar_playlists l h =
  (Ok (fresh (dom h)), <[fresh (dom h) := limpiar_y_transformar_playlists df]> h).
Proof.
  intros Hl. unfold Obj.limpiar_y_transformar_playlists.
  unfold mbind, eff_bind, Obj.copy. rewrite Hl.
  set (l' := fresh (dom h)).
  unfold Obj.mutate at 1 2. rewrite !alter_insert_eq.
  unfold Obj.deref at 1. rewrite lookup_insert_eq.
  rewrite for_each_mutate, alter_insert_eq.
  unfold Obj.deref at 1. rewrite lookup_insert_eq.
  rewrite for_each_mutate, alter_insert_eq.
  done.
Qed.

Lemma obj_tracks_run (h : gmap positive DataFrame) (l : positive)
    (df : DataFrame) :
  h !! l = Some df →
  ∃ d, Obj.limpiar_y_transformar_tracks l h =
         (match limpiar_y_transformar_tracks df with
          | Ok _ => Ok (fresh (dom h))
          | Raise e => Raise e
          end, <[fresh (dom h) := d]> h) ∧
       ∀ out, limpiar_y_transformar_tracks df = Ok out → d = out.
Proof.
  intros Hl. unfold Obj.limpiar_y_transformar_tracks.
  unfold mbind, eff_bind, Obj.copy. rewrite Hl.
  set (l' := fresh (dom h)).
  unfold Obj.mutate at 1 2 3. rewrite !alter_insert_eq.
  unfold Obj.deref at 1. rewrite lookup_insert_eq.
  rewrite for_each_mutate, alter_insert_eq.
  unfold Obj.deref at 1. rewrite lookup_insert_eq.
  unfold limpiar_y_transformar_tracks, add_popularity_category.
  set (df4 := fold_left _ _ _).
  destruct (get_col "popularity" df4) as [c|].
  - unfold lift. destruct (cut c popularity_bins popularity_labels) as [cat|e].
    + unfold Obj.mutate. rewrite alter_insert_eq. eexists. split; [done|].
      by intros out [= <-].
    + eexists. split; [done|]. by intros out [=].
  - eexists. split; [done|]. by intros out [= <-].
Qed.

(** C8.  Both transforms leave their argument as it was: whatever frame
    objects exist when a transform is called, the input frame among them,
    hold the same frame when it returns or raises.  The cleaning is done
    on a newly allocated copy. *)
Theorem transforms_leave_input_unchanged `{PyEnv}
    (h : gmap positive DataFrame) (df_in : positive) (k : positive)
    (d : DataFrame) :
  h !! k = Some d →
  (Obj.limpiar_y_transformar_playlists df_in h).2 !! k = Some d ∧
  (Obj.limpiar_y_transformar_tracks df_in h).2 !! k = Some d.
Proof.
  intros Hk.
  assert (fresh (dom h) ≠ k) as Hfresh.
  { intros <-. apply (is_fresh (dom h)). apply elem_of_dom. eauto. }
  destruct (h !! df_in) as [df|] eqn:Hin.
  - split.
    + rewrite (obj_playlists_run h df_in df Hin). simpl.
      by rewrite lookup_insert_ne.
    + destruct (obj_tracks_run h df_in df Hin) as (d' & -> & _). simpl.
      by rewrite lookup_insert_ne.
  - unfold Obj.limpiar_y_transformar_playlists, Obj.limpiar_y_transformar_tracks.
    unfold mbind, eff_bind, Obj.copy. rewrite Hin. done.
Qed.

Lemma transforms_leave_input_unchanged_witness :
  let df := [("name", ObjCol [OStr (py "a!"); OStr (py "a!")]);
             ("popularity", NumCol [Some 0%Q; Some 0%Q])] in
  let h : gmap positive DataFrame := {[ 1%positive := df ]} in
  h !! 1%positive = Some df ∧
  (@Obj.limpiar_y_transformar_playlists example_env 1%positive h).2
    !! 1%positive = Some df ∧
  (Obj.limpiar_y_transformar_tracks 1%positive h).2 !! 1%positive = Some df.
Proof.
  cbv zeta. split; [apply lookup_singleton_eq|].
  apply (@transforms_leave_input_unchanged example_env).
  apply lookup_singleton_eq.
Defined.
(** ** The sub-batches of the loader *)

Lemma concat_slices {A} (l : list A) (n k : nat) :
  concat ((λ i, slice l (i * n) (Nat.min ((i + 1) * n) (length l))) <$> seq 0 k)
  = take (k * n) l.
Proof.
  induction k as [|k IH]; [done|].
  rewrite seq_S, fmap_app, concat_app, IH. simpl. rewrite app_nil_r.
  unfold slice. rewrite take_take_drop.
  destruct (decide (k * n ≤ length l)%nat) as [Hle|Hgt].
  - replace (k * n + (Nat.min ((k + 1) * n) (length l) - k * n))%nat
      with (Nat.min ((k + 1) * n) (length l)) by lia.
    destruct (decide ((k + 1) * n ≤ length l)%nat).
    + f_equal. lia.
    + rewrite Nat.min_r by lia. rewrite !take_ge; [done|lia..].
  - rewrite !take_ge; [done|lia..].
Qed.

Lemma slice_nonempty {A} (l : list A) (n i : nat) :
  (0 < n)%nat → (i < (length l + n - 1) / n)%nat →
  slice l (i * n) (Nat.min ((i + 1) * n) (length l)) ≠ [].
Proof.
  intros Hn Hi.
  assert (i * n < length l)%nat as Hlt.
  { assert ((length l + n - 1) / n * n ≤ length l + n - 1)%nat as Hdiv.
    { rewrite Nat.mul_comm. apply Nat.Div0.mul_div_le. }
    nia. }
  intros E. apply (f_equal length) in E. unfold slice in E.
  rewrite length_take, length_drop in E. simpl in E. lia.
Qed.

Lemma filter_all {A} (P : A → Prop) `{∀ x, Decision (P x)} (l : list A) :
  Forall P l → filter P l = l.
Proof.
  induction 1 as [|x l Hx _ IH]; [done|].
  by rewrite filter_cons_True, IH.
Qed.

Lemma slice_length_le {A} (l : list A) (n i : nat) :
  (length (slice l (i * n) (Nat.min ((i + 1) * n) (length l))) ≤ n)%nat.
Proof. unfold slice. rewrite length_take. lia. Qed.

(** The loop's sub-batches are all non-empty, hold at most [batch_size]
    records each, and concatenate to the records in their order. *)
Lemma lotes_partition (records : list record) (batch_size : nat) :
  (0 < batch_size)%nat →
  concat (lotes records batch_size) = records ∧
  Forall (λ batch, (length batch ≤ batch_size)%nat) (lotes records batch_size) ∧
  lotes records batch_size =
    (λ i, slice records (i * batch_size)
            (Nat.min ((i + 1) * batch_size) (length records)))
      <$> seq 0 ((length records + batch_size - 1) / batch_size).
Proof.
  intros Hn. unfold lotes. cbv zeta.
  set (k := ((length records + batch_size - 1) / batch_size)%nat).
  set (f := λ i, slice records (i * batch_size)
                   (Nat.min ((i + 1) * batch_size) (length records))).
  assert (filter (λ batch, batch ≠ []) (f <$> seq 0 k) = f <$> seq 0 k) as ->.
  { apply filter_all, Forall_fmap, Forall_forall.
    intros i Hi. apply list_elem_of_In, in_seq in Hi.
    apply slice_nonempty; [done|]. fold k. lia. }
  split; [|split; [|done]].
  - unfold f. rewrite concat_slices. apply take_ge.
    assert (length records + batch_size - 1 <
            batch_size * k + batch_size)%nat; [|nia].
    unfold k.
    pose proof (Nat.mul_succ_div_gt (length records + batch_size - 1) batch_size).
    lia.
  - apply Forall_fmap, Forall_forall. intros i _. apply slice_length_le.
Qed.

(** ** The loader on a store that rejects documents but stays reachable *)

Section healthy_store.
Context {S : Type} `{DocumentStore S} `{JsonEnv}.
Variable collection_name : string.

(** [good] holds of the store as long as its writes to the collection
    succeed or fail per document only, and its index creations succeed. *)
Variable good : S → Prop.
Hypothesis insert_tolerated : ∀ batch s, good s →
  good (insert_many collection_name batch false s).2 ∧
  ((insert_many collection_name batch false s).1 = Ok tt ∨
   ∃ errs, (insert_many collection_name batch false s).1 = Raise (BulkWriteError errs)).
Hypothesis index_created : ∀ fld unique s, good s →
  good (create_index collection_name fld unique s).2 ∧
  (create_index collection_name fld unique s).1 = Ok tt.

Local Abbreviation continues := (continues_on good).

Lemma continues_refl (w : world S) : good (db w) → continues w w [] [].
Proof. intros Hg. unfold continues_on. by rewrite !app_nil_r. Qed.

Lemma continues_trans (w1 w2 w3 : world S) bs1 bs2 ws1 ws2 :
  continues w1 w2 bs1 ws1 → continues w2 w3 bs2 ws2 →
  continues w1 w3 (bs1 ++ bs2) (ws1 ++ ws2).
Proof.
  intros (_ & Hb1 & Hw1) (Hg & Hb2 & Hw2). unfold continues_on.
  rewrite Hb2, Hb1, Hw2, Hw1, !app_assoc. done.
Qed.

Lemma logger_run (lv : level) (msg : string) (w : world S) :
  good (db w) →
  ∃ w', logger lv msg w = (Ok tt, w') ∧ db w' = db w ∧ continues w w' [] [].
Proof.
  intros Hg. eexists. split; [done|]. split; [done|].
  unfold continues_on, inserted_batches, warnings. simpl.
  by rewrite !omap_app, !app_nil_r.
Qed.

Lemma call_create_index_run (fld : string) (unique : bool) (w : world S) :
  good (db w) →
  ∃ w', call_create_index collection_name fld unique w = (Ok tt, w') ∧
        continues w w' [] [].
Proof.
  intros Hg. unfold call_create_index.
  destruct (index_created fld unique (db w) Hg) as [Hg' Hr].
  destruct (create_index collection_name fld unique (db w)) as [r s'].
  simpl in *. subst r. eexists. split; [done|].
  unfold continues_on, inserted_batches, warnings. simpl.
  by rewrite !omap_app, !app_nil_r.
Qed.

Lemma crear_indices_run (w : world S) :
  good (db w) →
  ∃ w', crear_indices collection_name w = (Ok tt, w') ∧ continues w w' [] [].
Proof.
  intros Hg. unfold crear_indices.
  destruct (String.eqb collection_name "playlists").
  { destruct (call_create_index_run "id" true w Hg) as (w1 & E1 & C1).
    destruct (call_create_index_run "name" false w1 (proj1 C1)) as (w2 & E2 & C2).
    exists w2. unfold mbind, eff_bind. rewrite E1, E2. split; [done|].
    apply (continues_trans _ _ _ [] [] [] [] C1 C2). }
  destruct (String.eqb collection_name "tracks").
  { destruct (call_create_index_run "id" true w Hg) as (w1 & E1 & C1).
    destruct (call_create_index_run "artist_name" false w1 (proj1 C1))
      as (w2 & E2 & C2).
    destruct (call_create_index_run "track_name" false w2 (proj1 C2))
      as (w3 & E3 & C3).
    exists w3. unfold mbind, eff_bind. rewrite E1, E2, E3. split; [done|].
    apply (continues_trans _ _ _ [] [] [] [] C1).
    apply (continues_trans _ _ _ [] [] [] [] C2 C3). }
  exists w. split; [done|]. by apply continues_refl.
Qed.

(** The loop of the loader sends every non-empty slice to the store, one
    after the other, and logs what the store rejects. *)
Lemma cargar_lotes_run (records : list record) (batch_size total : nat)
    (idxs : list nat) (w : world S) :
  good (db w) →
  let bs := filter (λ batch, batch ≠ [])
              ((λ i, slice records (i * batch_size)
                       (Nat.min ((i + 1) * batch_size) total)) <$> idxs) in
  ∃ w', for_each idxs (cargar_lote collection_name records batch_size total) w
          = (Ok tt, w') ∧
        continues w w' bs (write_every_batch collection_name bs (db w)).2.
Proof.
  revert w. induction idxs as [|i idxs IH]; intros w Hg; cbv zeta.
  { exists w. split; [done|]. by apply continues_refl. }
  csimpl. unfold mbind, eff_bind. unfold cargar_lote at 1.
  set (b := slice records (i * batch_size) (Nat.min ((i + 1) * batch_size) total)).
  destruct b as [|d b'] eqn:Eb.
  - rewrite filter_cons_False by (by intros ?). unfold mret, eff_ret.
    apply IH. done.
  - rewrite filter_cons_True by done.
    unfold try_except, call_insert_many.
    destruct (insert_tolerated (d :: b') (db w) Hg) as [Hg' Hr].
    cbn [write_every_batch].
    destruct (insert_many collection_name (d :: b') false (db w)) as [r s1].
    simpl in Hg', Hr.
    set (w1 := World s1 (trace w ++ [EInsertMany collection_name (d :: b')])).
    destruct Hr as [->|[errs ->]].
    + destruct (IH w1 Hg') as (w' & E & C). exists w'. rewrite E.
      split; [done|]. cbv zeta in C. simpl in C.
      destruct (write_every_batch collection_name _ s1) as [s2 errss].
      apply (continues_trans w w1 w' [d :: b'] _ [] _); [|exact C].
      unfold continues_on, inserted_batches, warnings. simpl.
      by rewrite !omap_app, !app_nil_r.
    + set (w2 := World s1 (trace w1 ++ [EWriteErrors errs])).
      unfold emit. fold w1.
      change (World (db w1) (trace w1 ++ [EWriteErrors errs])) with w2.
      destruct (IH w2 Hg') as (w' & E & C). exists w'. rewrite E.
      split; [done|]. cbv zeta in C. simpl in C.
      destruct (write_every_batch collection_name _ s1) as [s2 errss].
      apply (continues_trans w w2 w' [d :: b'] _ [errs] _); [|exact C].
      unfold continues_on, inserted_batches, warnings. simpl.
      by rewrite !omap_app, !app_nil_r.
Qed.

(** On such a store the loader returns [True], having sent every
    sub-batch and reported every rejection. *)
Lemma cargar_en_mongodb_run (dataframe : DataFrame) (batch_size : nat)
    (w : world S) :
  (0 < batch_size)%nat → good (db w) →
  let bs := lotes (to_records dataframe) batch_size in
  ∃ w', cargar_en_mongodb dataframe collection_name batch_size w = (Ok true, w') ∧
        continues w w' bs (write_every_batch collection_name bs (db w)).2.
Proof.
  intros Hn Hg. cbv zeta. unfold cargar_en_mongodb, try_except.
  unfold mbind, eff_bind.
  destruct (logger_run INFO "Cargando registros" w Hg) as (w1 & E1 & Hdb1 & C1).
  rewrite E1. destruct (batch_size =? 0)%nat eqn:E0.
  { apply Nat.eqb_eq in E0. lia. }
  unfold mret at 1, eff_ret at 1.
  destruct (cargar_lotes_run (to_records dataframe) batch_size
              (length (to_records dataframe))
              (seq 0 ((length (to_records dataframe) + batch_size - 1) / batch_size))
              w1 (proj1 C1)) as (w2 & E2 & C2).
  rewrite E2. cbv zeta in C2. fold (lotes (to_records dataframe) batch_size) in C2.
  destruct (crear_indices_run w2 (proj1 C2)) as (w3 & E3 & C3). rewrite E3.
  destruct (logger_run INFO "Datos cargados correctamente" w3 (proj1 C3))
    as (w4 & E4 & _ & C4).
  rewrite E4. exists w4. split; [done|].
  rewrite Hdb1 in C2.
  pose proof (continues_trans _ _ _ _ _ _ _ C1
                (continues_trans _ _ _ _ _ _ _ C2
                   (continues_trans _ _ _ _ _ _ _ C3 C4))) as C.
  simpl in C. by rewrite !app_nil_r in C.
Qed.
End healthy_store.

(** ** The simulated store *)

Lemma mongo_insert_tolerated (collection : string) (batch : list record)
    (m : mongo) :
  mongo_reachable collection m →
  mongo_reachable collection (insert_many collection batch false m).2 ∧
  ((insert_many collection batch false m).1 = Ok tt ∨
   ∃ errs, (insert_many collection batch false m).1 = Raise (BulkWriteError errs)).
Proof.
  intros [Hout Hidx]. simpl. rewrite Hout.
  destruct (insert_unordered _ collection 0 batch (stored m)) as [docs errs].
  simpl. split; [done|]. destruct errs; eauto.
Qed.

Lemma mongo_index_created (collection fld : string) (unique : bool) (m : mongo) :
  mongo_reachable collection m →
  mongo_reachable collection (create_index collection fld unique m).2 ∧
  (create_index collection fld unique m).1 = Ok tt.
Proof.
  intros [Hout Hidx]. simpl.
  rewrite (bool_decide_eq_true_2 _ Hidx). simpl.
  by rewrite andb_false_r.
Qed.

(** ** The loader's claims *)

(** C5, as the code has it.  On a store whose unordered writes fail per
    document only (bulk write errors), the loader sends every sub-batch
    with [ordered=False], whatever the earlier ones met, logs one warning
    for each sub-batch whose write raised, which carries the write errors
    the store returned for it, and returns success.  It counts neither
    the documents stored nor the documents rejected.  In particular, when
    2 of the 1000 documents of a sub-batch repeat an id under the unique
    index of a store that honours the unordered insert, the other 998
    documents are stored, one warning is logged, which lists the 2 write
    errors, the only other lines logged are the two of every load (the
    total before the writes, the completion after them), and the load
    returns success. *)
Theorem loader_tolerates_write_errors :
  (∀ (S : Type) (H : DocumentStore S) (J : JsonEnv) (collection_name : string)
     (good : S → Prop),
     (∀ batch s, good s →
        good (insert_many collection_name batch false s).2 ∧
        ((insert_many collection_name batch false s).1 = Ok tt ∨
         ∃ errs, (insert_many collection_name batch false s).1
                 = Raise (BulkWriteError errs))) →
     (∀ fld unique s, good s →
        good (create_index collection_name fld unique s).2 ∧
        (create_index collection_name fld unique s).1 = Ok tt) →
     ∀ (dataframe : DataFrame) (batch_size : nat) (w : world S),
       (0 < batch_size)%nat → good (db w) →
       let bs := lotes (to_records dataframe) batch_size in
       let run := cargar_en_mongodb dataframe collection_name batch_size w in
       run.1 = Ok true ∧
       inserted_batches (trace run.2) = inserted_batches (trace w) ++ bs ∧
       warnings (trace run.2) =
         warnings (trace w) ++ (write_every_batch collection_name bs (db w)).2)
  ∧
  (let run := cargar_en_mongodb (ids_frame 1 1000) "tracks" 1000
                (World scenario_store []) in
   run.1 = Ok true ∧
   length (stored (db run.2)) = (length (stored scenario_store) + 998)%nat ∧
   warnings (trace run.2) = [[WriteError 0 11000; WriteError 1 11000]] ∧
   log_lines (trace run.2) =
     [(INFO, "Cargando registros"); (INFO, "Datos cargados correctamente")]).
Proof.
  split.
  - intros S H J collection_name good Hins Hidx dataframe batch_size w Hn Hg.
    cbv zeta.
    destruct (cargar_en_mongodb_run collection_name good Hins Hidx
                dataframe batch_size w Hn Hg) as (w' & -> & _ & Hb & Hw).
    done.
  - vm_compute. done.
Qed.

Lemma loader_tolerates_write_errors_witness :
  let w := World (Mongo [("tracks", [("id", JNum 2%Q)])] ["tracks"] []) [] in
  let run := cargar_en_mongodb (ids_frame 1 3) "tracks" 2 w in
  (0 < 2)%nat ∧ mongo_reachable "tracks" (db w) ∧
  run.1 = Ok true ∧
  inserted_batches (trace run.2)
    = [] ++ lotes (to_records (ids_frame 1 3)) 2 ∧
  warnings (trace run.2)
    = [] ++ (write_every_batch "tracks" (lotes (to_records (ids_frame 1 3)) 2)
               (db w)).2.
Proof.
  cbv zeta.
  assert (mongo_reachable "tracks"
            (Mongo [("tracks", [("id", JNum 2%Q)])] ["tracks"] [])) as Hg.
  { split; [done|]. apply elem_of_cons. by left. }
  split; [lia|]. split; [exact Hg|].
  exact (proj1 loader_tolerates_write_errors mongo _ example_json "tracks"
           (mongo_reachable "tracks") (mongo_insert_tolerated "tracks")
           (mongo_index_created "tracks") (ids_frame 1 3) 2%nat
           (World (Mongo [("tracks", [("id", JNum 2%Q)])] ["tracks"] []) [])
           (Nat.lt_0_succ 1) Hg).
Defined.

(** C5, counterexample: in the duplicate-key scenario the loader logs one
    warning, not two (the 2 rejected documents are the 2 write errors
    listed in the one warning of their sub-batch), and it reports no
    count of successes: the 998 are what the store holds afterwards.
    Sent as an ordered insert, the same sub-batch would stop at its first
    rejected document and store none. *)
Lemma duplicate_key_scenario_one_warning :
  let run := cargar_en_mongodb (ids_frame 1 1000) "tracks" 1000
               (World scenario_store []) in
  length (warnings (trace run.2)) = 1%nat ∧
  length (reported_failures (trace run.2)) = 2%nat ∧
  length (stored (db run.2)) = (length (stored scenario_store) + 998)%nat ∧
  length (stored (insert_many "tracks" (to_records (ids_frame 1 1000)) true
                    scenario_store).2)
    = length (stored scenario_store).
Proof. vm_compute. done. Qed.

Lemma zip_fmap_fst {A B C} (f : A → B) (g : A → C) (l : list A) :
  zip (f <$> l) (g <$> l) = (λ x, (f x, g x)) <$> l.
Proof. induction l as [|x l IH]; csimpl; [done|]. by rewrite IH. Qed.

(** The records of a batch are its rows, each with the names of the
    columns as keys. *)
Lemma to_records_rows `{JsonEnv} (df : DataFrame) :
  to_records df =
  (λ r, zip (columns df) (json_of_cell <$> r)) <$> rows df.
Proof.
  unfold to_records, rows, row_at, columns.
  rewrite <- list_fmap_compose. apply list_fmap_ext. intros _ i _. simpl.
  rewrite <- list_fmap_compose. symmetry. apply zip_fmap_fst.
Qed.

Lemma lotes_nonempty (records : list record) (batch_size : nat) :
  Forall (λ batch, batch ≠ []) (lotes records batch_size).
Proof.
  apply Forall_forall. intros b Hb. unfold lotes in Hb.
  by apply list_elem_of_filter in Hb as [? _].
Qed.

(** C7.  For every batch (a frame, whose column names are distinct) and
    every sub-batch size above 0, the batches the loader writes, in the
    order it writes them, are non-empty, hold at most [batch_size] records
    each, and concatenate to the rows of the batch: one document per row,
    in row order, whose keys are the column names and whose values are the
    cells of the row as line 201 renders them (on a store whose writes
    fail per document only, so that every write is reached). *)
Theorem loader_partitions_batch (S : Type) (H : DocumentStore S) (J : JsonEnv)
    (collection_name : string) (good : S → Prop)
    (dataframe : DataFrame) (batch_size : nat) (w : world S) :
  wf dataframe →
  (∀ batch s, good s →
     good (insert_many collection_name batch false s).2 ∧
     ((insert_many collection_name batch false s).1 = Ok tt ∨
      ∃ errs, (insert_many collection_name batch false s).1
              = Raise (BulkWriteError errs))) →
  (∀ fld unique s, good s →
     good (create_index collection_name fld unique s).2 ∧
     (create_index collection_name fld unique s).1 = Ok tt) →
  (0 < batch_size)%nat → good (db w) →
  ∃ written,
    inserted_batches
      (trace (cargar_en_mongodb dataframe collection_name batch_size w).2)
      = inserted_batches (trace w) ++ written ∧
    Forall (λ batch, batch ≠ [] ∧ (length batch ≤ batch_size)%nat) written ∧
    concat written =
      (λ r, zip (columns dataframe) (json_of_cell <$> r)) <$> rows dataframe ∧
    length (concat written) = nrows dataframe.
Proof.
  intros _ Hins Hidx Hn Hg.
  destruct (cargar_en_mongodb_run collection_name good Hins Hidx
              dataframe batch_size w Hn Hg) as (w' & -> & _ & Hb & _).
  exists (lotes (to_records dataframe) batch_size). split; [done|].
  destruct (lotes_partition (to_records dataframe) batch_size Hn) as (Hc & Hl & _).
  split; [|split].
  - apply Forall_and. split; [apply lotes_nonempty|done].
  - by rewrite Hc, to_records_rows.
  - by rewrite Hc, to_records_rows, length_fmap, rows_length.
Qed.

Lemma loader_partitions_batch_witness :
  let w := World (Mongo [] ["playlists"] []) [] in
  wf two_playlists ∧ (0 < 1)%nat ∧ mongo_reachable "playlists" (db w) ∧
  ∃ written,
    inserted_batches
      (trace (cargar_en_mongodb two_playlists "playlists" 1 w).2)
      = inserted_batches (trace w) ++ written ∧
    Forall (λ batch, batch ≠ [] ∧ (length batch ≤ 1)%nat) written ∧
    concat written =
      [[("id", JNum 1%Q); ("name", JStr (py "Chill"))];
       [("id", JNum 2%Q); ("name", JStr (py "Focus"))]] ∧
    length (concat written) = 2%nat.
Proof.
  cbv zeta.
  assert (mongo_reachable "playlists" (Mongo [] ["playlists"] [])) as Hg.
  { split; [done|]. apply elem_of_cons. by left. }
  assert (wf two_playlists) as Hwf.
  { split; [unfold columns; compute_done|by repeat constructor]. }
  split; [exact Hwf|]. split; [lia|]. split; [exact Hg|].
  exact (loader_partitions_batch mongo _ example_json "playlists"
           (mongo_reachable "playlists") two_playlists 1%nat
           (World (Mongo [] ["playlists"] []) []) Hwf
           (mongo_insert_tolerated "playlists")
           (mongo_index_created "playlists") (Nat.lt_0_succ 0) Hg).
Defined.

(** ** The per-file driver *)

Section driver.
Context {S : Type} `{DocumentStore S} `{JsonEnv}.

Lemma quiet_ret {A} (a : A) : quiet S (mret a).
Proof. by intros w. Qed.

Lemma quiet_raise {A} (e : exn) : quiet S (raise (A:=A) e).
Proof. by intros w. Qed.

Lemma quiet_lift {A} (r : result A) : quiet S (lift r).
Proof. by intros w. Qed.

Lemma quiet_bind {A B} (m : Eff (world S) A) (f : A → Eff (world S) B) :
  quiet S m → (∀ a, quiet S (f a)) → quiet S (m ≫= f).
Proof.
  intros Hm Hf w. unfold mbind, eff_bind. specialize (Hm w).
  destruct (m w) as [[a|e] w1]; simpl in *; [|done].
  by rewrite Hf.
Qed.

Lemma quiet_try {A} (m : Eff (world S) A) (h : exn → Eff (world S) A) :
  quiet S m → (∀ e, quiet S (h e)) → quiet S (try_except m h).
Proof.
  intros Hm Hh w. unfold try_except. specialize (Hm w).
  destruct (m w) as [[a|e] w1]; simpl in *; [done|].
  by rewrite Hh.
Qed.

Lemma fallback_taken_snoc (t : list event) (e : event) :
  fallback_taken (t ++ [e]) =
  fallback_taken t || match e with EReadWholeFile => true | _ => false end.
Proof. unfold fallback_taken. rewrite existsb_app. simpl. by rewrite orb_false_r. Qed.

Lemma quiet_emit (e : event) : e ≠ EReadWholeFile → quiet S (emit e).
Proof.
  intros He w. simpl. rewrite fallback_taken_snoc.
  destruct e; try done; by rewrite orb_false_r.
Qed.

Lemma quiet_logger (lv : level) (msg : string) : quiet S (logger lv msg).
Proof. by apply quiet_emit. Qed.

Lemma quiet_insert_many (c : string) (b : list record) :
  quiet S (call_insert_many c b).
Proof.
  intros w. unfold call_insert_many. destruct (insert_many c b false (db w)).
  simpl. rewrite fallback_taken_snoc. by rewrite orb_false_r.
Qed.

Lemma quiet_create_index (c f : string) (u : bool) :
  quiet S (call_create_index c f u).
Proof.
  intros w. unfold call_create_index. destruct (create_index c f u (db w)).
  simpl. rewrite fallback_taken_snoc. by rewrite orb_false_r.
Qed.

Lemma quiet_for_each {B} (l : list B) (body : B → Eff (world S) unit) :
  (∀ x, quiet S (body x)) → quiet S (for_each l body).
Proof.
  intros Hbody. induction l as [|x l IH]; simpl; [apply quiet_ret|].
  apply quiet_bind; [done|]. by intros _.
Qed.

Ltac quiet_step :=
  lazymatch goal with
  | |- quiet _ (mret _) => apply quiet_ret
  | |- quiet _ (raise _) => apply quiet_raise
  | |- quiet _ (lift _) => apply quiet_lift
  | |- quiet _ (logger _ _) => apply quiet_logger
  | |- quiet _ (emit _) => apply quiet_emit; discriminate
  | |- quiet _ (call_insert_many _ _) => apply quiet_insert_many
  | |- quiet _ (call_create_index _ _ _) => apply quiet_create_index
  | |- quiet _ (mbind _ _) => apply quiet_bind; [|intros ?]
  | |- quiet _ (try_except _ _) => apply quiet_try; [|intros ?]
  | |- quiet _ (for_each _ _) => apply quiet_for_each; intros ?
  | |- quiet _ (match ?x with _ => _ end) => destruct x
  | |- quiet _ (if ?x then _ else _) => destruct x
  end.

Lemma quiet_cargar_en_mongodb (df : DataFrame) (c : string) (n : nat) :
  quiet S (cargar_en_mongodb df c n).
Proof.
  unfold cargar_en_mongodb. repeat quiet_step.
  - unfold cargar_lote. repeat quiet_step.
  - unfold crear_indices. repeat quiet_step.
Qed.

Lemma quiet_procesar_chunks (c : string) (f : DataFrame → result DataFrame)
    (chunks : list DataFrame) (total : nat) :
  quiet S (procesar_chunks c f chunks total).
Proof.
  revert total. induction chunks as [|chunk rest IH]; intros total; simpl.
  - apply quiet_ret.
  - repeat quiet_step; [apply quiet_cargar_en_mongodb|apply IH].
Qed.

Lemma quiet_metodo_principal (src : csv_source) (c : string)
    (f : DataFrame → result DataFrame) :
  quiet S (metodo_principal src c f).
Proof.
  unfold metodo_principal, open_chunks.
  repeat quiet_step; apply quiet_procesar_chunks.
Qed.

Lemma metodo_principal_true (src : csv_source) (c : string)
    (f : DataFrame → result DataFrame) (w w' : world S) (b : bool) :
  metodo_principal src c f w = (Ok b, w') → b = true.
Proof.
  unfold metodo_principal, mbind, eff_bind, mret, eff_ret, raise.
  repeat match goal with
         | |- context [match ?m ?w with _ => _ end] =>
             destruct (m w) as [[?|?] ?]; try done
         end.
  destruct (_.2); [done|].
  repeat match goal with
         | |- context [match ?m ?w with _ => _ end] =>
             destruct (m w) as [[?|?] ?]; try done
         end.
  by intros [= <- _].
Qed.

Lemma metodo_alternativo_taken (src : csv_source) (c : string)
    (f : DataFrame → result DataFrame) (w : world S) :
  fallback_taken (trace (metodo_alternativo src c f w).2) = true.
Proof.
  unfold metodo_alternativo.
  set (k := λ _ : unit, _). unfold mbind, eff_bind. simpl.
  assert (quiet S (k tt)) as Hk.
  { unfold k. repeat quiet_step. apply quiet_cargar_en_mongodb. }
  specialize (Hk (World (db w) (trace w ++ [EReadWholeFile]))).
  simpl in Hk. rewrite fallback_taken_snoc, orb_true_r in Hk.
  destruct (k tt _) as [[?|?] ?]; done.
Qed.
End driver.

(** C4, as the code has it.  The fallback whole-file path is taken exactly
    when the chunked path raises, whatever raised in it: the schema sniff,
    the chunk reader, the transform or the load (a connection error
    included).  When the chunked path returns, the file is done and the
    fallback is not read; when it raises, the fallback runs on the state
    the chunked path left, and an error reaches the caller only if the
    fallback raises it. *)
Theorem fallback_taken_on_any_error (S : Type) (H : DocumentStore S)
    (J : JsonEnv) (src : csv_source) (collection_name : string)
    (funcion_transformacion : DataFrame → result DataFrame) (w : world S) :
  fallback_taken (trace w) = false →
  let w0 := World (db w) (trace w ++ [ELog INFO "Procesando archivo"]) in
  let run := procesar_archivo_csv src collection_name funcion_transformacion w in
  match metodo_principal src collection_name funcion_transformacion w0 with
  | (Ok _, w1) => run = (Ok true, w1) ∧ fallback_taken (trace run.2) = false
  | (Raise e, w1) =>
      let w2 := World (db w1)
                  ((trace w1 ++ [ELog ERROR "Error al procesar el archivo"])
                   ++ [ELog INFO "Intentando metodo alternativo de lectura"]) in
      let alt := metodo_alternativo src collection_name funcion_transformacion w2 in
      fallback_taken (trace run.2) = true ∧
      (∀ b, alt.1 = Ok b → run = alt) ∧
      (∀ e2, run.1 = Raise e2 ↔ alt.1 = Raise e2)
  end.
Proof.
  intros Hw. cbv zeta.
  unfold procesar_archivo_csv, mbind, eff_bind, try_except.
  cbn [logger emit].
  set (w0 := World (db w) (trace w ++ [ELog INFO "Procesando archivo"])).
  pose proof (quiet_metodo_principal src collection_name funcion_transformacion w0)
    as Hquiet.
  destruct (metodo_principal src collection_name funcion_transformacion w0)
    as [[b|e] w1] eqn:Emain.
  - apply metodo_principal_true in Emain as ->. simpl in *.
    split; [done|]. rewrite Hquiet. unfold w0. simpl.
    by rewrite fallback_taken_snoc, Hw.
  - simpl.
    set (w2 := World (db w1) _).
    pose proof (metodo_alternativo_taken src collection_name
                  funcion_transformacion w2) as Halt.
    destruct (metodo_alternativo src collection_name funcion_transformacion w2)
      as [[b|e2] w3]; simpl in *.
    + split; [done|]. split; [done|]. intros e2. split; intros [=].
    + split.
      * rewrite fallback_taken_snoc, Halt. done.
      * split; [by intros b [=]|]. intros e3. done.
Qed.

Lemma fallback_taken_on_any_error_witness :
  let w := World (Mongo [] [] []) [] in
  let run := procesar_archivo_csv broken_source "playlists"
               transformar_playlists w in
  fallback_taken (trace w) = false ∧
  fallback_taken (trace run.2) = true ∧ run.1 = Ok true.
Proof.
  cbv zeta. split; [reflexivity|].
  pose proof (fallback_taken_on_any_error mongo _ example_json broken_source "playlists"
                transformar_playlists (World (Mongo [] [] []) []) eq_refl) as T.
  vm_compute in T. destruct T as (T1 & _ & _).
  split; [exact T1|]. vm_compute. reflexivity.
Defined.

(** C4, counterexample: the file parses without any error, the server is
    unreachable for the first write only.  The chunked path raises the
    connection error; the driver does not pass it on: it reads the whole
    file again, loads it a second time and returns success. *)
Lemma connection_error_is_retried :
  let w := World (Mongo [] [] [true]) [] in
  let w0 := World (db w) (trace w ++ [ELog INFO "Procesando archivo"]) in
  let run := procesar_archivo_csv clean_source "playlists"
               transformar_playlists w in
  (metodo_principal clean_source "playlists" transformar_playlists w0).1
    = Raise ConnectionFailure ∧
  fallback_taken (trace run.2) = true ∧
  run.1 = Ok true ∧
  length (inserted_batches (trace run.2)) = 2%nat ∧
  length (stored (db run.2)) = 2%nat.
Proof. vm_compute. done. Qed.

(* ================================================================== *)
(** * Part III: further properties of the code *)
(* ================================================================== *)

(** ** Lengths and the median of one column *)

Lemma loc_set_nan_length (mask : list bool) (xs : list (option Q)) :
  length mask = length xs → length (loc_set_nan mask xs) = length xs.
Proof. intros Hlen. unfold loc_set_nan. rewrite length_zip_with. lia. Qed.

Lemma fillna_length (m : option Q) (xs : list (option Q)) :
  length (fillna m xs) = length xs.
Proof. destruct m; simpl; [by rewrite length_fmap|done]. Qed.

Lemma suppress_outliers_length (c : column) :
  col_len (suppress_outliers c) = col_len c.
Proof.
  destruct c as [xs| | | |]; try done. simpl.
  rewrite fillna_length. apply loc_set_nan_length.
  unfold outlier_mask. by rewrite length_fmap.
Qed.


(** ** The shape of the cleaned batch *)

Lemma same_length_nrows (k : nat) (df : DataFrame) :
  Forall (λ nc, col_len nc.2 = k) df → df ≠ [] → nrows df = k.
Proof. intros Hall Hne. destruct Hall as [|[n c] df Hc _]; done. Qed.

Lemma same_length_wf (k : nat) (df : DataFrame) :
  NoDup (columns df) → Forall (λ nc, col_len nc.2 = k) df → wf df.
Proof.
  intros Hnd Hall. split; [done|].
  destruct df as [|nc df]; [done|].
  by rewrite (same_length_nrows k) by done.
Qed.

Lemma col_select_length (mask : list bool) (c : column) :
  col_len c = length mask → col_len (col_select mask c) = count_true mask.
Proof. destruct c; simpl; apply mask_select_length. Qed.

Lemma same_length_drop_duplicates (df : DataFrame) :
  wf df →
  Forall (λ nc, col_len nc.2 = count_true (negb <$> duplicated df))
    (drop_duplicates df).
Proof.
  intros [_ Hlen]. unfold drop_duplicates. apply Forall_fmap.
  eapply Forall_impl; [exact Hlen|]. intros [n c] Hc. simpl in *.
  apply col_select_length. by rewrite length_fmap, duplicated_length.
Qed.

Lemma same_length_set_col (k : nat) (n : string) (c : column) (df : DataFrame) :
  col_len c = k → Forall (λ nc, col_len nc.2 = k) df →
  Forall (λ nc, col_len nc.2 = k) (set_col n c df).
Proof.
  intros Hc. induction 1 as [|[m c0] df Hc0 Hdf IH]; simpl.
  - by repeat constructor.
  - destruct (String.eqb m n); by constructor.
Qed.

Lemma same_length_update_col (k : nat) (f : column → column) (col : string)
    (df : DataFrame) :
  (∀ c, col_len (f c) = col_len c) → Forall (λ nc, col_len nc.2 = k) df →
  Forall (λ nc, col_len nc.2 = k) (update_col f df col).
Proof.
  intros Hf Hall. unfold update_col.
  destruct (get_col col df) as [c|] eqn:E; [|done].
  apply same_length_set_col; [|done]. rewrite Hf.
  apply get_col_elem in E. by eapply Forall_forall in Hall; [|exact E].
Qed.

Lemma same_length_fold_update (k : nat) (f : column → column)
    (cols : list string) (df : DataFrame) :
  (∀ c, col_len (f c) = col_len c) → Forall (λ nc, col_len nc.2 = k) df →
  Forall (λ nc, col_len nc.2 = k) (fold_left (update_col f) cols df).
Proof.
  intros Hf. revert df. induction cols as [|col cols IH]; intros df Hall; [done|].
  simpl. by apply IH, same_length_update_col.
Qed.

Lemma fillna_str_length (v : pystr) (c : column) :
  col_len (fillna_str v c) = col_len c.
Proof.
  destruct c as [xs|xs| | |]; simpl; try done.
  - destruct (forallb _ xs); simpl; [done|by rewrite length_fmap].
  - by rewrite length_fmap.
Qed.

Lemma obj_numbers_length (os : list pyobj) (xs : list (option Q)) :
  obj_numbers os = Ok xs → length xs = length os.
Proof.
  revert xs. induction os as [|o os IH]; intros xs; simpl.
  - by intros [= <-].
  - destruct (obj_number o), (obj_numbers os); try done.
    intros [= <-]. simpl. f_equal. by apply IH.
Qed.

Lemma cut_length (c cat : column) (bins : list Q) (labels : list string) :
  cut c bins labels = Ok cat → col_len cat = col_len c.
Proof.
  destruct c as [xs|os|bs| |]; simpl; try done.
  - intros [= <-]. simpl. by rewrite length_fmap.
  - destruct (obj_numbers os) as [xs|] eqn:E; [|done].
    intros [= <-]. simpl. rewrite length_fmap. by apply obj_numbers_length.
  - intros [= <-]. simpl. by rewrite length_fmap.
Qed.

Lemma columns_set_col_new (n : string) (c : column) (df : DataFrame) :
  n ∉ columns df → columns (set_col n c df) = columns df ++ [n].
Proof.
  unfold columns. induction df as [|[m c0] df IH]; csimpl; [done|].
  rewrite not_elem_of_cons. intros [Hne Hin].
  destruct (String.eqb_spec m n) as [->|_]; [done|]. csimpl. by rewrite IH.
Qed.

Lemma count_true_first_occurrences (df : DataFrame) :
  count_true (negb <$> duplicated df) = length (first_occurrences (rows df)).
Proof.
  unfold first_occurrences, duplicated.
  rewrite (duplicated_from_spec [] []) by done. simpl.
  symmetry. apply mask_select_length. by rewrite length_fmap, length_seq.
Qed.

(** The steps of the track transform before the category is added. *)
Lemma tracks_cleaned_shape (df : DataFrame) :
  wf df →
  let df1 := drop_duplicates df in
  let df2 := update_col (fillna_str (py "Unknown Track")) df1 "track_name" in
  let df3 := update_col (fillna_str (py "Unknown Artist")) df2 "artist_name" in
  let df4 := fold_left (update_col suppress_outliers)
               (select_dtypes is_number df3) df3 in
  columns df4 = columns df ∧
  Forall (λ nc, col_len nc.2 = count_true (negb <$> duplicated df)) df4.
Proof.
  intros Hwf. cbv zeta. split.
  - rewrite columns_fold_update, !columns_update_col.
    unfold drop_duplicates. by rewrite columns_fmap.
  - apply same_length_fold_update; [apply suppress_outliers_length|].
    do 2 (apply same_length_update_col; [apply fillna_str_length|]).
    by apply same_length_drop_duplicates.
Qed.

(** X4.  The track transform keeps the frame a frame: the columns of the input
    in their order, followed by [popularity_category] when the batch has a
    [popularity] column and the category column is new; one length for all
    columns, the number of first occurrences among the input rows. *)
Theorem tracks_output_shape (df out : DataFrame) :
  wf df → limpiar_y_transformar_tracks df = Ok out →
  wf out ∧
  nrows out = length (first_occurrences (rows df)) ∧
  columns out =
    if decide ("popularity" ∈ columns df ∧ "popularity_category" ∉ columns df)
    then columns df ++ ["popularity_category"] else columns df.
Proof.
  intros Hwf Hrun.
  destruct (tracks_cleaned_shape df Hwf) as [Hcols Hlen]. cbv zeta in Hcols, Hlen.
  unfold limpiar_y_transformar_tracks in Hrun.
  set (df4 := fold_left _ _ _) in *.
  rewrite <- count_true_first_occurrences.
  set (k := count_true (negb <$> duplicated df)) in *.
  assert (df = [] → k = 0%nat) as Hempty by (by intros ->).
  assert (columns out =
    (if decide ("popularity" ∈ columns df ∧ "popularity_category" ∉ columns df)
     then columns df ++ ["popularity_category"] else columns df) ∧
    Forall (λ nc, col_len nc.2 = k) out) as [Hout Hk].
  { unfold add_popularity_category in Hrun.
    destruct (get_col "popularity" df4) as [c|] eqn:E.
    - destruct (cut c popularity_bins popularity_labels) as [cat|] eqn:Hcut;
        [|done].
      injection Hrun as <-.
      assert ("popularity" ∈ columns df) as Hpop.
      { rewrite <- Hcols.
        destruct (decide ("popularity" ∈ columns df4)) as [|Hno]; [done|].
        apply get_col_none in Hno. congruence. }
      split.
      + case_decide as Hd.
        * rewrite columns_set_col_new; rewrite Hcols; [done|apply Hd].
        * rewrite columns_set_col; [done|]. rewrite Hcols.
          destruct (decide ("popularity_category" ∈ columns df)); [done|].
          destruct Hd. done.
      + apply same_length_set_col; [|done].
        rewrite (cut_length _ _ _ _ Hcut).
        apply get_col_elem in E. by eapply Forall_forall in Hlen; [|exact E].
    - injection Hrun as <-. split; [|done].
      rewrite decide_False; [done|]. intros [Hpop _].
      rewrite <- Hcols in Hpop. by apply get_col_none in E. }
  assert (NoDup (columns out)) as Hnd.
  { rewrite Hout. destruct Hwf as [Hnd _]. case_decide as Hd; [|done].
    apply NoDup_app. split; [done|]. split; [|apply NoDup_singleton].
    intros x Hx ->%list_elem_of_singleton. by apply Hd. }
  split; [by apply (same_length_wf k)|]. split; [|done].
  destruct out as [|nc out]; [|by apply (same_length_nrows k)].
  simpl. symmetry. apply Hempty.
  destruct df as [|? ?]; [done|]. by case_decide.
Qed.

Lemma tracks_output_shape_witness :
  let df := [("track_name", ObjCol [OStr (py "a"); OStr (py "a"); ONaN]);
             ("popularity", NumCol (nums [10; 10; 50]%Q))] in
  let out := [("track_name", ObjCol [OStr (py "a"); OStr (py "Unknown Track")]);
              ("popularity", NumCol (nums [10; 50]%Q));
              ("popularity_category", CatCol [Some "Very Low"; Some "Medium"])] in
  wf df ∧ limpiar_y_transformar_tracks df = Ok out ∧
  wf out ∧ nrows out = 2%nat ∧
  columns out = ["track_name"; "popularity"; "popularity_category"].
Proof.
  cbv zeta.
  assert (wf [("track_name", ObjCol [OStr (py "a"); OStr (py "a"); ONaN]);
              ("popularity", NumCol (nums [10; 10; 50]%Q))]) as Hwf.
  { split; [unfold columns; compute_done|by repeat constructor]. }
  split; [exact Hwf|]. split; [vm_compute; reflexivity|].
  refine (tracks_output_shape _ _ Hwf _). vm_compute. reflexivity.
Defined.

(** ** The track transform, column by column *)

Lemma tracks_get_col (df out : DataFrame) (n : string) :
  wf df → limpiar_y_transformar_tracks df = Ok out →
  n ≠ "popularity_category" →
  get_col n out = track_column (negb <$> duplicated df) n <$> get_col n df.
Proof.
  intros [Hnd _] Hrun Hn. unfold limpiar_y_transformar_tracks in Hrun.
  set (df1 := drop_duplicates df) in *.
  set (df2 := update_col _ df1 "track_name") in *.
  set (df3 := update_col _ df2 "artist_name") in *.
  set (df4 := fold_left _ _ df3) in *.
  assert (get_col n out = get_col n df4) as ->.
  { unfold add_popularity_category in Hrun.
    destruct (get_col "popularity" df4) as [c|]; [|by injection Hrun as <-].
    destruct (cut c popularity_bins popularity_labels) as [cat|]; [|done].
    injection Hrun as <-. rewrite get_set_col. by rewrite decide_False. }
  unfold df4. rewrite get_fold_update_dtype.
  - unfold df3, df2. rewrite !get_update_col.
    unfold df1, drop_duplicates. rewrite get_col_fmap.
    destruct (get_col n df) as [c|]; simpl.
    2:{ by repeat case_decide. }
    unfold track_column. f_equal.
    repeat case_decide; subst; done.
  - unfold df3, df2, df1, drop_duplicates.
    by rewrite !columns_update_col, columns_fmap.
  - by intros [].
Qed.

(** ** The name columns of the tracks *)

Lemma col_select_csv (mask : list bool) (c : column) :
  csv_column (col_select mask c) = csv_column c.
Proof. by destruct c. Qed.

Lemma fillna_str_no_null (v : pystr) (c : column) :
  csv_column c = true → Forall (λ x, x ≠ CNull) (cells (fillna_str v c)).
Proof.
  destruct c as [xs|xs|xs| |]; try done; intros _.
  - cbn [fillna_str].
    destruct (forallb _ xs) eqn:Hall.
    + simpl. apply Forall_fmap, Forall_forall. intros [x|] Hx; [done|].
      rewrite forallb_forall in Hall. apply list_elem_of_In, Hall in Hx.
      apply bool_decide_eq_true in Hx. by destruct Hx.
    + simpl. rewrite <- !list_fmap_compose. apply Forall_fmap, Forall_forall.
      by intros [x|] _.
  - simpl. rewrite <- !list_fmap_compose. apply Forall_fmap, Forall_forall.
    by intros [] _.
  - simpl. apply Forall_fmap, Forall_forall. by intros b _.
Qed.

Lemma suppress_outliers_no_null (c : column) :
  Forall (λ x, x ≠ CNull) (cells c) →
  Forall (λ x, x ≠ CNull) (cells (suppress_outliers c)).
Proof.
  destruct c as [xs| | | |]; try done. intros Hall.
  destruct xs as [|[v|] xs].
  - by vm_compute.
  - destruct (suppress_outliers_filled (Some v :: xs) v) as (ys & -> & Hys).
    { apply elem_of_cons. by left. }
    simpl. apply Forall_fmap. eapply Forall_impl; [exact Hys|].
    by intros y [w ->].
  - simpl in Hall. by apply Forall_cons_1 in Hall as [? _].
Qed.

(** X5.  In the output of the track transform the fields [track_name] and
    [artist_name] are never null: the column is the deduplicated input
    column with every missing name replaced by the text [Unknown Track]
    or [Unknown Artist] (and, when it is a column of numbers without a
    missing one, passed through the outlier step as the other numeric
    columns). *)
Theorem tracks_names_not_null (df out : DataFrame) (n : string) (c : column) :
  csv_frame df → limpiar_y_transformar_tracks df = Ok out →
  n = "track_name" ∨ n = "artist_name" →
  get_col n out = Some c →
  Forall (λ x, x ≠ CNull) (cells c) ∧
  ∃ c0, get_col n df = Some c0 ∧
        c = suppress_outliers
              (fillna_str (if decide (n = "track_name") then py "Unknown Track"
                           else py "Unknown Artist")
                 (col_select (negb <$> duplicated df) c0)).
Proof.
  intros [Hwf Hcsv] Hrun Hn Hout.
  rewrite (tracks_get_col df out n Hwf Hrun) in Hout by (by destruct Hn as [->| ->]).
  destruct (get_col n df) as [c0|] eqn:E; [|done].
  injection Hout as <-.
  assert (track_column (negb <$> duplicated df) n c0 =
          suppress_outliers
            (fillna_str (if decide (n = "track_name") then py "Unknown Track"
                         else py "Unknown Artist")
               (col_select (negb <$> duplicated df) c0))) as ->.
  { unfold track_column. destruct Hn as [-> | ->]; repeat case_decide; done. }
  split; [|eauto].
  apply suppress_outliers_no_null, fillna_str_no_null.
  rewrite col_select_csv.
  apply get_col_elem in E. by eapply Forall_forall in Hcsv; [|exact E].
Qed.

Lemma tracks_names_not_null_witness :
  let df := [("track_name", ObjCol [OStr (py "a"); ONaN]);
             ("artist_name", NumCol [Some 7%Q; None])] in
  let out := [("track_name", ObjCol [OStr (py "a"); OStr (py "Unknown Track")]);
              ("artist_name", ObjCol [ONum 7%Q; OStr (py "Unknown Artist")])] in
  csv_frame df ∧ limpiar_y_transformar_tracks df = Ok out ∧
  Forall (λ x, x ≠ CNull) [CNum 7%Q; CStr (py "Unknown Artist")].
Proof.
  cbv zeta.
  assert (csv_frame [("track_name", ObjCol [OStr (py "a"); ONaN]);
                     ("artist_name", NumCol [Some 7%Q; None])]) as Hcsv.
  { split; [split|]; [unfold columns; compute_done|by repeat constructor..]. }
  split; [exact Hcsv|]. split; [vm_compute; reflexivity|].
  refine (proj1 (tracks_names_not_null _
                   [("track_name", ObjCol [OStr (py "a"); OStr (py "Unknown Track")]);
                    ("artist_name", ObjCol [ONum 7%Q; OStr (py "Unknown Artist")])]
                   "artist_name"
                   (ObjCol [ONum 7%Q; OStr (py "Unknown Artist")])
                   Hcsv _ (or_intror eq_refl) eq_refl)).
  vm_compute. reflexivity.
Defined.

Lemma tracks_returns_witness :
  let df := [("popularity", NumCol (nums [10; 50]%Q))] in
  wf df ∧ ∃ out, limpiar_y_transformar_tracks df = Ok out.
Proof.
  cbv zeta.
  assert (wf [("popularity", NumCol (nums [10; 50]%Q))]) as Hwf.
  { split; [unfold columns; compute_done|by repeat constructor]. }
  split; [exact Hwf|].
  refine (tracks_returns _ Hwf _).
  intros c. vm_compute. by intros [= <-].
Defined.

Lemma tracks_numeric_column_kept_witness :
  let df := [("tempo", NumCol (nums [120; 120; 90]%Q))] in
  let out := [("tempo", NumCol (nums [120; 90]%Q))] in
  wf df ∧ limpiar_y_transformar_tracks df = Ok out ∧
  get_col "tempo" out =
    Some (suppress_outliers
            (NumCol (mask_select (negb <$> duplicated df)
                       (nums [120; 120; 90]%Q)))).
Proof.
  cbv zeta.
  assert (wf [("tempo", NumCol (nums [120; 120; 90]%Q))]) as Hwf.
  { split; [unfold columns; compute_done|by repeat constructor]. }
  split; [exact Hwf|]. split; [vm_compute; reflexivity|].
  refine (tracks_numeric_column_kept _ _ "tempo" _ Hwf _ eq_refl _ _ _);
    [vm_compute; reflexivity|discriminate..].
Defined.

(** ** The outlier step stays within the range of the column *)



(** ** The popularity categories *)

(** X7.  The five categories are the intervals (0, 20], (20, 40], (40, 60],
    (60, 80] and (80, 100], and a popularity outside (0, 100] has none. *)
Theorem popularity_category_intervals (x : Q) :
  let category := cut_value popularity_bins popularity_labels (Some x) in
  (category = Some "Very Low" ↔ 0 < x ∧ x <= 20)%Q ∧
  (category = Some "Low" ↔ 20 < x ∧ x <= 40)%Q ∧
  (category = Some "Medium" ↔ 40 < x ∧ x <= 60)%Q ∧
  (category = Some "High" ↔ 60 < x ∧ x <= 80)%Q ∧
  (category = Some "Very High" ↔ 80 < x ∧ x <= 100)%Q ∧
  (category = None ↔ x <= 0 ∨ 100 < x)%Q.
Proof.
  cbv zeta. unfold cut_value, searchsorted_left, popularity_bins.
  rewrite !filter_cons, filter_nil.
  repeat case_decide; qle_bool_hyps; simpl;
    repeat split; intros; try done; try lra.
Qed.

Lemma tracks_category_column (df out : DataFrame) (c : column) :
  limpiar_y_transformar_tracks df = Ok out →
  get_col "popularity" out = Some c →
  ∃ cat, cut c popularity_bins popularity_labels = Ok cat ∧
         get_col "popularity_category" out = Some cat.
Proof.
  unfold limpiar_y_transformar_tracks, add_popularity_category.
  set (df4 := fold_left _ _ _).
  destruct (get_col "popularity" df4) as [c4|] eqn:E.
  - destruct (cut c4 popularity_bins popularity_labels) as [cat|] eqn:Hcut; [|done].
    intros [= <-]. rewrite !get_set_col.
    rewrite decide_False by done. rewrite decide_True by done.
    rewrite E. intros [= <-]. eauto.
  - intros [= <-]. by rewrite E.
Qed.

(** X8.  The category of a track is computed from the popularity the transform
    returns, after the outlier step, not from the one it read: in the
    output, the column [popularity_category] is, row by row, the bin of
    the column [popularity] next to it. *)
Theorem tracks_category_of_cleaned_popularity (df out : DataFrame)
    (xs : list (option Q)) :
  wf df → limpiar_y_transformar_tracks df = Ok out →
  get_col "popularity" df = Some (NumCol xs) →
  ∃ ys,
    suppress_outliers (NumCol (mask_select (negb <$> duplicated df) xs))
      = NumCol ys ∧
    get_col "popularity" out = Some (NumCol ys) ∧
    get_col "popularity_category" out =
      Some (CatCol (cut_value popularity_bins popularity_labels <$> ys)).
Proof.
  intros Hwf Hrun Hin.
  pose proof (tracks_get_col df out "popularity" Hwf Hrun) as Hpop.
  rewrite Hin in Hpop. specialize (Hpop ltac:(done)).
  unfold track_column in Hpop.
  destruct (decide ("popularity" = "track_name")) as [[=]|_].
  destruct (decide ("popularity" = "artist_name")) as [[=]|_].
  cbv zeta in Hpop. cbn [col_select fmap option_fmap option_map] in Hpop.
  set (zs := mask_select _ xs) in *.
  destruct (suppress_outliers (NumCol zs)) as [ys| | | |] eqn:E; try done.
  exists ys. split; [done|]. split; [done|].
  destruct (tracks_category_column df out _ Hrun Hpop) as (cat & Hcut & Hcat).
  simpl in Hcut. by injection Hcut as <-.
Qed.

(** ** The text and date columns of the playlists *)

Section playlist_columns.
Context `{PyEnv}.

Lemma strip_special_clean (s : pystr) :
  Forall (λ ch, is_word ch || is_space ch = true) (strip_special s).
Proof.
  apply Forall_forall. intros ch Hch.
  by apply list_elem_of_filter in Hch as [? _].
Qed.

Lemma strip_special_idemp (s : pystr) :
  strip_special (strip_special s) = strip_special s.
Proof. apply filter_all, strip_special_clean. Qed.

(** X9.  Every object column of the output of the playlist transform holds
    text only, and this text has no character outside the classes [\w]
    and [\s]: no punctuation, no symbol, no emoji. *)
Theorem playlists_text_has_no_special (df : DataFrame) (n : string)
    (ys : list pyobj) :
  wf df →
  get_col n (limpiar_y_transformar_playlists df) = Some (ObjCol ys) →
  Forall (λ o, ∃ s, o = OStr s ∧
                    Forall (λ ch, is_word ch || is_space ch = true) s) ys.
Proof.
  intros Hwf. rewrite playlists_get_col by done.
  destruct (get_col n df) as [c0|]; [|done]. simpl.
  unfold playlist_column. cbv zeta.
  set (c3 := if is_date_column n then _ else _).
  destruct c3 as [|xs| | |]; simpl; try done.
  intros [= <-]. apply Forall_fmap, Forall_forall. intros o _.
  eexists. split; [done|]. apply strip_special_clean.
Qed.


Hypothesis to_datetime_length :
  ∀ c ts, to_datetime c = Ok ts → length ts = col_len c.

Lemma parse_dates_length (c : column) : col_len (parse_dates c) = col_len c.
Proof.
  unfold parse_dates. destruct (to_datetime c) as [ts|] eqn:E; [|done].
  by apply to_datetime_length.
Qed.

Lemma clean_text_length (c : column) : col_len (clean_text c) = col_len c.
Proof. destruct c; simpl; try done. by rewrite length_fmap. Qed.

(** X11.  The playlist transform keeps the frame a frame, provided
    [to_datetime] returns as many entries as it is given: the columns of
    the input in their order, all of one length, the number of first
    occurrences among the input rows. *)
Theorem playlists_output_shape (df : DataFrame) :
  wf df →
  let out := limpiar_y_transformar_playlists df in
  wf out ∧
  nrows out = length (first_occurrences (rows df)) ∧
  columns out = columns df.
Proof.
  intros Hwf. cbv zeta. unfold limpiar_y_transformar_playlists.
  set (df1 := drop_duplicates df).
  set (df2 := update_col _ df1 "name").
  set (df3 := fold_left (update_col parse_dates) _ df2).
  set (df4 := fold_left (update_col clean_text) _ df3).
  rewrite <- count_true_first_occurrences.
  set (k := count_true (negb <$> duplicated df)).
  assert (columns df4 = columns df) as Hcols.
  { unfold df4, df3, df2, df1, drop_duplicates.
    by rewrite !columns_fold_update, columns_update_col, columns_fmap. }
  assert (Forall (λ nc, col_len nc.2 = k) df4) as Hlen.
  { apply same_length_fold_update; [apply clean_text_length|].
    apply same_length_fold_update; [apply parse_dates_length|].
    apply same_length_update_col; [apply fillna_str_length|].
    by apply same_length_drop_duplicates. }
  split; [|split; [|done]].
  - apply (same_length_wf k); [|done]. rewrite Hcols. apply Hwf.
  - destruct df4 as [|nc df4'] eqn:E; [|by apply (same_length_nrows k)].
    destruct df as [|? ?]; done.
Qed.
End playlist_columns.

Lemma tracks_category_of_cleaned_popularity_witness :
  let df := [("popularity", NumCol (nums [0; 10; 10; 50]%Q))] in
  let out := [("popularity", NumCol (nums [0; 10; 50]%Q));
              ("popularity_category",
               CatCol [None; Some "Very Low"; Some "Medium"])] in
  wf df ∧ limpiar_y_transformar_tracks df = Ok out ∧
  ∃ ys,
    suppress_outliers
      (NumCol (mask_select (negb <$> duplicated df) (nums [0; 10; 10; 50]%Q)))
      = NumCol ys ∧
    get_col "popularity" out = Some (NumCol ys) ∧
    get_col "popularity_category" out =
      Some (CatCol (cut_value popularity_bins popularity_labels <$> ys)).
Proof.
  cbv zeta.
  assert (wf [("popularity", NumCol (nums [0; 10; 10; 50]%Q))]) as Hwf.
  { split; [unfold columns; compute_done|by repeat constructor]. }
  split; [exact Hwf|]. split; [vm_compute; reflexivity|].
  refine (tracks_category_of_cleaned_popularity _ _ _ Hwf _ eq_refl).
  vm_compute. reflexivity.
Defined.

Lemma playlists_text_has_no_special_witness :
  let df := [("name", ObjCol [OStr (py "Rock & Roll!"); ONaN])] in
  let ys := [OStr (py "Rock  Roll"); OStr (py "Unknown Playlist")] in
  wf df ∧
  get_col "name" (@limpiar_y_transformar_playlists example_env df)
    = Some (ObjCol ys) ∧
  Forall (λ o, ∃ s, o = OStr s ∧
                    Forall (λ ch, @is_word example_env ch || is_space ch = true) s)
    ys.
Proof.
  cbv zeta.
  assert (wf [("name", ObjCol [OStr (py "Rock & Roll!"); ONaN])]) as Hwf.
  { split; [unfold columns; compute_done|by repeat constructor]. }
  split; [exact Hwf|]. split; [vm_compute; reflexivity|].
  refine (@playlists_text_has_no_special example_env _ "name" _ Hwf _).
  vm_compute. reflexivity.
Defined.


Lemma playlists_output_shape_witness :
  let df := [("id", NumCol (nums [1; 1; 2]%Q));
             ("name", ObjCol [ONaN; ONaN; OStr (py "Chill")])] in
  let out := @limpiar_y_transformar_playlists example_env df in
  (∀ c ts, @to_datetime example_env c = Ok ts → length ts = col_len c) ∧
  wf df ∧ wf out ∧ nrows out = 2%nat ∧ columns out = ["id"; "name"].
Proof.
  cbv zeta.
  assert (∀ c ts, @to_datetime example_env c = Ok ts → length ts = col_len c)
    as Hlen.
  { intros c ts [= <-]. by rewrite length_fmap, cells_length. }
  assert (wf [("id", NumCol (nums [1; 1; 2]%Q));
              ("name", ObjCol [ONaN; ONaN; OStr (py "Chill")])]) as Hwf.
  { split; [unfold columns; compute_done|by repeat constructor]. }
  split; [exact Hlen|]. split; [exact Hwf|].
  exact (@playlists_output_shape example_env Hlen _ Hwf).
Defined.

(** ** Duplicate removal loses no row *)

(** X12.  Every row of the batch is still represented after duplicate removal:
    the result holds a row equal to it. *)
Theorem drop_duplicates_represents_every_row (df : DataFrame) (r : row) :
  wf df → r ∈ rows df →
  ∃ r', r' ∈ rows (drop_duplicates df) ∧ row_eqb r r' = true.
Proof.
  intros Hwf Hr.
  destruct (duplicated_from_repr [] (rows df) r Hr) as (r' & Heq & [Hin|Hin]).
  { by apply elem_of_nil in Hin. }
  exists r'. split; [|done]. by rewrite rows_drop_duplicates.
Qed.

(** ** The frame a transform returns *)

(** X13.  A transform returns a reference to a frame object that did not exist
    before the call, so it is neither the caller's frame nor any other
    frame alive, and this object holds the cleaned batch. *)
Theorem transforms_return_new_frame `{PyEnv} (h : gmap positive DataFrame)
    (l : positive) (df : DataFrame) :
  h !! l = Some df →
  ∃ l', h !! l' = None ∧ l' ≠ l ∧
    Obj.limpiar_y_transformar_playlists l h =
      (Ok l', <[l' := limpiar_y_transformar_playlists df]> h) ∧
    ∀ out, limpiar_y_transformar_tracks df = Ok out →
           Obj.limpiar_y_transformar_tracks l h = (Ok l', <[l' := out]> h).
Proof.
  intros Hl. exists (fresh (dom h)).
  assert (h !! fresh (dom h) = None) as Hfresh.
  { apply not_elem_of_dom, is_fresh. }
  split; [done|]. split; [congruence|].
  split; [by apply obj_playlists_run|].
  intros out Hout.
  destruct (obj_tracks_run h l df Hl) as (d & -> & Hd).
  rewrite Hout. by rewrite (Hd out).
Qed.

Lemma drop_duplicates_represents_every_row_witness :
  let df := [("id", NumCol (nums [1; 1; 2]%Q))] in
  wf df ∧ [CNum 1%Q] ∈ rows df ∧
  ∃ r', r' ∈ rows (drop_duplicates df) ∧ row_eqb [CNum 1%Q] r' = true.
Proof.
  cbv zeta.
  assert (wf [("id", NumCol (nums [1; 1; 2]%Q))]) as Hwf.
  { split; [unfold columns; compute_done|by repeat constructor]. }
  assert ([CNum 1%Q] ∈ rows [("id", NumCol (nums [1; 1; 2]%Q))]) as Hin.
  { apply elem_of_cons. by left. }
  split; [exact Hwf|]. split; [exact Hin|].
  exact (drop_duplicates_represents_every_row _ _ Hwf Hin).
Defined.

Lemma drop_duplicates_distinct_witness :
  let df := [("id", NumCol (nums [1; 1; 2]%Q))] in
  wf df ∧
  rows (drop_duplicates df) !! 0%nat = Some [CNum 1%Q] ∧
  rows (drop_duplicates df) !! 1%nat = Some [CNum 2%Q] ∧
  row_eqb [CNum 2%Q] [CNum 1%Q] = false.
Proof.
  cbv zeta.
  assert (wf [("id", NumCol (nums [1; 1; 2]%Q))]) as Hwf.
  { split; [unfold columns; compute_done|by repeat constructor]. }
  split; [exact Hwf|]. split; [reflexivity|]. split; [reflexivity|].
  exact (drop_duplicates_distinct _ 0 1 _ _ Hwf (Nat.lt_0_succ 0) eq_refl eq_refl).
Defined.

Lemma transforms_return_new_frame_witness :
  let df := [("name", ObjCol [OStr (py "a!"); OStr (py "a!")])] in
  let h : gmap positive DataFrame := {[ 1%positive := df ]} in
  h !! 1%positive = Some df ∧
  ∃ l', h !! l' = None ∧ l' ≠ 1%positive ∧
    @Obj.limpiar_y_transformar_playlists example_env 1%positive h =
      (Ok l', <[l' := @limpiar_y_transformar_playlists example_env df]> h) ∧
    ∀ out, limpiar_y_transformar_tracks df = Ok out →
           Obj.limpiar_y_transformar_tracks 1%positive h = (Ok l', <[l' := out]> h).
Proof.
  cbv zeta. split; [apply lookup_singleton_eq|].
  apply (@transforms_return_new_frame example_env).
  apply lookup_singleton_eq.
Defined.

(** ** The loader on any store *)

Section any_store.
Context {S : Type} `{DocumentStore S} `{JsonEnv}.

Section views.
Context {X : Type} (view : list event → X).

Lemma unseen_ret {A} (a : A) : unseen_by (S:=S) view (mret a).
Proof. by intros w. Qed.

Lemma unseen_raise {A} (e : exn) : unseen_by (S:=S) view (raise (A:=A) e).
Proof. by intros w. Qed.

Lemma unseen_bind {A B} (m : Eff (world S) A) (f : A → Eff (world S) B) :
  unseen_by view m → (∀ a, unseen_by view (f a)) → unseen_by view (m ≫= f).
Proof.
  intros Hm Hf w. unfold mbind, eff_bind. specialize (Hm w).
  destruct (m w) as [[a|e] w1]; simpl in *; [|done].
  by rewrite Hf.
Qed.

Lemma unseen_try {A} (m : Eff (world S) A) (h : exn → Eff (world S) A) :
  unseen_by view m → (∀ e, unseen_by view (h e)) → unseen_by view (try_except m h).
Proof.
  intros Hm Hh w. unfold try_except. specialize (Hm w).
  destruct (m w) as [[a|e] w1]; simpl in *; [done|].
  by rewrite Hh.
Qed.

Lemma unseen_for_each {B} (l : list B) (body : B → Eff (world S) unit) :
  (∀ x, unseen_by view (body x)) → unseen_by view (for_each l body).
Proof.
  intros Hbody. induction l as [|x l IH]; simpl; [apply unseen_ret|].
  apply unseen_bind; [done|]. by intros _.
Qed.
End views.

Lemma inserted_batches_snoc (t : list event) (e : event) :
  inserted_batches (t ++ [e]) =
  inserted_batches t ++ match e with EInsertMany _ b => [b] | _ => [] end.
Proof. unfold inserted_batches. rewrite omap_app. by destruct e. Qed.

Lemma created_indexes_snoc (t : list event) (e : event) :
  created_indexes (t ++ [e]) =
  created_indexes t ++ match e with ECreateIndex c f u => [(c, f, u)] | _ => [] end.
Proof. unfold created_indexes. rewrite omap_app. by destruct e. Qed.

Lemma logger_no_write (lv : level) (msg : string) :
  unseen_by (S:=S) inserted_batches (logger lv msg).
Proof. intros w. simpl. by rewrite inserted_batches_snoc, app_nil_r. Qed.

Lemma logger_no_index (lv : level) (msg : string) :
  unseen_by (S:=S) created_indexes (logger lv msg).
Proof. intros w. simpl. by rewrite created_indexes_snoc, app_nil_r. Qed.

Lemma create_index_no_write (c f : string) (u : bool) :
  unseen_by inserted_batches (call_create_index c f u).
Proof.
  intros w. unfold call_create_index. destruct (create_index c f u (db w)).
  simpl. by rewrite inserted_batches_snoc, app_nil_r.
Qed.

Lemma crear_indices_no_write (c : string) :
  unseen_by inserted_batches (crear_indices c).
Proof.
  unfold crear_indices.
  repeat first
    [ apply create_index_no_write
    | apply unseen_ret
    | apply unseen_bind; [|intros ?]
    | match goal with |- unseen_by _ (if ?b then _ else _) => destruct b end ].
Qed.

Lemma cargar_lote_no_index (c : string) (records : list record)
    (batch_size total i : nat) :
  unseen_by created_indexes (cargar_lote c records batch_size total i).
Proof.
  unfold cargar_lote. intros w.
  destruct (slice records _ _) as [|d b]; [done|].
  unfold try_except, call_insert_many.
  destruct (insert_many c (d :: b) false (db w)) as [[[]|e] s']; simpl.
  - by rewrite created_indexes_snoc, app_nil_r.
  - destruct e; simpl; rewrite ?created_indexes_snoc, ?app_nil_r; done.
Qed.

(** What one index declaration adds to the trace. *)
Lemma call_create_index_declares (c f : string) (u : bool) (w : world S) :
  created_indexes (trace (call_create_index c f u w).2) =
  created_indexes (trace w) ++ [(c, f, u)].
Proof.
  unfold call_create_index. destruct (create_index c f u (db w)).
  simpl. by rewrite created_indexes_snoc.
Qed.

Lemma crear_indices_declares (c : string) (w : world S) :
  ∃ declared,
    created_indexes (trace (crear_indices c w).2) =
      created_indexes (trace w) ++ declared ∧
    declared `prefix_of` indices_de c ∧
    ((crear_indices c w).1 = Ok tt → declared = indices_de c).
Proof.
  unfold crear_indices, indices_de.
  destruct (String.eqb c "playlists").
  { unfold mbind, eff_bind.
    pose proof (call_create_index_declares c "id" true w) as H1.
    destruct (call_create_index c "id" true w) as [[[]|e1] w1]; simpl in H1.
    - pose proof (call_create_index_declares c "name" false w1) as H2.
      destruct (call_create_index c "name" false w1) as [[[]|e2] w2];
        simpl in *; rewrite H2, H1, <- app_assoc;
        eexists; (split; [done|]); done.
    - simpl. rewrite H1. eexists. split; [done|].
      split; [by eexists|done]. }
  destruct (String.eqb c "tracks").
  { unfold mbind, eff_bind.
    pose proof (call_create_index_declares c "id" true w) as H1.
    destruct (call_create_index c "id" true w) as [[[]|e1] w1]; simpl in H1.
    - pose proof (call_create_index_declares c "artist_name" false w1) as H2.
      destruct (call_create_index c "artist_name" false w1) as [[[]|e2] w2];
        simpl in H2.
      + pose proof (call_create_index_declares c "track_name" false w2) as H3.
        destruct (call_create_index c "track_name" false w2) as [[[]|e3] w3];
          simpl in *; rewrite H3, H2, H1, <- !app_assoc;
          eexists; (split; [done|]); done.
      + simpl. rewrite H2, H1, <- app_assoc. eexists. split; [done|].
        split; [by eexists|done].
    - simpl. rewrite H1. eexists. split; [done|].
      split; [by eexists|done]. }
  exists []. simpl. by rewrite app_nil_r.
Qed.

(** The loop of the loader on any store: the sub-batches it sends are
    the first of the non-empty slices, all of them when it ends without
    raising. *)
Lemma cargar_lotes_any (c : string) (records : list record)
    (batch_size total : nat) (idxs : list nat) (w : world S) :
  let bs := filter (λ batch, batch ≠ [])
              ((λ i, slice records (i * batch_size)
                       (Nat.min ((i + 1) * batch_size) total)) <$> idxs) in
  ∃ r w' written,
    for_each idxs (cargar_lote c records batch_size total) w = (r, w') ∧
    inserted_batches (trace w') = inserted_batches (trace w) ++ written ∧
    written `prefix_of` bs ∧
    (r = Ok tt → written = bs).
Proof.
  revert w. induction idxs as [|i idxs IH]; intros w; cbv zeta.
  { exists (Ok tt), w, []. simpl. by rewrite app_nil_r. }
  csimpl. unfold mbind, eff_bind. unfold cargar_lote at 1.
  set (b := slice records (i * batch_size) (Nat.min ((i + 1) * batch_size) total)).
  set (rest := filter (λ batch, batch ≠ [])
                 ((λ i, slice records (i * batch_size)
                          (Nat.min ((i + 1) * batch_size) total)) <$> idxs)) in *.
  destruct b as [|d b'] eqn:Eb.
  - rewrite filter_cons_False by (by intros ?). unfold mret, eff_ret.
    apply IH.
  - rewrite filter_cons_True by done.
    unfold try_except, call_insert_many.
    destruct (insert_many c (d :: b') false (db w)) as [r s1].
    set (w1 := World s1 (trace w ++ [EInsertMany c (d :: b')])).
    assert (inserted_batches (trace w1) = inserted_batches (trace w) ++ [d :: b'])
      as Hw1 by (unfold w1; simpl; by rewrite inserted_batches_snoc).
    assert (∀ w2, inserted_batches (trace w2) = inserted_batches (trace w1) →
              ∃ r w' written,
                for_each idxs (cargar_lote c records batch_size total) w2 = (r, w') ∧
                inserted_batches (trace w') = inserted_batches (trace w) ++ written ∧
                written `prefix_of` (d :: b') :: rest ∧
                (r = Ok tt → written = (d :: b') :: rest))
      as Hrest.
    { intros w2 Hw2.
      destruct (IH w2) as (r' & w' & written & Hrun & Hins & Hpre & Hall).
      cbv zeta in *.
      exists r', w', ((d :: b') :: written). split; [done|].
      split; [by rewrite Hins, Hw2, Hw1, <- app_assoc|].
      split; [by apply prefix_cons|]. intros Hok. by rewrite Hall. }
    destruct r as [[]|e].
    + apply Hrest. done.
    + destruct e;
        try (eexists _, w1, [d :: b']; split; [done|]; split; [done|];
             split; [by apply prefix_cons, prefix_nil|done]).
      apply Hrest. simpl. by rewrite inserted_batches_snoc, app_nil_r.
Qed.

(** One run of the loader on any store. *)
Lemma cargar_en_mongodb_any (dataframe : DataFrame) (collection_name : string)
    (batch_size : nat) (w : world S) :
  let bs := lotes (to_records dataframe) batch_size in
  ∃ r w' written declared,
    cargar_en_mongodb dataframe collection_name batch_size w = (r, w') ∧
    inserted_batches (trace w') = inserted_batches (trace w) ++ written ∧
    created_indexes (trace w') = created_indexes (trace w) ++ declared ∧
    written `prefix_of` bs ∧
    declared `prefix_of` indices_de collection_name ∧
    (declared ≠ [] → written = bs) ∧
    (∀ b, r = Ok b →
          b = true ∧ written = bs ∧ declared = indices_de collection_name).
Proof.
  cbv zeta. unfold cargar_en_mongodb, try_except, mbind, eff_bind.
  cbn [logger emit].
  set (w1 := World (db w) (trace w ++ [ELog INFO "Cargando registros"])).
  assert (inserted_batches (trace w1) = inserted_batches (trace w)) as Hi1.
  { unfold w1. simpl. by rewrite inserted_batches_snoc, app_nil_r. }
  assert (created_indexes (trace w1) = created_indexes (trace w)) as Hc1.
  { unfold w1. simpl. by rewrite created_indexes_snoc, app_nil_r. }
  destruct (batch_size =? 0)%nat eqn:E0.
  { apply Nat.eqb_eq in E0. subst batch_size. unfold raise.
    eexists _, _, [], []. split; [done|]. simpl.
    rewrite inserted_batches_snoc, created_indexes_snoc, !app_nil_r.
    repeat split; try done; try apply prefix_nil. }
  unfold mret at 1, eff_ret at 1.
  set (idxs := seq 0 ((length (to_records dataframe) + batch_size - 1) / batch_size)).
  destruct (cargar_lotes_any collection_name (to_records dataframe) batch_size
              (length (to_records dataframe)) idxs w1)
    as (r2 & w2 & written & Hrun & Hi2 & Hpre & Hall).
  cbv zeta in Hpre, Hall.
  change (filter _ _) with (lotes (to_records dataframe) batch_size) in Hpre, Hall.
  pose proof (unseen_for_each created_indexes idxs
                _ (cargar_lote_no_index collection_name (to_records dataframe)
                     batch_size (length (to_records dataframe))) w1) as Hc2.
  rewrite Hrun in Hc2 |- *. cbn [snd] in Hc2.
  rewrite Hi1 in Hi2. rewrite Hc1 in Hc2.
  destruct r2 as [[]|e2].
  2:{ unfold raise. eexists _, _, written, []. split; [done|]. simpl.
      rewrite inserted_batches_snoc, created_indexes_snoc, !app_nil_r.
      repeat split; try done; apply prefix_nil. }
  destruct (crear_indices_declares collection_name w2)
    as (declared & Hc3 & Hdpre & Hdall).
  pose proof (crear_indices_no_write collection_name w2) as Hi3.
  destruct (crear_indices collection_name w2) as [[[]|e3] w3]; simpl in *.
  - eexists _, _, written, declared. split; [done|]. simpl.
    rewrite inserted_batches_snoc, created_indexes_snoc, !app_nil_r.
    rewrite Hi3, Hi2, Hc3, Hc2.
    do 4 (split; [done|]). split; [auto|]. intros b [= <-]. auto.
  - eexists _, _, written, declared. split; [done|]. simpl.
    rewrite inserted_batches_snoc, created_indexes_snoc, !app_nil_r.
    rewrite Hi3, Hi2, Hc3, Hc2.
    do 4 (split; [done|]). split; [auto|]. done.
Qed.

(** X14.  Whatever the store does, the loader sends the sub-batches of the
    batch in their order, each at most once: what it wrote when it
    returns or raises is a first part of the sub-batches, and all of them
    when it returns.  It then returns [True]. *)
Theorem loader_writes_in_order (dataframe : DataFrame) (collection_name : string)
    (batch_size : nat) (w : world S) :
  let run := cargar_en_mongodb dataframe collection_name batch_size w in
  let bs := lotes (to_records dataframe) batch_size in
  ∃ written,
    inserted_batches (trace run.2) = inserted_batches (trace w) ++ written ∧
    written `prefix_of` bs ∧
    (∀ b, run.1 = Ok b → b = true ∧ written = bs).
Proof.
  cbv zeta.
  destruct (cargar_en_mongodb_any dataframe collection_name batch_size w)
    as (r & w' & written & declared & -> & Hi & _ & Hpre & _ & _ & Hok).
  exists written. split; [done|]. split; [done|].
  intros b Hb. by destruct (Hok b Hb) as (? & ? & _).
Qed.

(** X15.  The indexes are declared after the last write and in a fixed order:
    [id] (unique) and [name] for the playlists, [id] (unique),
    [artist_name] and [track_name] for the tracks, none for another
    collection.  When a declaration is made, every sub-batch has been
    sent; when the loader returns, every declaration has been made. *)
Theorem loader_declares_indexes (dataframe : DataFrame) (collection_name : string)
    (batch_size : nat) (w : world S) :
  let run := cargar_en_mongodb dataframe collection_name batch_size w in
  ∃ declared,
    created_indexes (trace run.2) = created_indexes (trace w) ++ declared ∧
    declared `prefix_of` indices_de collection_name ∧
    (declared ≠ [] →
       inserted_batches (trace run.2) =
         inserted_batches (trace w) ++ lotes (to_records dataframe) batch_size) ∧
    (∀ b, run.1 = Ok b → declared = indices_de collection_name).
Proof.
  cbv zeta.
  destruct (cargar_en_mongodb_any dataframe collection_name batch_size w)
    as (r & w' & written & declared & -> & Hi & Hc & _ & Hpre & Hfirst & Hok).
  exists declared. split; [done|]. split; [done|]. split.
  - intros Hd. simpl. by rewrite Hi, Hfirst.
  - intros b Hb. by destruct (Hok b Hb) as (_ & _ & ?).
Qed.

(** X16.  A sub-batch size of 0 is an error: the division that counts the
    sub-batches raises, the error is logged and raised again, and the
    store is not called at all (for a collection name pymongo accepts,
    as everywhere in the loader). *)
Theorem loader_zero_batch_size (dataframe : DataFrame) (collection_name : string)
    (w : world S) :
  cargar_en_mongodb dataframe collection_name 0 w =
  (Raise ZeroDivisionError,
   World (db w) (trace w ++ [ELog INFO "Cargando registros"]
                         ++ [ELog ERROR "Error al cargar datos en MongoDB"])).
Proof.
  unfold cargar_en_mongodb, try_except, mbind, eff_bind. simpl.
  by rewrite <- app_assoc.
Qed.

End any_store.

Lemma lotes_nil (batch_size : nat) : lotes [] batch_size = [].
Proof.
  unfold lotes. simpl.
  destruct batch_size as [|n]; [done|].
  replace (Datatypes.S n - 1)%nat with n by lia.
  by rewrite Nat.div_small by lia.
Qed.

Lemma to_records_length `{JsonEnv} (df : DataFrame) :
  length (to_records df) = nrows df.
Proof. unfold to_records. by rewrite length_fmap, length_seq. Qed.

Section any_store_edges.
Context {S : Type} `{DocumentStore S} `{JsonEnv}.

(** X17.  A batch without rows is never written: the store gets no
    [insert_many] call, whatever the sub-batch size. *)
Theorem loader_empty_batch (dataframe : DataFrame) (collection_name : string)
    (batch_size : nat) (w : world S) :
  nrows dataframe = 0%nat →
  inserted_batches
    (trace (cargar_en_mongodb dataframe collection_name batch_size w).2)
  = inserted_batches (trace w).
Proof.
  intros Hrows.
  destruct (cargar_en_mongodb_any dataframe collection_name batch_size w)
    as (r & w' & written & declared & -> & Hi & _ & Hpre & _).
  cbv zeta in Hpre.
  assert (to_records dataframe = []) as E.
  { apply length_zero_iff_nil. by rewrite to_records_length. }
  rewrite E, lotes_nil in Hpre. apply prefix_nil_inv in Hpre as ->.
  simpl. by rewrite Hi, app_nil_r.
Qed.

(** X18.  An error of the store other than a bulk write error is not
    tolerated: when the first write raises one, the loader logs it and
    raises it again, without sending the other sub-batches and without
    declaring any index. *)
Theorem loader_stops_at_fatal_error (dataframe : DataFrame)
    (collection_name : string) (batch_size : nat) (w : world S)
    (e : exn) (s' : S) :
  (0 < batch_size)%nat → (0 < nrows dataframe)%nat →
  (∀ errs, e ≠ BulkWriteError errs) →
  let first := take batch_size (to_records dataframe) in
  insert_many collection_name first false (db w) = (Raise e, s') →
  cargar_en_mongodb dataframe collection_name batch_size w =
  (Raise e,
   World s' (trace w ++ [ELog INFO "Cargando registros";
                         EInsertMany collection_name first;
                         ELog ERROR "Error al cargar datos en MongoDB"])).
Proof.
  intros Hn Hrows He first Hins.
  unfold cargar_en_mongodb, try_except, mbind, eff_bind.
  cbn [logger emit].
  destruct (batch_size =? 0)%nat eqn:E0; [apply Nat.eqb_eq in E0; lia|].
  unfold mret at 1, eff_ret at 1.
  set (records := to_records dataframe) in *.
  assert (0 < length records)%nat as Hlen.
  { unfold records. by rewrite to_records_length. }
  assert (0 < (length records + batch_size - 1) / batch_size)%nat as Hk.
  { apply Nat.div_str_pos. lia. }
  destruct ((length records + batch_size - 1) / batch_size)%nat as [|k]; [lia|].
  cbn [seq for_each]. unfold mbind, eff_bind.
  unfold cargar_lote at 1.
  assert (slice records (0 * batch_size)
            (Nat.min ((0 + 1) * batch_size) (length records)) = first) as ->.
  { unfold slice, first. rewrite Nat.mul_0_l, Nat.sub_0_r, drop_0.
    rewrite Nat.add_0_l, Nat.mul_1_l.
    destruct (decide (batch_size ≤ length records)%nat).
    - by rewrite Nat.min_l.
    - rewrite Nat.min_r by lia. by rewrite !take_ge by lia. }
  assert (first ≠ []) as Hne.
  { intros E. apply (f_equal length) in E. unfold first in E.
    rewrite length_take in E. simpl in E. lia. }
  destruct first as [|d b]; [done|].
  unfold try_except, call_insert_many. cbn [db trace].
  rewrite Hins.
  destruct e; try (by simpl; rewrite <- !app_assoc).
  by destruct (He writeErrors).
Qed.
End any_store_edges.

Lemma loader_empty_batch_witness :
  let df := [("id", NumCol [])] in
  let w := World (Mongo [] [] []) [] in
  nrows df = 0%nat ∧
  inserted_batches (trace (cargar_en_mongodb df "playlists" 1000 w).2) = [].
Proof.
  cbv zeta. split; [reflexivity|].
  exact (loader_empty_batch [("id", NumCol [])] "playlists" 1000
           (World (Mongo [] [] []) []) eq_refl).
Defined.

Lemma loader_stops_at_fatal_error_witness :
  let w := World (Mongo [] [] [true]) [] in
  let first := take 2 (to_records (ids_frame 1 5)) in
  (0 < 2)%nat ∧ (0 < nrows (ids_frame 1 5))%nat ∧
  insert_many "tracks" first false (db w) = (Raise ConnectionFailure, Mongo [] [] []) ∧
  cargar_en_mongodb (ids_frame 1 5) "tracks" 2 w =
  (Raise ConnectionFailure,
   World (Mongo [] [] [])
     ([] ++ [ELog INFO "Cargando registros"; EInsertMany "tracks" first;
             ELog ERROR "Error al cargar datos en MongoDB"])).
Proof.
  cbv zeta.
  assert (0 < nrows (ids_frame 1 5))%nat as Hrows by (simpl; lia).
  split; [lia|]. split; [exact Hrows|]. split; [reflexivity|].
  refine (loader_stops_at_fatal_error (ids_frame 1 5) "tracks" 2
            (World (Mongo [] [] [true]) []) ConnectionFailure (Mongo [] [] [])
            (Nat.lt_0_succ 1) Hrows _ eq_refl).
  intros errs. discriminate.
Defined.

(** ** The driver on a store that stays reachable *)

Section driver_runs.
Context {S : Type} `{DocumentStore S} `{JsonEnv}.
Variable collection_name : string.
Variable good : S → Prop.
Hypothesis insert_tolerated : ∀ batch s, good s →
  good (insert_many collection_name batch false s).2 ∧
  ((insert_many collection_name batch false s).1 = Ok tt ∨
   ∃ errs, (insert_many collection_name batch false s).1 = Raise (BulkWriteError errs)).
Hypothesis index_created : ∀ fld unique s, good s →
  good (create_index collection_name fld unique s).2 ∧
  (create_index collection_name fld unique s).1 = Ok tt.
Variable funcion_transformacion : DataFrame → result DataFrame.

(** The sub-batches of the cleaned chunks, in file order. *)
Local Abbreviation lotes_de outs :=
  (concat ((λ out, lotes (to_records out) 1000) <$> outs)).

Lemma emit_continues (e : event) (w : world S) :
  good (db w) → inserted_batches [e] = [] → warnings [e] = [] →
  ∃ w', emit e w = (Ok tt, w') ∧ continues_on good w w' [] [].
Proof.
  intros Hg Hi Hw. eexists. split; [done|].
  unfold continues_on, inserted_batches, warnings in *. simpl.
  by rewrite !omap_app, Hi, Hw.
Qed.

Lemma procesar_chunks_run (chunks outs : list DataFrame) (total : nat)
    (w : world S) :
  good (db w) →
  Forall2 (λ chunk out, funcion_transformacion chunk = Ok out) chunks outs →
  ∃ n w' ws,
    procesar_chunks collection_name funcion_transformacion chunks total w
      = (Ok n, w') ∧
    continues_on good w w' (lotes_de outs) ws.
Proof.
  intros Hg Hall. revert total w Hg.
  induction Hall as [|chunk out chunks outs Hout _ IH]; intros total w Hg.
  { exists total, w, []. split; [done|]. by apply continues_refl. }
  cbn [procesar_chunks]. unfold mbind, eff_bind.
  destruct (logger_run good INFO "Procesando chunk" w Hg) as (w1 & -> & _ & C1).
  rewrite Hout. unfold lift at 1.
  destruct (cargar_en_mongodb_run collection_name good insert_tolerated
              index_created out 1000 w1 ltac:(lia) (proj1 C1))
    as (w2 & -> & C2). cbv zeta in C2.
  destruct (logger_run good INFO "Chunk procesado" w2 (proj1 C2))
    as (w3 & -> & _ & C3).
  destruct (IH (total + nrows chunk)%nat w3 (proj1 C3)) as (n & w4 & ws & -> & C4).
  eexists n, w4, _. split; [done|]. csimpl.
  pose proof (continues_trans _ _ _ _ _ _ _ _ C1
                (continues_trans _ _ _ _ _ _ _ _ C2
                   (continues_trans _ _ _ _ _ _ _ _ C3 C4))) as C.
  simpl in C. exact C.
Qed.

Lemma open_chunks_run (src : csv_source) (x : list DataFrame * option exn)
    (w : world S) :
  good (db w) →
  chunks_skip_bad_lines src = Ok x ∨
  (chunks_skip_bad_lines src = Raise TypeError ∧
   chunks_error_bad_lines src = Ok x) →
  ∃ w', open_chunks src w = (Ok x, w') ∧ continues_on good w w' [] [].
Proof.
  intros Hg Hopen. unfold open_chunks, try_except, mbind, eff_bind.
  destruct (emit_continues EReadChunks w Hg eq_refl eq_refl) as (w1 & -> & C1).
  destruct Hopen as [->|[-> ->]]; unfold lift at 1.
  - destruct (logger_run good INFO "Usando on_bad_lines=skip" w1 (proj1 C1))
      as (w2 & -> & _ & C2).
    exists w2. split; [done|]. apply (continues_trans _ _ _ _ [] [] [] [] C1 C2).
  - destruct (emit_continues EReadChunks w1 (proj1 C1) eq_refl eq_refl)
      as (w2 & -> & C2).
    unfold lift at 1.
    destruct (logger_run good INFO "Usando error_bad_lines=False" w2 (proj1 C2))
      as (w3 & -> & _ & C3).
    exists w3. split; [done|].
    apply (continues_trans _ _ _ _ [] [] [] [] C1).
    apply (continues_trans _ _ _ _ [] [] [] [] C2 C3).
Qed.

Lemma metodo_principal_run (src : csv_source) (sample : DataFrame)
    (chunks outs : list DataFrame) (fin : option exn) (w : world S) :
  good (db w) →
  read_head src = Ok sample →
  chunks_skip_bad_lines src = Ok (chunks, fin) ∨
  (chunks_skip_bad_lines src = Raise TypeError ∧
   chunks_error_bad_lines src = Ok (chunks, fin)) →
  Forall2 (λ chunk out, funcion_transformacion chunk = Ok out) chunks outs →
  ∃ w' ws,
    metodo_principal src collection_name funcion_transformacion w =
      (match fin with Some e => Raise e | None => Ok true end, w') ∧
    continues_on good w w' (lotes_de outs) ws.
Proof.
  intros Hg Hhead Hopen Hall. unfold metodo_principal, mbind, eff_bind.
  destruct (logger_run good INFO "Analizando la estructura del CSV" w Hg)
    as (w1 & -> & _ & C1).
  destruct (emit_continues EReadHead w1 (proj1 C1) eq_refl eq_refl)
    as (w2 & -> & C2).
  rewrite Hhead. unfold lift at 1.
  destruct (logger_run good INFO "Estructura detectada" w2 (proj1 C2))
    as (w3 & -> & _ & C3).
  destruct (logger_run good INFO "Numero de columnas detectadas" w3 (proj1 C3))
    as (w4 & -> & _ & C4).
  destruct (open_chunks_run src (chunks, fin) w4 (proj1 C4) Hopen)
    as (w5 & -> & C5).
  cbn [fst snd].
  destruct (procesar_chunks_run chunks outs 0 w5 (proj1 C5) Hall)
    as (n & w6 & ws & -> & C6).
  pose proof (continues_trans _ _ _ _ _ _ _ _ C1
               (continues_trans _ _ _ _ _ _ _ _ C2
                 (continues_trans _ _ _ _ _ _ _ _ C3
                   (continues_trans _ _ _ _ _ _ _ _ C4
                     (continues_trans _ _ _ _ _ _ _ _ C5 C6))))) as C.
  simpl in C.
  destruct fin as [e|].
  - unfold raise. eexists w6, _. split; [done|]. exact C.
  - destruct (logger_run good INFO "Archivo procesado completamente" w6 (proj1 C6))
      as (w7 & -> & _ & C7).
    eexists w7, _. split; [done|].
    pose proof (continues_trans _ _ _ _ _ _ _ _ C C7) as C'.
    rewrite app_nil_r in C'. exact C'.
Qed.

Lemma procesar_archivo_csv_run (src : csv_source) (sample : DataFrame)
    (chunks outs : list DataFrame) (w : world S) :
  good (db w) →
  read_head src = Ok sample →
  chunks_skip_bad_lines src = Ok (chunks, None) ∨
  (chunks_skip_bad_lines src = Raise TypeError ∧
   chunks_error_bad_lines src = Ok (chunks, None)) →
  Forall2 (λ chunk out, funcion_transformacion chunk = Ok out) chunks outs →
  ∃ w' ws,
    procesar_archivo_csv src collection_name funcion_transformacion w
      = (Ok true, w') ∧
    continues_on good w w' (lotes_de outs) ws.
Proof.
  intros Hg Hhead Hopen Hall.
  unfold procesar_archivo_csv, mbind, eff_bind, try_except.
  destruct (logger_run good INFO "Procesando archivo" w Hg) as (w0 & -> & _ & C0).
  destruct (metodo_principal_run src sample chunks outs None w0 (proj1 C0)
              Hhead Hopen Hall) as (w1 & ws & -> & C1).
  eexists w1, _. split; [done|].
  exact (continues_trans _ _ _ _ _ _ _ _ C0 C1).
Qed.

(** X19.  A file that reads without error, on a store that stays reachable:
    the driver returns [True] without touching the fallback, and what it
    wrote is the sub-batches of the cleaned chunks, chunk after chunk in
    file order.  This holds with the parameters of recent pandas as with
    those of old pandas, which are tried when the first call raises
    [TypeError]. *)
Theorem driver_loads_every_chunk (src : csv_source) (sample : DataFrame)
    (chunks outs : list DataFrame) (w : world S) :
  good (db w) → fallback_taken (trace w) = false →
  read_head src = Ok sample →
  chunks_skip_bad_lines src = Ok (chunks, None) ∨
  (chunks_skip_bad_lines src = Raise TypeError ∧
   chunks_error_bad_lines src = Ok (chunks, None)) →
  Forall2 (λ chunk out, funcion_transformacion chunk = Ok out) chunks outs →
  let run := procesar_archivo_csv src collection_name funcion_transformacion w in
  run.1 = Ok true ∧
  fallback_taken (trace run.2) = false ∧
  inserted_batches (trace run.2) = inserted_batches (trace w) ++ lotes_de outs.
Proof.
  intros Hg Hfb Hhead Hopen Hall. cbv zeta.
  unfold procesar_archivo_csv, mbind, eff_bind, try_except.
  destruct (logger_run good INFO "Procesando archivo" w Hg) as (w0 & E0 & _ & C0).
  rewrite E0.
  assert (fallback_taken (trace w0) = false) as Hfb0.
  { injection E0 as <-. simpl. by rewrite fallback_taken_snoc, Hfb. }
  pose proof (quiet_metodo_principal src collection_name funcion_transformacion w0)
    as Hquiet.
  destruct (metodo_principal_run src sample chunks outs None w0 (proj1 C0)
              Hhead Hopen Hall) as (w1 & ws & E1 & C1).
  rewrite E1 in Hquiet |- *. simpl in *.
  split; [done|]. split; [congruence|].
  destruct (continues_trans _ _ _ _ _ _ _ _ C0 C1) as (_ & Hi & _).
  by rewrite Hi.
Qed.

Lemma metodo_alternativo_run (src : csv_source) (whole out_whole : DataFrame)
    (w : world S) :
  good (db w) →
  read_python_engine src = Ok whole →
  funcion_transformacion whole = Ok out_whole →
  ∃ w' ws,
    metodo_alternativo src collection_name funcion_transformacion w
      = (Ok true, w') ∧
    continues_on good w w' (lotes (to_records out_whole) 1000) ws.
Proof.
  intros Hg Hwhole Hout. unfold metodo_alternativo, mbind, eff_bind.
  destruct (emit_continues EReadWholeFile w Hg eq_refl eq_refl)
    as (w1 & -> & C1).
  rewrite Hwhole. unfold lift at 1.
  destruct (logger_run good INFO "Lectura alternativa exitosa" w1 (proj1 C1))
    as (w2 & -> & _ & C2).
  rewrite Hout. unfold lift at 1.
  destruct (cargar_en_mongodb_run collection_name good insert_tolerated
              index_created out_whole 1000 w2 ltac:(lia) (proj1 C2))
    as (w3 & -> & C3). cbv zeta in C3.
  destruct (logger_run good INFO "Archivo procesado con metodo alternativo" w3
              (proj1 C3)) as (w4 & -> & _ & C4).
  eexists w4, _. split; [done|].
  pose proof (continues_trans _ _ _ _ _ _ _ _ C1
               (continues_trans _ _ _ _ _ _ _ _ C2
                 (continues_trans _ _ _ _ _ _ _ _ C3 C4))) as C.
  simpl in C. rewrite app_nil_r in C. exact C.
Qed.

(** X20.  A file whose chunk reader fails after some chunks, and that reads
    whole with the permissive parser: the chunks read before the failure
    are loaded, then the whole file is loaded from its first row, so the
    rows of those chunks are sent to the store a second time. *)
Theorem driver_reloads_whole_file (src : csv_source)
    (sample whole out_whole : DataFrame) (chunks outs : list DataFrame)
    (e : exn) (w : world S) :
  good (db w) →
  read_head src = Ok sample →
  chunks_skip_bad_lines src = Ok (chunks, Some e) ∨
  (chunks_skip_bad_lines src = Raise TypeError ∧
   chunks_error_bad_lines src = Ok (chunks, Some e)) →
  Forall2 (λ chunk out, funcion_transformacion chunk = Ok out) chunks outs →
  read_python_engine src = Ok whole →
  funcion_transformacion whole = Ok out_whole →
  let run := procesar_archivo_csv src collection_name funcion_transformacion w in
  run.1 = Ok true ∧
  fallback_taken (trace run.2) = true ∧
  inserted_batches (trace run.2) =
    inserted_batches (trace w) ++ lotes_de outs
      ++ lotes (to_records out_whole) 1000.
Proof.
  intros Hg Hhead Hopen Hall Hwhole Hout. cbv zeta.
  assert (∃ w' ws,
            procesar_archivo_csv src collection_name funcion_transformacion w
              = (Ok true, w') ∧
            fallback_taken (trace w') = true ∧
            continues_on good w w'
              (lotes_de outs ++ lotes (to_records out_whole) 1000) ws)
    as (w' & ws & -> & Hfb & _ & Hi & _).
  2:{ done. }
  unfold procesar_archivo_csv, mbind, eff_bind, try_except.
  destruct (logger_run good INFO "Procesando archivo" w Hg) as (w0 & -> & _ & C0).
  destruct (metodo_principal_run src sample chunks outs (Some e) w0 (proj1 C0)
              Hhead Hopen Hall) as (w1 & ws1 & -> & C1).
  destruct (logger_run good ERROR "Error al procesar el archivo" w1 (proj1 C1))
    as (w2 & -> & _ & C2).
  destruct (logger_run good INFO "Intentando metodo alternativo de lectura" w2
              (proj1 C2)) as (w3 & -> & _ & C3).
  pose proof (metodo_alternativo_taken src collection_name
                funcion_transformacion w3) as Htaken.
  destruct (metodo_alternativo_run src whole out_whole w3 (proj1 C3)
              Hwhole Hout) as (w4 & ws4 & E4 & C4).
  rewrite E4 in Htaken |- *.
  eexists w4, _. split; [done|]. split; [done|].
  pose proof (continues_trans _ _ _ _ _ _ _ _ C0
               (continues_trans _ _ _ _ _ _ _ _ C1
                 (continues_trans _ _ _ _ _ _ _ _ C2
                   (continues_trans _ _ _ _ _ _ _ _ C3 C4)))) as C.
  simpl in C. exact C.
Qed.
End driver_runs.

(** ** The driver's errors and its return value *)

Section driver_errors.
Context {S : Type} `{DocumentStore S} `{JsonEnv}.

(** X21.  A file that neither parser can read: the store is not called, and
    the error that reaches the caller is the one of the second attempt,
    the first one being only logged. *)
Theorem driver_unreadable_file (src : csv_source) (collection_name : string)
    (funcion_transformacion : DataFrame → result DataFrame)
    (e1 e2 : exn) (w : world S) :
  read_head src = Raise e1 → read_python_engine src = Raise e2 →
  procesar_archivo_csv src collection_name funcion_transformacion w =
  (Raise e2,
   World (db w)
     (trace w ++ [ELog INFO "Procesando archivo";
                  ELog INFO "Analizando la estructura del CSV";
                  EReadHead;
                  ELog ERROR "Error al procesar el archivo";
                  ELog INFO "Intentando metodo alternativo de lectura";
                  EReadWholeFile;
                  ELog ERROR "Ambos metodos de lectura fallaron"])).
Proof.
  intros H1 H2.
  unfold procesar_archivo_csv, metodo_principal, metodo_alternativo,
    try_except, mbind, eff_bind.
  simpl. rewrite H1. simpl. rewrite H2. simpl.
  by rewrite <- !app_assoc.
Qed.

Lemma metodo_alternativo_true (src : csv_source) (c : string)
    (f : DataFrame → result DataFrame) (w w' : world S) (b : bool) :
  metodo_alternativo src c f w = (Ok b, w') → b = true.
Proof.
  unfold metodo_alternativo, mbind, eff_bind, mret, eff_ret.
  repeat match goal with
         | |- context [match ?m ?w with _ => _ end] =>
             destruct (m w) as [[?|?] ?]; try done
         end.
  by intros [= <- _].
Qed.

(** X22.  Neither the loader nor the driver ever returns [False]: each returns
    [True] or raises, so the value they return tells the caller nothing
    and a failure shows only as an exception. *)
Theorem loader_and_driver_never_return_false (src : csv_source)
    (dataframe : DataFrame) (collection_name : string) (batch_size : nat)
    (funcion_transformacion : DataFrame → result DataFrame) (w : world S) :
  (cargar_en_mongodb dataframe collection_name batch_size w).1 ≠ Ok false ∧
  (procesar_archivo_csv src collection_name funcion_transformacion w).1
    ≠ Ok false.
Proof.
  split.
  - destruct (cargar_en_mongodb_any dataframe collection_name batch_size w)
      as (r & w' & written & declared & -> & _ & _ & _ & _ & _ & Hok).
    simpl. intros ->. by destruct (Hok false eq_refl) as [? _].
  - unfold procesar_archivo_csv, mbind, eff_bind, try_except.
    cbn [logger emit].
    set (w0 := World _ _).
    destruct (metodo_principal src collection_name funcion_transformacion w0)
      as [[b|e] w1] eqn:E1.
    + apply metodo_principal_true in E1 as ->. done.
    + set (w2 := World _ _).
      destruct (metodo_alternativo src collection_name funcion_transformacion w2)
        as [[b|e2] w3] eqn:E2.
      * apply metodo_alternativo_true in E2 as ->. done.
      * done.
Qed.
End driver_errors.

Lemma driver_loads_every_chunk_witness :
  let w := World (Mongo [] ["playlists"] []) [] in
  let run := procesar_archivo_csv clean_source "playlists"
               transformar_playlists w in
  mongo_reachable "playlists" (db w) ∧
  run.1 = Ok true ∧
  fallback_taken (trace run.2) = false ∧
  inserted_batches (trace run.2) = [to_records two_playlists].
Proof.
  cbv zeta.
  assert (mongo_reachable "playlists" (Mongo [] ["playlists"] [])) as Hg.
  { split; [done|]. apply elem_of_cons. by left. }
  split; [exact Hg|].
  refine (driver_loads_every_chunk "playlists" (mongo_reachable "playlists")
            (mongo_insert_tolerated "playlists")
            (mongo_index_created "playlists")
            transformar_playlists clean_source two_playlists
            [two_playlists] [two_playlists]
            (World (Mongo [] ["playlists"] []) [])
            Hg eq_refl eq_refl (or_introl eq_refl) _).
  repeat constructor.
Defined.

Lemma driver_reloads_whole_file_witness :
  let w := World (Mongo [] ["playlists"] []) [] in
  let run := procesar_archivo_csv broken_source "playlists"
               transformar_playlists w in
  mongo_reachable "playlists" (db w) ∧
  run.1 = Ok true ∧
  fallback_taken (trace run.2) = true ∧
  inserted_batches (trace run.2) =
    [to_records two_playlists; to_records two_playlists].
Proof.
  cbv zeta.
  assert (mongo_reachable "playlists" (Mongo [] ["playlists"] [])) as Hg.
  { split; [done|]. apply elem_of_cons. by left. }
  split; [exact Hg|].
  refine (driver_reloads_whole_file "playlists" (mongo_reachable "playlists")
            (mongo_insert_tolerated "playlists")
            (mongo_index_created "playlists")
            transformar_playlists broken_source two_playlists two_playlists
            two_playlists [two_playlists] [two_playlists] ParserError
            (World (Mongo [] ["playlists"] []) [])
            Hg eq_refl (or_introl eq_refl) _ eq_refl eq_refl).
  repeat constructor.
Defined.

Lemma driver_unreadable_file_witness :
  let src := CsvSource (Raise FileNotFoundError) (Raise FileNotFoundError)
               (Raise FileNotFoundError) (Raise ParserError) in
  read_head src = Raise FileNotFoundError ∧
  read_python_engine src = Raise ParserError ∧
  procesar_archivo_csv src "tracks" limpiar_y_transformar_tracks
    (World (Mongo [] [] []) []) =
  (Raise ParserError,
   World (Mongo [] [] [])
     ([] ++ [ELog INFO "Procesando archivo";
             ELog INFO "Analizando la estructura del CSV";
             EReadHead;
             ELog ERROR "Error al procesar el archivo";
             ELog INFO "Intentando metodo alternativo de lectura";
             EReadWholeFile;
             ELog ERROR "Ambos metodos de lectura fallaron"])).
Proof.
  cbv zeta. split; [reflexivity|]. split; [reflexivity|].
  exact (driver_unreadable_file
           (CsvSource (Raise FileNotFoundError) (Raise FileNotFoundError)
              (Raise FileNotFoundError) (Raise ParserError))
           "tracks" limpiar_y_transformar_tracks FileNotFoundError ParserError
           (World (Mongo [] [] []) []) eq_refl eq_refl).
Defined.

(** ** The generic transform *)

Lemma mask_select_filter {A} (f : A → bool) (l : list A) :
  mask_select (f <$> l) l = filter (λ x, f x = true) l.
Proof.
  induction l as [|x l IH]; csimpl; [done|].
  rewrite filter_cons, IH. by destruct (f x); case_decide.
Qed.

(** X23.  The transform of the other files keeps, in their order, exactly the
    rows that hold a value in some column: a row is dropped only when it
    is missing everywhere, and no cell of a row kept is changed. *)
Theorem dropna_all_rows (df : DataFrame) :
  wf df →
  rows (dropna_all df) = filter (λ r, has_value r = true) (rows df).
Proof.
  intros Hwf. unfold dropna_all. cbv zeta.
  rewrite rows_select; [|done|by rewrite length_fmap, rows_length].
  apply mask_select_filter.
Qed.

(** ** The pipeline *)

Lemma bind_ok {St A B} (m : Eff St A) (f : A → Eff St B) (s s' : St) (b : B) :
  (m ≫= f) s = (Ok b, s') → ∃ a s1, m s = (Ok a, s1) ∧ f a s1 = (Ok b, s').
Proof.
  unfold mbind, eff_bind. destruct (m s) as [[a|e] s1]; [eauto|done].
Qed.

Lemma for_each_raise {St B} (pre post : list B) (x : B)
    (body : B → Eff St unit) (s s1 s2 : St) (e : exn) :
  for_each pre body s = (Ok tt, s1) → body x s1 = (Raise e, s2) →
  for_each (pre ++ x :: post) body s = (Raise e, s2).
Proof.
  revert s. induction pre as [|a pre IH]; intros s Hpre Hx.
  - injection Hpre as <-. simpl. unfold mbind, eff_bind. by rewrite Hx.
  - simpl in *. unfold mbind, eff_bind in *.
    destruct (body a s) as [[[]|?] s']; [|done].
    by apply IH.
Qed.

Section pipeline_runs.
Context {S : Type} `{DocumentStore S} `{StoreSummary S} `{PyEnv} `{JsonEnv}
  `{StrLower}.

Lemma resumen_last (w w' : world S) :
  resumen w = (Ok tt, w') →
  last (trace w') = Some EListCollections ∨
  last (trace w') = Some (ELog INFO "Coleccion").
Proof.
  unfold resumen. intros (cols & w1 & Hcols & Hloop)%bind_ok.
  injection Hcols as _ <-.
  assert (∀ cs w0, for_each cs
             (λ col, count ← call_count_documents col;
                     logger INFO "Coleccion") w0 = (Ok tt, w') →
           cs ≠ [] → last (trace w') = Some (ELog INFO "Coleccion")) as Hlast.
  { clear. induction cs as [|col cs IH]; intros w0 Hrun Hne; [done|].
    cbn [for_each] in Hrun.
    apply bind_ok in Hrun as ([] & w1 & Hbody & Hrest).
    apply bind_ok in Hbody as (n & w2 & _ & Hlog).
    injection Hlog as <-.
    destruct cs as [|col' cs]; [|by apply (IH _ Hrest)].
    injection Hrest as <-. simpl. by rewrite last_snoc. }
  destruct cols as [|col cols]; [|right; by eapply Hlast].
  left. injection Hloop as <-. simpl. by rewrite last_snoc.
Qed.

(** X24.  The pipeline never raises to its caller: it returns [True], or it
    returns [False] after logging the error of the step that raised, and
    that error line is then the last of the log. *)
Theorem etl_never_raises (env : pasos) (w : world S) :
  let run := ejecutar_etl env w in
  (run.1 = Ok true ∨ run.1 = Ok false) ∧
  (run.1 = Ok false ↔
   last (trace run.2) = Some (ELog ERROR "Error en el proceso ETL")).
Proof.
  cbv zeta.
  assert (∃ b w', ejecutar_etl env w = (Ok b, w') ∧
            (b = false ↔
             last (trace w') = Some (ELog ERROR "Error en el proceso ETL")))
    as (b & w' & -> & Hlast).
  2:{ simpl. split; [destruct b; auto|]. rewrite <- Hlast.
      split; [by intros [= ->]|by intros ->]. }
  unfold ejecutar_etl.
  set (body := (logger INFO "Directorio actual";; _)).
  unfold mbind at 1, eff_bind at 1, try_except. cbn [logger emit].
  set (w0 := World _ _).
  destruct (body w0) as [[b|e] w1] eqn:Ebody.
  - exists b, w1. split; [done|]. unfold body in Ebody.
    do 8 (apply bind_ok in Ebody as (? & ? & _ & Ebody)).
    apply bind_ok in Ebody as ([] & w2 & Hlog & Ebody).
    apply bind_ok in Ebody as ([] & w3 & Hres & Ebody).
    injection Ebody as <- <-. injection Hlog as <-.
    split; [done|]. intros Hlast.
    apply resumen_last in Hres as [Heq|Heq]; by rewrite Heq in Hlast.
  - eexists false, _. split; [done|]. simpl. by rewrite last_snoc.
Qed.

(** X25.  When the Kaggle client, the download or the connection raises, the
    pipeline returns [False] without reading any file and without any
    call to the store. *)
Theorem etl_setup_failure (env : pasos) (w : world S) :
  (∃ e, kaggle_api env = Raise e) ∨
  (∃ e, archivos_descargados env = Raise e) ∨
  (∃ e, conexion env = Raise e) →
  ejecutar_etl env w =
  (Ok false,
   World (db w)
     (trace w ++ [ELog INFO "Iniciando proceso ETL";
                  ELog INFO "Directorio actual";
                  ELog INFO "KAGGLE_USERNAME";
                  ELog INFO "KAGGLE_KEY";
                  ELog INFO "MONGODB_CONNECTION_STRING";
                  ELog ERROR "Error en el proceso ETL"])).
Proof.
  intros Hfail. unfold ejecutar_etl, try_except, mbind, eff_bind.
  cbn [logger emit lift db trace].
  destruct (kaggle_api env) as [[]|e1], (archivos_descargados env) as [l|e2],
           (conexion env) as [[]|e3];
    try (simpl; by rewrite <- !app_assoc).
  by destruct Hfail as [[? ?]|[[? ?]|[? ?]]].
Qed.

(** X26.  A file that fails stops the run: when the driver raises on a file,
    the files that follow it are neither read nor loaded, and the
    pipeline returns [False]. *)
Theorem etl_stops_at_first_failure (env : pasos) (pre post : list string)
    (archivo : string) (e : exn) (w w1 w2 : world S) :
  kaggle_api env = Ok tt →
  archivos_descargados env = Ok (pre ++ archivo :: post) →
  conexion env = Ok tt →
  let w0 := World (db w)
              (trace w ++ [ELog INFO "Iniciando proceso ETL";
                           ELog INFO "Directorio actual";
                           ELog INFO "KAGGLE_USERNAME";
                           ELog INFO "KAGGLE_KEY";
                           ELog INFO "MONGODB_CONNECTION_STRING"]) in
  for_each pre (procesar_archivo env) w0 = (Ok tt, w1) →
  procesar_archivo env archivo w1 = (Raise e, w2) →
  ejecutar_etl env w =
  (Ok false, World (db w2) (trace w2 ++ [ELog ERROR "Error en el proceso ETL"])).
Proof.
  intros Hk Ha Hc w0 Hpre Hfail.
  pose proof (for_each_raise pre post archivo _ w0 w1 w2 e Hpre Hfail) as Hloop.
  unfold ejecutar_etl, try_except, mbind, eff_bind.
  cbn [logger emit lift db trace]. rewrite Hk, Ha, Hc.
  rewrite <- !app_assoc. simpl. fold w0.
  unfold mbind, eff_bind in Hloop. by rewrite Hloop.
Qed.
End pipeline_runs.

Lemma dropna_all_rows_witness :
  let df := [("a", NumCol [Some 1%Q; None; None]);
             ("b", ObjCol [ONaN; ONaN; OStr (py "x")])] in
  wf df ∧
  rows (dropna_all df) = [[CNum 1%Q; CNull]; [CNull; CStr (py "x")]] ∧
  rows (dropna_all df) = filter (λ r, has_value r = true) (rows df).
Proof.
  cbv zeta.
  assert (wf [("a", NumCol [Some 1%Q; None; None]);
              ("b", ObjCol [ONaN; ONaN; OStr (py "x")])]) as Hwf.
  { split; [unfold columns; compute_done|by repeat constructor]. }
  split; [exact Hwf|]. split; [vm_compute; reflexivity|].
  exact (dropna_all_rows _ Hwf).
Defined.

Lemma etl_setup_failure_witness :
  let env := Pasos (Ok tt) (Raise ConnectionFailure) (Ok tt) (λ _, clean_source) in
  (∃ e, archivos_descargados env = Raise e) ∧
  (@ejecutar_etl mongo _ _ example_env _ _ env (World (Mongo [] [] []) [])).1
    = Ok false.
Proof.
  cbv zeta.
  assert (∃ e, archivos_descargados
                 (Pasos (Ok tt) (Raise ConnectionFailure) (Ok tt)
                    (λ _, clean_source)) = Raise e) as Hfail.
  { by exists ConnectionFailure. }
  split; [exact Hfail|].
  exact (f_equal fst
           (@etl_setup_failure mongo _ _ example_env _ _
              (Pasos (Ok tt) (Raise ConnectionFailure) (Ok tt) (λ _, clean_source))
              (World (Mongo [] [] []) []) (or_intror (or_introl Hfail)))).
Defined.

Lemma etl_stops_at_first_failure_witness :
  let missing := CsvSource (Raise FileNotFoundError) (Raise FileNotFoundError)
                   (Raise FileNotFoundError) (Raise FileNotFoundError) in
  let env := Pasos (Ok tt) (Ok ["notes.txt"; "playlists.csv"]) (Ok tt)
               (λ archivo, if String.eqb archivo "notes.txt" then missing
                           else clean_source) in
  let run := @ejecutar_etl mongo _ _ example_env _ _ env (World (Mongo [] [] []) []) in
  run.1 = Ok false ∧ inserted_batches (trace run.2) = [].
Proof.
  cbv zeta.
  pose proof (@etl_stops_at_first_failure mongo _ _ example_env _ _
                (Pasos (Ok tt) (Ok ["notes.txt"; "playlists.csv"]) (Ok tt)
                   (λ archivo,
                      if String.eqb archivo "notes.txt"
                      then CsvSource (Raise FileNotFoundError)
                             (Raise FileNotFoundError)
                             (Raise FileNotFoundError)
                             (Raise FileNotFoundError)
                      else clean_source))
                [] ["playlists.csv"] "notes.txt" FileNotFoundError
                (World (Mongo [] [] []) []) _ _
                eq_refl eq_refl eq_refl eq_refl eq_refl) as T.
  rewrite T. split; reflexivity.
Defined.

(** ** The collections a run touches *)

Section touches.
Context {S : Type} `{DocumentStore S} `{JsonEnv}.
Variable P : event → Prop.

Lemma only_adds_ret {A} (a : A) : only_adds (S:=S) P (mret a).
Proof. intros w. exists []. by rewrite app_nil_r. Qed.

Lemma only_adds_raise {A} (e : exn) : only_adds (S:=S) P (raise (A:=A) e).
Proof. intros w. exists []. by rewrite app_nil_r. Qed.

Lemma only_adds_lift {A} (r : result A) : only_adds (S:=S) P (lift r).
Proof. intros w. exists []. by rewrite app_nil_r. Qed.

Lemma only_adds_emit (e : event) : P e → only_adds (S:=S) P (emit e).
Proof. intros He w. exists [e]. split; [done|]. by constructor. Qed.

Lemma only_adds_insert_many (c : string) (b : list record) :
  P (EInsertMany c b) → only_adds P (call_insert_many c b).
Proof.
  intros He w. unfold call_insert_many. destruct (insert_many c b false (db w)).
  exists [EInsertMany c b]. split; [done|]. by constructor.
Qed.

Lemma only_adds_create_index (c f : string) (u : bool) :
  P (ECreateIndex c f u) → only_adds P (call_create_index c f u).
Proof.
  intros He w. unfold call_create_index. destruct (create_index c f u (db w)).
  exists [ECreateIndex c f u]. split; [done|]. by constructor.
Qed.

Lemma only_adds_bind {A B} (m : Eff (world S) A) (f : A → Eff (world S) B) :
  only_adds P m → (∀ a, only_adds P (f a)) → only_adds P (m ≫= f).
Proof.
  intros Hm Hf w. unfold mbind, eff_bind. destruct (Hm w) as (t & Ht & HP).
  destruct (m w) as [[a|e] w1]; simpl in *; [|eauto].
  destruct (Hf a w1) as (t' & Ht' & HP'). exists (t ++ t').
  split; [by rewrite Ht', Ht, app_assoc|by apply Forall_app].
Qed.

Lemma only_adds_bind_lift {A B} (r : result A) (f : A → Eff (world S) B) :
  (∀ a, r = Ok a → only_adds P (f a)) → only_adds P (lift r ≫= f).
Proof.
  intros Hf w. unfold mbind, eff_bind, lift. destruct r as [a|e].
  - by apply Hf.
  - exists []. by rewrite app_nil_r.
Qed.

Lemma only_adds_bind_ok {A B} (m : Eff (world S) A) (f : A → Eff (world S) B) :
  only_adds P m → (∀ a, (∃ w w', m w = (Ok a, w')) → only_adds P (f a)) →
  only_adds P (m ≫= f).
Proof.
  intros Hm Hf w. unfold mbind, eff_bind. destruct (Hm w) as (t & Ht & HP).
  destruct (m w) as [[a|e] w1] eqn:E; simpl in *; [|eauto].
  destruct (Hf a (ex_intro _ w (ex_intro _ w1 E)) w1) as (t' & Ht' & HP').
  exists (t ++ t'). split; [by rewrite Ht', Ht, app_assoc|by apply Forall_app].
Qed.

Lemma only_adds_try {A} (m : Eff (world S) A) (h : exn → Eff (world S) A) :
  only_adds P m → (∀ e, only_adds P (h e)) → only_adds P (try_except m h).
Proof.
  intros Hm Hh w. unfold try_except. destruct (Hm w) as (t & Ht & HP).
  destruct (m w) as [[a|e] w1]; simpl in *; [eauto|].
  destruct (Hh e w1) as (t' & Ht' & HP'). exists (t ++ t').
  split; [by rewrite Ht', Ht, app_assoc|by apply Forall_app].
Qed.

Lemma only_adds_for_each {B} (l : list B) (body : B → Eff (world S) unit) :
  (∀ x, x ∈ l → only_adds P (body x)) → only_adds P (for_each l body).
Proof.
  induction l as [|x l IH]; intros Hbody; simpl; [apply only_adds_ret|].
  apply only_adds_bind; [apply Hbody; by left|]. intros _.
  apply IH. intros y Hy. apply Hbody. by right.
Qed.
End touches.

Ltac only_adds_step :=
  lazymatch goal with
  | |- only_adds _ (mret _) => apply only_adds_ret
  | |- only_adds _ (raise _) => apply only_adds_raise
  | |- only_adds _ (lift _) => apply only_adds_lift
  | |- only_adds _ (logger _ _) => apply only_adds_emit; first [exact I|by split]
  | |- only_adds _ (emit _) => apply only_adds_emit
  | |- only_adds _ (call_insert_many _ _) => apply only_adds_insert_many
  | |- only_adds _ (call_create_index _ _ _) => apply only_adds_create_index
  | |- only_adds _ (mbind _ (lift _)) => apply only_adds_bind_lift; intros ? ?
  | |- only_adds _ (mbind _ _) => apply only_adds_bind; [|intros ?]
  | |- only_adds _ (try_except _ _) => apply only_adds_try; [|intros ?]
  | |- only_adds _ (match ?x with _ => _ end) => destruct x
  | |- only_adds _ (if ?x then _ else _) => destruct x
  end.

Lemma only_adds_impl {S A} (P Q : event → Prop) (m : Eff (world S) A) :
  (∀ e, P e → Q e) → only_adds P m → only_adds Q m.
Proof.
  intros HPQ Hm w. destruct (Hm w) as (t & Ht & HP). exists t.
  split; [done|]. by eapply Forall_impl.
Qed.

Section touches_driver.
Context {S : Type} `{DocumentStore S} `{JsonEnv}.

Lemma cargar_en_mongodb_events (df : DataFrame) (c : string) (n : nat) :
  only_adds (S:=S) (driver_event c) (cargar_en_mongodb df c n).
Proof.
  unfold cargar_en_mongodb. repeat only_adds_step; try done.
  - apply only_adds_for_each. intros i _. unfold cargar_lote.
    repeat only_adds_step; done.
  - unfold crear_indices. repeat only_adds_step; done.
Qed.

Lemma procesar_chunks_events (c : string) (f : DataFrame → result DataFrame)
    (chunks : list DataFrame) (total : nat) :
  only_adds (S:=S) (driver_event c) (procesar_chunks c f chunks total).
Proof.
  revert total. induction chunks as [|chunk rest IH]; intros total; simpl.
  - apply only_adds_ret.
  - repeat only_adds_step; [apply cargar_en_mongodb_events|apply IH].
Qed.

Lemma procesar_archivo_csv_events (src : csv_source) (c : string)
    (f : DataFrame → result DataFrame) :
  only_adds (S:=S) (driver_event c) (procesar_archivo_csv src c f).
Proof.
  unfold procesar_archivo_csv, metodo_principal, metodo_alternativo, open_chunks.
  repeat only_adds_step; try done;
    try apply procesar_chunks_events;
    try apply cargar_en_mongodb_events.
Qed.

Lemma driver_event_calls_among (c : string) (cs : list string) (e : event) :
  c ∈ cs → driver_event c e → calls_among cs e.
Proof. intros Hc. destruct e; simpl; try done; by intros ->. Qed.

(** X27.  Whatever the file and the store do, the driver keeps the trace it
    found and calls the store on no collection but the one it was given:
    every write and every index declaration names it. *)
Theorem driver_calls_only_its_collection (src : csv_source)
    (collection_name : string)
    (funcion_transformacion : DataFrame → result DataFrame) (w : world S) :
  ∃ t,
    trace (procesar_archivo_csv src collection_name funcion_transformacion w).2
      = trace w ++ t ∧
    Forall (calls_among [collection_name]) t.
Proof.
  revert w. apply (only_adds_impl (driver_event collection_name)).
  - intros e. apply driver_event_calls_among, elem_of_cons. by left.
  - apply procesar_archivo_csv_events.
Qed.
End touches_driver.

Section touches_pipeline.
Context {S : Type} `{DocumentStore S} `{StoreSummary S} `{PyEnv} `{JsonEnv}
  `{StrLower}.







End touches_pipeline.

(** ** The pipeline on files that read and a store that stays reachable *)

Section pipeline_healthy.
Context {S : Type} `{DocumentStore S} `{StoreSummary S} `{PyEnv} `{JsonEnv}
  `{StrLower}.
Variable good : S → Prop.
Variable colecciones : list string.
Hypothesis insert_tolerated : ∀ c batch s, c ∈ colecciones → good s →
  good (insert_many c batch false s).2 ∧
  ((insert_many c batch false s).1 = Ok tt ∨
   ∃ errs, (insert_many c batch false s).1 = Raise (BulkWriteError errs)).
Hypothesis index_created : ∀ c fld unique s, c ∈ colecciones → good s →
  good (create_index c fld unique s).2 ∧
  (create_index c fld unique s).1 = Ok tt.
Hypothesis summary_read : ∀ s, good s →
  ∃ cols, list_collection_names s = Ok cols ∧
          Forall (λ c, ∃ n, count_documents c s = Ok n) cols.

(** A file reads without error and every chunk of it is transformed into
    the corresponding frame of [outs]. *)
Local Abbreviation limpio env archivo outs :=
  (∃ sample chunks,
     read_head (archivo_csv env archivo) = Ok sample ∧
     (chunks_skip_bad_lines (archivo_csv env archivo) = Ok (chunks, None) ∨
      (chunks_skip_bad_lines (archivo_csv env archivo) = Raise TypeError ∧
       chunks_error_bad_lines (archivo_csv env archivo) = Ok (chunks, None))) ∧
     Forall2 (λ chunk out, (destino archivo).2 chunk = Ok out) chunks outs).

Local Abbreviation lotes_de outs :=
  (concat ((λ out, lotes (to_records out) 1000) <$> outs)).

Lemma procesar_archivo_run (env : pasos) (archivo : string)
    (outs : list DataFrame) (w : world S) :
  good (db w) → (destino archivo).1 ∈ colecciones → limpio env archivo outs →
  ∃ w' ws, procesar_archivo env archivo w = (Ok tt, w') ∧
           continues_on good w w' (lotes_de outs) ws.
Proof.
  intros Hg Hc (sample & chunks & Hhead & Hopen & Hall).
  unfold procesar_archivo, destino in *.
  destruct (contains "playlist" (str_lower archivo));
    [|destruct (contains "track" (str_lower archivo))]; simpl in Hc, Hall.
  - unfold mbind, eff_bind.
    destruct (procesar_archivo_csv_run _ good (λ batch s, insert_tolerated _ batch s Hc)
                (λ fld unique s, index_created _ fld unique s Hc) _ _ sample chunks outs w
                Hg Hhead Hopen Hall) as (w' & ws & -> & C).
    eauto.
  - unfold mbind, eff_bind.
    destruct (procesar_archivo_csv_run _ good (λ batch s, insert_tolerated _ batch s Hc)
                (λ fld unique s, index_created _ fld unique s Hc) _ _ sample chunks outs w
                Hg Hhead Hopen Hall) as (w' & ws & -> & C).
    eauto.
  - unfold mbind, eff_bind.
    destruct (logger_run good INFO "Archivo no reconocido" w Hg)
      as (w0 & -> & _ & C0).
    destruct (procesar_archivo_csv_run _ good (λ batch s, insert_tolerated _ batch s Hc)
                (λ fld unique s, index_created _ fld unique s Hc) _ _ sample chunks outs w0
                (proj1 C0) Hhead Hopen Hall) as (w' & ws & -> & C).
    eexists w', _. split; [done|].
    exact (continues_trans _ _ _ _ _ _ _ _ C0 C).
Qed.

Lemma procesar_archivos_run (env : pasos) (archivos : list string)
    (outss : list (list DataFrame)) (w : world S) :
  good (db w) →
  Forall (λ archivo, (destino archivo).1 ∈ colecciones) archivos →
  Forall2 (λ archivo outs, limpio env archivo outs) archivos outss →
  ∃ w' ws, for_each archivos (procesar_archivo env) w = (Ok tt, w') ∧
           continues_on good w w' (concat ((λ outs, lotes_de outs) <$> outss)) ws.
Proof.
  intros Hg Hcs Hall. revert w Hg Hcs.
  induction Hall as [|archivo outs archivos outss Hout _ IH]; intros w Hg Hcs.
  { exists w, []. split; [done|]. by apply continues_refl. }
  apply Forall_cons_1 in Hcs as [Hc Hcs].
  cbn [for_each]. unfold mbind, eff_bind.
  destruct (procesar_archivo_run env archivo outs w Hg Hc Hout)
    as (w1 & ws1 & -> & C1).
  destruct (IH w1 (proj1 C1) Hcs) as (w2 & ws2 & -> & C2).
  eexists w2, _. split; [done|]. csimpl.
  exact (continues_trans _ _ _ _ _ _ _ _ C1 C2).
Qed.

Lemma silent_event_continues (e : event) (w : world S) :
  good (db w) → inserted_batches [e] = [] → warnings [e] = [] →
  continues_on good w (World (db w) (trace w ++ [e])) [] [].
Proof.
  intros Hg Hi Hw. unfold continues_on, inserted_batches, warnings in *. simpl.
  by rewrite !omap_app, Hi, Hw.
Qed.

Lemma resumen_run (w : world S) :
  good (db w) → ∃ w', resumen w = (Ok tt, w') ∧ continues_on good w w' [] [].
Proof.
  intros Hg. destruct (summary_read (db w) Hg) as (cols & Hcols & Hcount).
  unfold resumen, mbind at 1, eff_bind at 1, call_list_collection_names.
  rewrite Hcols.
  pose proof (silent_event_continues EListCollections w Hg eq_refl eq_refl) as C0.
  set (w1 := World (db w) (trace w ++ [EListCollections])) in *.
  assert (∀ w0, db w0 = db w → good (db w0) →
            ∃ w', for_each cols
                    (λ col, count ← call_count_documents col;
                            logger INFO "Coleccion") w0 = (Ok tt, w') ∧
                  continues_on good w0 w' [] []) as Hloop.
  { clear Hcols C0 w1.
    induction Hcount as [|col cols [n Hn] _ IH]; intros w0 Hdb Hg0.
    { exists w0. split; [done|]. by apply continues_refl. }
    cbn [for_each]. unfold mbind, eff_bind, call_count_documents.
    rewrite Hdb, Hn.
    pose proof (silent_event_continues (ECountDocuments col) w0 Hg0
                  eq_refl eq_refl) as C1.
    rewrite Hdb in C1.
    set (w1 := World (db w) (trace w0 ++ [ECountDocuments col])) in *.
    destruct (logger_run good INFO "Coleccion" w1 (proj1 C1))
      as (w2 & -> & Hdb2 & C2).
    destruct (IH w2) as (w3 & E3 & C3); [by rewrite Hdb2|apply C2|].
    exists w3. split; [exact E3|].
    apply (continues_trans _ _ _ _ [] [] [] [] C1).
    exact (continues_trans _ _ _ _ [] [] [] [] C2 C3). }
  destruct (Hloop w1 eq_refl (proj1 C0)) as (w2 & E2 & C2).
  exists w2. split; [exact E2|].
  exact (continues_trans _ _ _ _ [] [] [] [] C0 C2).
Qed.

(** X29.  Every file reads without error and the store stays reachable: the
    pipeline returns [True], and what it wrote is, file after file in
    the order of the download, the sub-batches of the cleaned chunks of
    each file. *)
Theorem etl_loads_every_file (env : pasos) (archivos : list string)
    (outss : list (list DataFrame)) (w : world S) :
  good (db w) →
  kaggle_api env = Ok tt → archivos_descargados env = Ok archivos →
  conexion env = Ok tt →
  Forall (λ archivo, (destino archivo).1 ∈ colecciones) archivos →
  Forall2 (λ archivo outs, limpio env archivo outs) archivos outss →
  let run := ejecutar_etl env w in
  run.1 = Ok true ∧
  inserted_batches (trace run.2) =
    inserted_batches (trace w) ++ concat ((λ outs, lotes_de outs) <$> outss).
Proof.
  intros Hg Hk Ha Hc Hcs Hall. cbv zeta.
  assert (∃ w' ws, ejecutar_etl env w = (Ok true, w') ∧
            continues_on good w w' (concat ((λ outs, lotes_de outs) <$> outss)) ws)
    as (w' & ws & -> & _ & Hi & _); [|done].
  unfold ejecutar_etl, try_except, mbind, eff_bind.
  destruct (logger_run good INFO "Iniciando proceso ETL" w Hg)
    as (w0 & -> & _ & C0).
  destruct (logger_run good INFO "Directorio actual" w0 (proj1 C0))
    as (w1 & -> & _ & C1).
  destruct (logger_run good INFO "KAGGLE_USERNAME" w1 (proj1 C1))
    as (w2 & -> & _ & C2).
  destruct (logger_run good INFO "KAGGLE_KEY" w2 (proj1 C2))
    as (w3 & -> & _ & C3).
  destruct (logger_run good INFO "MONGODB_CONNECTION_STRING" w3 (proj1 C3))
    as (w4 & -> & _ & C4).
  rewrite Hk, Ha, Hc. unfold lift.
  destruct (procesar_archivos_run env archivos outss w4 (proj1 C4) Hcs Hall)
    as (w5 & ws5 & -> & C5).
  destruct (logger_run good INFO "Proceso ETL completado exitosamente" w5
              (proj1 C5)) as (w6 & -> & _ & C6).
  destruct (resumen_run w6 (proj1 C6)) as (w7 & -> & C7).
  eexists w7, _. split; [done|].
  pose proof (continues_trans _ _ _ _ _ _ _ _ C0
               (continues_trans _ _ _ _ _ _ _ _ C1
                 (continues_trans _ _ _ _ _ _ _ _ C2
                   (continues_trans _ _ _ _ _ _ _ _ C3
                     (continues_trans _ _ _ _ _ _ _ _ C4
                       (continues_trans _ _ _ _ _ _ _ _ C5
                         (continues_trans _ _ _ _ _ _ _ _ C6 C7)))))))
    as C.
  simpl in C. rewrite !app_nil_r in C. exact C.
Qed.
End pipeline_healthy.

Lemma etl_loads_every_file_witness :
  let env := Pasos (Ok tt) (Ok ["playlists.csv"]) (Ok tt) (λ _, clean_source) in
  let w := World (Mongo [] ["playlists"] []) [] in
  let run := @ejecutar_etl mongo _ _ example_env _ _ env w in
  mongo_reachable "playlists" (db w) ∧
  run.1 = Ok true ∧
  inserted_batches (trace run.2) = [to_records two_playlists].
Proof.
  cbv zeta.
  assert (mongo_reachable "playlists" (Mongo [] ["playlists"] [])) as Hg.
  { split; [done|]. apply elem_of_cons. by left. }
  split; [exact Hg|].
  refine (@etl_loads_every_file mongo _ _ example_env _ _
            (mongo_reachable "playlists") ["playlists"] _ _ _
            (Pasos (Ok tt) (Ok ["playlists.csv"]) (Ok tt) (λ _, clean_source))
            ["playlists.csv"] [[two_playlists]]
            (World (Mongo [] ["playlists"] []) [])
            Hg eq_refl eq_refl eq_refl _ _).
  - intros c batch s ->%list_elem_of_singleton. apply mongo_insert_tolerated.
  - intros c fld unique s ->%list_elem_of_singleton. apply mongo_index_created.
  - intros s _. eexists. split; [reflexivity|].
    apply Forall_forall. intros c _. eexists. reflexivity.
  - repeat constructor.
  - repeat constructor. exists two_playlists, [two_playlists].
    split; [reflexivity|]. split; [by left|]. repeat constructor.
Defined.
